(** * PWHL database: expected-goals scoring and aggregation passes

    A shallow embedding of the analytic core of the repository:

    - [calculate_xg.py]            the per-shot scorer and the skater aggregation pass,
    - [estimate_xg_season8.py]     the fallback estimator for the season without shots,
    - [calculate_gsax.py]          the goalie passes,
    - [calculate_advanced_stats.py] team Corsi and PDO.

    Python [float] is IEEE binary64 and is modelled by Rocq's primitive
    floats, so every decimal literal below denotes the same double as in
    the source.  Python [int] is [Z].  SQL tables are lists of records; a
    nullable column, and a Python value that may be [None], is an [option]. *)

From Stdlib Require Import ZArith List Bool Lia Floats.
From stdpp Require Import base option gmap strings.
Set Warnings "-inexact-float".
Import ListNotations.
Open Scope Z_scope.

(** ** Python run-time behaviour used by the scripts *)

Module Py.

(** The two exceptions the modelled code can meet. *)
Inductive exn : Set := TypeError | ZeroDivisionError.

Inductive result (A : Type) : Type :=
| Ok (a : A)
| Raise (e : exn).
Arguments Ok {A} a.
Arguments Raise {A} e.

#[global] Instance result_bind : MBind result := fun A B k r =>
  match r with
  | Ok a => k a
  | Raise e => Raise e
  end.

#[global] Instance result_fmap : FMap result := fun A B f r =>
  match r with
  | Ok a => Ok (f a)
  | Raise e => Raise e
  end.

(** A [for] loop whose body may raise: the first exception leaves the loop. *)
Fixpoint for_each {A S} (body : S -> A -> result S) (xs : list A) (s : S) : result S :=
  match xs with
  | [] => Ok s
  | x :: xs' => s' ← body s x; for_each body xs' s'
  end.

(** [int] to [float] conversion: round to nearest, ties to even. (Python
    raises [OverflowError] beyond the double range; no count of this
    database comes near it.) *)
Definition float_of_Z (z : Z) : float :=
  SF2Prim (binary_normalize prec emax z 0 false).

(** [a < b] and [a > b] where [a] may be [None]: ordering [None] against
    an [int] is a [TypeError] in Python 3. *)
Definition lt_int (a : option Z) (b : Z) : result bool :=
  match a with
  | Some a => Ok (a <? b)
  | None => Raise TypeError
  end.

Definition gt_int (a : option Z) (b : Z) : result bool :=
  match a with
  | Some a => Ok (a >? b)
  | None => Raise TypeError
  end.

(** [c1 or c2] evaluates [c2] only when [c1] is false. *)
Definition or_else (c1 : result bool) (c2 : result bool) : result bool :=
  b ← c1; if b : bool then Ok true else c2.

(** [d.get(key, dflt)] for a dictionary with integer keys; [None] is
    hashable and simply absent. *)
Definition dict_get (d : gmap Z float) (key : option Z) (dflt : float) : float :=
  match key with
  | Some k => default dflt (d !! k)
  | None => dflt
  end.

(** Built-in [min(a, b)] and [max(a, b)] on two arguments: the second
    replaces the first only when strictly smaller (larger). *)
Definition min2 (a b : float) : float := if (b <? a)%float then b else a.
Definition max2 (a b : float) : float := if (a <? b)%float then b else a.

(** [f"{v:.3f}"] and [int(v)] where [v] may be [None]: both are a
    [TypeError] on [None].  The text printed is not modelled. *)
Definition format_f {A} (v : option A) : result unit :=
  match v with
  | Some _ => Ok tt
  | None => Raise TypeError
  end.

Definition int_of {A} (v : option A) : result unit :=
  match v with
  | Some _ => Ok tt
  | None => Raise TypeError
  end.

(** True division [a / b] of a float by an [int]. *)
Definition truediv_int (a : float) (b : Z) : result float :=
  if b =? 0 then Raise ZeroDivisionError else Ok (a / float_of_Z b)%float.

End Py.

(** ** calculate_xg.py : the shot scorer *)

Module XG.
Import Py.

Definition calculate_distance_from_offensive_zone (y : Z) : Z :=
  let center_y := 147 in
  Z.abs (y - center_y).

(** Lines 36-41: the zone test and the base rate it selects. *)
Definition base_xg (y : option Z) : result float :=
  perimeter ← or_else (lt_int y 100) (gt_int y 200);
  Ok (if perimeter : bool then 0.04 else 0.12)%float.

Definition type_multipliers : gmap Z float :=
  <[1 := 1.40%float]> (<[2 := 1.00%float]> (<[3 := 1.19%float]>
  (<[4 := 1.25%float]> (<[5 := 1.25%float]> (<[6 := 1.82%float]> ∅))))).

Definition quality_multipliers : gmap Z float :=
  <[1 := 1.15%float]> (<[2 := 0.85%float]>
  (<[5 := 1.15%float]> (<[6 := 0.85%float]> ∅))).

Definition type_mult (shot_type : option Z) : float :=
  dict_get type_multipliers shot_type 1.0%float.

Definition quality_mult (quality : option Z) : float :=
  dict_get quality_multipliers quality 1.0%float.

Definition calculate_xg (shot_type quality x y is_goal : option Z) : result float :=
  base ← base_xg y;
  let xg := (base * type_mult shot_type * quality_mult quality)%float in
  Ok (min2 xg 0.25%float).

End XG.

(** ** The relational store

    Tables are lists of rows.  Only the columns read or written by the
    modelled passes are kept.  The ingestion scripts coerce every counting
    column to an [int], so these are [Z]; the shot scraper stores [None]
    for a missing location or goalie, so those are [option Z]. *)

Module Shots.
Record row : Type := mk {
  id : Z;
  season_id : Z;
  player_id : Z;
  goalie_id : option Z;
  team_id : Z;
  opponent_team_id : Z;
  x_location : option Z;
  y_location : option Z;
  shot_type : option Z;
  quality : option Z;
  is_goal : Z;
  xg : float
}.

Definition set_xg (v : float) (r : row) : row :=
  mk (id r) (season_id r) (player_id r) (goalie_id r) (team_id r)
     (opponent_team_id r) (x_location r) (y_location r) (shot_type r)
     (quality r) (is_goal r) v.

Definition set_is_goal (g : Z) (r : row) : row :=
  mk (id r) (season_id r) (player_id r) (goalie_id r) (team_id r)
     (opponent_team_id r) (x_location r) (y_location r) (shot_type r)
     (quality r) g (xg r).
End Shots.

Module SkaterStats.
Record row : Type := mk {
  player_id : Z;
  team_id : Z;
  season_id : Z;
  shots : Z;
  goals : Z;
  xg : float;
  goals_above_xg : float
}.

Definition set_xg (v gax : float) (r : row) : row :=
  mk (player_id r) (team_id r) (season_id r) (shots r) (goals r) v gax.

Definition key (r : row) : Z * Z * Z := (player_id r, team_id r, season_id r).
End SkaterStats.

Module Players.
Record row : Type := mk {
  player_id : Z;
  position : option string
}.
End Players.

Module GoalieStats.
Record row : Type := mk {
  player_id : Z;
  team_id : Z;
  season_id : Z;
  games_played : Z;
  shots_against : Z;
  goals_against : Z;
  save_percentage : float;
  gsax : float
}.

Definition set_gsax (v : float) (r : row) : row :=
  mk (player_id r) (team_id r) (season_id r) (games_played r)
     (shots_against r) (goals_against r) (save_percentage r) v.

Definition key (r : row) : Z * Z * Z := (player_id r, team_id r, season_id r).
End GoalieStats.

(** [add_columns] declares [corsi_pct REAL DEFAULT 50] and
    [pdo REAL DEFAULT 100]: a row no pass has written holds these values. *)
Module TeamStats.
Record row : Type := mk {
  team_id : Z;
  season_id : Z;
  goals_for : Z;
  goals_against : Z;
  corsi_for : Z;
  corsi_against : Z;
  corsi_pct : float;
  pdo : float
}.

Definition set_corsi (cf ca : Z) (pct : float) (r : row) : row :=
  mk (team_id r) (season_id r) (goals_for r) (goals_against r) cf ca pct (pdo r).

Definition set_pdo (v : float) (r : row) : row :=
  mk (team_id r) (season_id r) (goals_for r) (goals_against r)
     (corsi_for r) (corsi_against r) (corsi_pct r) v.

Definition key (r : row) : Z * Z := (team_id r, season_id r).
End TeamStats.

Module Sql.

(** [UPDATE t SET ... WHERE cond]: every row satisfying [cond] is
    rewritten in place, the others are kept; the table keeps its order. *)
Definition update {R} (cond : R -> bool) (set : R -> R) (t : list R) : list R :=
  map (fun r => if cond r then set r else r) t.

(** [executemany]: the statement is run once per parameter tuple, in order. *)
Definition executemany {R P} (stmt : P -> list R -> list R) (params : list P)
    (t : list R) : list R :=
  fold_left (fun t p => stmt p t) params t.

(** What a sequence of such statements does to one row. *)
Definition apply_updates {R P} (cond : P -> R -> bool) (set : P -> R -> R)
    (ps : list P) (r : R) : R :=
  fold_left (fun r p => if cond p r then set p r else r) ps r.

(** The last statement of a sequence whose WHERE clause selects the row. *)
Definition last_match {R P} (cond : P -> R -> bool) (ps : list P) (r : R)
    (acc : option P) : option P :=
  fold_left (fun acc p => if cond p r then Some p else acc) ps acc.

(** [COUNT(CASE WHEN c THEN 1 END)] and [COUNT( * )]. *)
Definition count {R} (c : R -> bool) (t : list R) : Z :=
  Z.of_nat (length (List.filter c t)).

(** [SUM] over an INTEGER column. *)
Definition sum_int (l : list Z) : Z := fold_left Z.add l 0.

(** [GROUP BY key]: one group per distinct key value, each holding the
    rows of the table with that key, in table order.  SQL fixes no order
    between the groups. *)
Definition group_by {R K} `{EqDecision K} (key : R -> K) (t : list R)
    : list (K * list R) :=
  map (fun k => (k, List.filter (fun r => bool_decide (key r = k)) t))
      (nodup (fun a b => decide (a = b)) (map key t)).

(** [AVG], [MAX] and [SUM] over a column are NULL when no row is selected.
    Where the value over some rows is only printed, the column it is
    computed from stands for it. *)
Definition aggregate {A} (column : list A) : option (list A) :=
  match column with
  | [] => None
  | _ :: _ => Some column
  end.

(** A left-to-right floating-point sum, one possible [SUM] over a REAL
    column. *)
Definition sum_left (l : list float) : float :=
  fold_left PrimFloat.add l 0%float.

End Sql.

(** ** calculate_xg.py : class xGCalculator *)

Module xGCalculator.
Import Py.

(** [calculate_shot_xg]: every shot is scored, the scores are written
    back by id and committed, and the distribution of the stored scores is
    printed (lines 122-129).  An exception leaves the method.  The
    scorer's comes before any row is written.  The display's comes after
    the commit, when the aggregates are NULL: that is on an empty table,
    which the batch has left empty.  So whenever the method raises, the
    stored table is the one it was given. *)
Definition calculate_shot_xg (shots : list Shots.row) : result (list Shots.row) :=
  updates ← for_each
    (fun updates shot =>
       xg ← XG.calculate_xg (Shots.shot_type shot) (Shots.quality shot)
              (Shots.x_location shot) (Shots.y_location shot)
              (Some (Shots.is_goal shot));
       Ok (updates ++ [(xg, Shots.id shot)]))
    shots [];
  let shots :=
    Sql.executemany
      (fun '(xg, shot_id) =>
         Sql.update (fun r => Shots.id r =? shot_id) (Shots.set_xg xg))
      updates shots in
  (* SELECT AVG(xg), MAX(xg), SUM(xg), SUM(is_goal) FROM shots *)
  let avg_xg := Sql.aggregate (map Shots.xg shots) in
  let max_xg := Sql.aggregate (map Shots.xg shots) in
  let total_xg := Sql.aggregate (map Shots.xg shots) in
  let total_goals := Sql.aggregate (map Shots.is_goal shots) in
  _ ← format_f avg_xg;
  _ ← format_f max_xg;
  _ ← format_f total_xg;
  _ ← int_of total_goals;
  _ ← int_of total_goals;
  _ ← format_f total_xg;
  Ok shots.

Section Aggregation.
(** The store's [SUM] over a REAL column. *)
Variable SUM : list float -> float.

Definition shot_key (s : Shots.row) : Z * Z * Z :=
  (Shots.player_id s, Shots.team_id s, Shots.season_id s).

(** The aggregate query of [aggregate_xg_by_player]:
    [player_id, team_id, season_id, SUM(xg), SUM(is_goal), COUNT( * )]
    grouped by [player_id, team_id, season_id]. *)
Definition player_xg (shots : list Shots.row)
    : list (Z * Z * Z * float * Z * Z) :=
  map (fun '((player_id, team_id, season_id), g) =>
         (player_id, team_id, season_id,
          SUM (map Shots.xg g),
          Sql.sum_int (map Shots.is_goal g),
          Z.of_nat (length g)))
      (Sql.group_by shot_key shots).

Definition update_skater (row : Z * Z * Z * float * Z * Z)
    (skater_stats : list SkaterStats.row) : list SkaterStats.row :=
  let '(player_id, team_id, season_id, total_xg, actual_goals, shots) := row in
  let goals_above_xg := (float_of_Z actual_goals - total_xg)%float in
  Sql.update
    (fun r => (SkaterStats.player_id r =? player_id)
              && (SkaterStats.team_id r =? team_id)
              && (SkaterStats.season_id r =? season_id))
    (SkaterStats.set_xg total_xg goals_above_xg)
    skater_stats.

Definition aggregate_xg_by_player (shots : list Shots.row)
    (skater_stats : list SkaterStats.row) : list SkaterStats.row :=
  (* Clear existing xG data *)
  let cleared :=
    Sql.update (fun _ => true) (SkaterStats.set_xg 0 0) skater_stats in
  (* Aggregate xG from shots, then update skater_stats row by row *)
  fold_left (fun t row => update_skater row t) (player_xg shots) cleared.
End Aggregation.

(** Auxiliary readings of one row of the aggregate query: its key, the
    WHERE clause and the SET clause of the UPDATE it parameterises. *)
Abbreviation agg_row := (Z * Z * Z * float * Z * Z)%type.

Definition agg_key (row : agg_row) : Z * Z * Z :=
  let '(player_id, team_id, season_id, _, _, _) := row in
  (player_id, team_id, season_id).

Definition agg_cond (row : agg_row) (r : SkaterStats.row) : bool :=
  let '(player_id, team_id, season_id, _, _, _) := row in
  (SkaterStats.player_id r =? player_id)
  && (SkaterStats.team_id r =? team_id)
  && (SkaterStats.season_id r =? season_id).

Definition agg_set (row : agg_row) (r : SkaterStats.row) : SkaterStats.row :=
  let '(_, _, _, total_xg, actual_goals, _) := row in
  SkaterStats.set_xg total_xg (float_of_Z actual_goals - total_xg)%float r.

(** The WHERE and SET clauses of [UPDATE shots SET xg = ? WHERE id = ?]. *)
Definition score_cond (p : float * Z) (r : Shots.row) : bool :=
  let '(_, shot_id) := p in Shots.id r =? shot_id.

Definition score_set (p : float * Z) (r : Shots.row) : Shots.row :=
  let '(xg, _) := p in Shots.set_xg xg r.

(** The shots of one (player, team, season). *)
Definition shots_of (k : Z * Z * Z) (shots : list Shots.row) : list Shots.row :=
  List.filter (fun s => bool_decide (shot_key s = k)) shots.

(** [SET xg = 0, goals_above_xg = 0]. *)
Definition clear_xg : SkaterStats.row -> SkaterStats.row :=
  SkaterStats.set_xg 0 0.
End xGCalculator.

(** ** estimate_xg_season8.py : class xGEstimator *)

Module xGEstimator.
Import Py.

Record position_rate : Type := mk_position_rate {
  pr_shots : Z;
  pr_goals : Z;
  shooting_pct : float
}.

(** The two dictionaries filled by [load_historical_rates]; positions
    are keyed as the store returns them, [None] for a NULL position. *)
Record t : Type := mk {
  position_rates : gmap (option string) position_rate;
  volume_rates : gmap string float
}.

Definition default_rate : float := 0.10%float.

Definition volume_bucket (shots : Z) : string :=
  if shots <? 20 then "low"
  else if shots <? 50 then "medium"
  else if shots <? 80 then "high"
  else "very_high".

Definition regression_factor (shots : Z) : float :=
  if shots <? 20 then 0.8%float
  else if shots <? 50 then 0.6%float
  else 0.4%float.

(** The method returns the float [0.0], or [max(0, estimated_xg)], whose
    [int] zero is stored as the same REAL zero.  ([actual_rate] is computed
    by the source and never used; its division is guarded by [shots > 0].) *)
Definition estimate_xg_for_player (self : t) (shots goals : Z)
    (position : option string) : float :=
  if shots =? 0 then 0.0%float
  else
    let position_rate :=
      match position_rates self !! position with
      | Some d => shooting_pct d
      | None => default_rate
      end in
    let bucket := volume_bucket shots in
    let volume_rate := default default_rate (volume_rates self !! bucket) in
    let expected_rate := (position_rate * 0.6 + volume_rate * 0.4)%float in
    let base_xg := (float_of_Z shots * expected_rate)%float in
    let regression := regression_factor shots in
    let estimated_xg :=
      (base_xg * regression + float_of_Z goals * (1 - regression))%float in
    max2 0%float estimated_xg.

(** [skater_stats s JOIN players p ON s.player_id = p.player_id
     WHERE s.season_id = 8 AND s.shots > 0]. *)
Definition season_8_players (players : list Players.row)
    (skater_stats : list SkaterStats.row)
    : list (Z * Z * Z * Z * Z * option string) :=
  flat_map
    (fun s =>
       if (SkaterStats.season_id s =? 8) && (SkaterStats.shots s >? 0) then
         map (fun p => (SkaterStats.player_id s, SkaterStats.team_id s,
                        SkaterStats.season_id s, SkaterStats.shots s,
                        SkaterStats.goals s, Players.position p))
             (List.filter
                (fun p => SkaterStats.player_id s =? Players.player_id p)
                players)
       else [])
    skater_stats.

Definition estimate_season_8_xg (self : t) (players : list Players.row)
    (skater_stats : list SkaterStats.row) : list SkaterStats.row :=
  let updates :=
    map (fun '(player_id, team_id, season_id, shots, goals, position) =>
           let xg := estimate_xg_for_player self shots goals position in
           let goals_above_xg := (float_of_Z goals - xg)%float in
           (xg, goals_above_xg, player_id, team_id, season_id))
        (season_8_players players skater_stats) in
  Sql.executemany
    (fun '(xg, goals_above_xg, player_id, team_id, season_id) =>
       Sql.update
         (fun r => (SkaterStats.player_id r =? player_id)
                   && (SkaterStats.team_id r =? team_id)
                   && (SkaterStats.season_id r =? season_id))
         (SkaterStats.set_xg xg goals_above_xg))
    updates skater_stats.
End xGEstimator.

(** ** calculate_gsax.py : class GSAxCalculator *)

Module GSAxCalculator.
Import Py.

Section Passes.
(** The store's [SUM] over a REAL column. *)
Variable SUM : list float -> float.

(** [AVG] over a REAL column: NULL on no row, else the sum over the count. *)
Definition AVG (l : list float) : option float :=
  match l with
  | [] => None
  | _ => Some (SUM l / float_of_Z (Z.of_nat (length l)))%float
  end.

(** [WHERE goalie_id IS NOT NULL AND season_id = ?]. *)
Definition faced_in_season (season_id : Z) (s : Shots.row) : bool :=
  match Shots.goalie_id s with
  | Some _ => Shots.season_id s =? season_id
  | None => false
  end.

Definition goalie_key (s : Shots.row) : option Z * Z :=
  (Shots.goalie_id s, Shots.opponent_team_id s).

(** The aggregate query of [calculate_gsax_from_shots].  Its bare
    [season_id] column is the same in every selected row, namely the
    query parameter. *)
Definition goalie_data (season_id : Z) (shots : list Shots.row)
    : list (option Z * Z * Z * float * Z * Z) :=
  map (fun '((goalie_id, opponent_team_id), g) =>
         (goalie_id, opponent_team_id, season_id,
          SUM (map Shots.xg g),
          Sql.sum_int (map Shots.is_goal g),
          Z.of_nat (length g)))
      (Sql.group_by goalie_key
         (List.filter (faced_in_season season_id) shots)).

(** [UPDATE goalie_stats SET gsax = ? WHERE player_id = ? AND team_id = ?
     AND season_id = ?]; a NULL parameter matches no row. *)
Definition update_gsax (p : float * option Z * Z * Z)
    (goalie_stats : list GoalieStats.row) : list GoalieStats.row :=
  let '(gsax, goalie_id, team_id, season_id) := p in
  Sql.update
    (fun r => match goalie_id with
              | Some g => GoalieStats.player_id r =? g
              | None => false
              end
              && (GoalieStats.team_id r =? team_id)
              && (GoalieStats.season_id r =? season_id))
    (GoalieStats.set_gsax gsax)
    goalie_stats.

(** The [updates] list built by the loop of [calculate_gsax_from_shots]. *)
Definition shot_updates (season_id : Z) (shots : list Shots.row)
    : list (float * option Z * Z * Z) :=
  map (fun '(goalie_id, team_id, season_id, xg_against, goals_against, shots) =>
         let gsax := (xg_against - float_of_Z goals_against)%float in
         (gsax, goalie_id, team_id, season_id))
      (goalie_data season_id shots).

Definition calculate_gsax_from_shots (season_id : Z) (shots : list Shots.row)
    (goalie_stats : list GoalieStats.row) : list GoalieStats.row :=
  Sql.executemany update_gsax (shot_updates season_id shots) goalie_stats.

(** [WHERE season_id IN (1, 5) AND games_played >= 5]. *)
Definition qualifies (r : GoalieStats.row) : bool :=
  ((GoalieStats.season_id r =? 1) || (GoalieStats.season_id r =? 5))
  && (GoalieStats.games_played r >=? 5).

(** [fetchone()[0] or 0.91]: a NULL or zero average gives way to 0.91. *)
Definition league_avg_sv_pct (goalie_stats : list GoalieStats.row) : float :=
  match AVG (map GoalieStats.save_percentage
                 (List.filter qualifies goalie_stats)) with
  | Some v => if (v =? 0)%float then 0.91%float else v
  | None => 0.91%float
  end.

(** The [updates] list built by the loop of [estimate_gsax_for_season_8]. *)
Definition season_8_updates (goalie_stats : list GoalieStats.row)
    : list (float * option Z * Z * Z) :=
  let league_avg_sv_pct := league_avg_sv_pct goalie_stats in
  let goalies :=
    List.filter
      (fun r => (GoalieStats.season_id r =? 8)
                && (GoalieStats.shots_against r >? 0))
      goalie_stats in
  flat_map
    (fun r =>
       let shots := GoalieStats.shots_against r in
       let goals := GoalieStats.goals_against r in
       if shots =? 0 then []
       else
         let expected_sv := league_avg_sv_pct in
         let expected_goals := (float_of_Z shots * (1 - expected_sv))%float in
         let gsax := (expected_goals - float_of_Z goals)%float in
         [(gsax, Some (GoalieStats.player_id r), GoalieStats.team_id r,
           GoalieStats.season_id r)])
    goalies.

Definition estimate_gsax_for_season_8 (goalie_stats : list GoalieStats.row)
    : list GoalieStats.row :=
  Sql.executemany update_gsax (season_8_updates goalie_stats) goalie_stats.

(** [run]: shot-based GSAx for seasons 1 and 5, then the estimate. *)
Definition run (shots : list Shots.row) (goalie_stats : list GoalieStats.row)
    : list GoalieStats.row :=
  estimate_gsax_for_season_8
    (calculate_gsax_from_shots 5 shots
       (calculate_gsax_from_shots 1 shots goalie_stats)).
End Passes.

(** Auxiliary readings of one [updates] tuple: its key, the WHERE clause
    and the SET clause of the UPDATE it parameterises; and the key of a
    goalie row as those tuples spell it. *)
Abbreviation update_row := (float * option Z * Z * Z)%type.

Definition update_key (p : update_row) : option Z * Z * Z :=
  let '(_, goalie_id, team_id, season_id) := p in (goalie_id, team_id, season_id).

Definition gsax_cond (p : update_row) (r : GoalieStats.row) : bool :=
  let '(_, goalie_id, team_id, season_id) := p in
  match goalie_id with
  | Some g => GoalieStats.player_id r =? g
  | None => false
  end
  && (GoalieStats.team_id r =? team_id)
  && (GoalieStats.season_id r =? season_id).

Definition gsax_set (p : update_row) (r : GoalieStats.row) : GoalieStats.row :=
  let '(gsax, _, _, _) := p in GoalieStats.set_gsax gsax r.

Definition row_key (r : GoalieStats.row) : option Z * Z * Z :=
  (Some (GoalieStats.player_id r), GoalieStats.team_id r, GoalieStats.season_id r).

(** The shots a goalie faced for a team in a season. *)
Definition shots_faced (goalie team season : Z) (shots : list Shots.row)
    : list Shots.row :=
  List.filter
    (fun s => bool_decide (Shots.goalie_id s = Some goalie)
              && (Shots.opponent_team_id s =? team)
              && (Shots.season_id s =? season))
    shots.

(** A goalie row with the derived column blanked: the stored base facts. *)
Definition base_facts (r : GoalieStats.row) : GoalieStats.row :=
  GoalieStats.set_gsax 0 r.
End GSAxCalculator.

(** ** calculate_advanced_stats.py : team Corsi and PDO *)

Module AdvancedStatsCalculator.
Import Py.

(** All team IDs including expansion. *)
Definition teams : list Z := [1; 2; 3; 4; 5; 6; 8; 9].

(** [COUNT(CASE WHEN team_id = ? THEN 1 END)] and
    [COUNT(CASE WHEN opponent_team_id = ? THEN 1 END)]
    over [shots WHERE season_id = ?]. *)
Definition shots_for (team_id season_id : Z) (shots : list Shots.row) : Z :=
  Sql.count (fun s => Shots.team_id s =? team_id)
    (List.filter (fun s => Shots.season_id s =? season_id) shots).

Definition shots_against (team_id season_id : Z) (shots : list Shots.row) : Z :=
  Sql.count (fun s => Shots.opponent_team_id s =? team_id)
    (List.filter (fun s => Shots.season_id s =? season_id) shots).

(** Line 147. *)
Definition corsi_pct_of (corsi_for corsi_against : Z) : result float :=
  if corsi_for + corsi_against >? 0
  then truediv_int (100.0 * float_of_Z corsi_for)%float (corsi_for + corsi_against)
  else Ok 50%float.

Definition same_team_season (team_id season_id : Z) (r : TeamStats.row) : bool :=
  (TeamStats.team_id r =? team_id) && (TeamStats.season_id r =? season_id).

Definition calculate_team_corsi_fenwick (season_id : Z) (shots : list Shots.row)
    (team_stats : list TeamStats.row) : result (list TeamStats.row) :=
  for_each
    (fun team_stats team_id =>
       let corsi_for := shots_for team_id season_id shots in
       let corsi_against := shots_against team_id season_id shots in
       corsi_pct ← corsi_pct_of corsi_for corsi_against;
       Ok (Sql.update (same_team_season team_id season_id)
             (TeamStats.set_corsi corsi_for corsi_against corsi_pct)
             team_stats))
    teams team_stats.

(** Lines 337-341, reached only under the guard of line 333. *)
Definition pdo_of (gf ga sf sa : Z) : result float :=
  shooting_pct ← (if sf >? 0
                  then truediv_int (100.0 * float_of_Z gf)%float sf
                  else Ok 0%float);
  save_pct ← (if sa >? 0
              then truediv_int (100.0 * float_of_Z (sa - ga))%float sa
              else Ok 91.6%float);
  Ok (shooting_pct + save_pct)%float.

Definition calculate_team_pdo (season_id : Z) (shots : list Shots.row)
    (team_stats : list TeamStats.row) : result (list TeamStats.row) :=
  for_each
    (fun team_stats row =>
       let team_id := TeamStats.team_id row in
       let gf := TeamStats.goals_for row in
       let ga := TeamStats.goals_against row in
       let sf := shots_for team_id season_id shots in
       let sa := shots_against team_id season_id shots in
       (* if shot_row and shot_row[0] and shot_row[1] *)
       if negb (sf =? 0) && negb (sa =? 0) then
         pdo ← pdo_of gf ga sf sa;
         Ok (Sql.update (same_team_season team_id season_id)
               (TeamStats.set_pdo pdo) team_stats)
       else Ok team_stats)
    (List.filter (fun r => TeamStats.season_id r =? season_id) team_stats)
    team_stats.

(** Auxiliary names for the statements below: the guard of line 333,
    and the values the two passes compute for a team. *)
Definition has_both_shot_counts (team_id season_id : Z) (shots : list Shots.row)
    : bool :=
  negb (shots_for team_id season_id shots =? 0)
  && negb (shots_against team_id season_id shots =? 0).

Definition corsi_set (season_id : Z) (shots : list Shots.row) (team_id : Z)
    (r : TeamStats.row) : TeamStats.row :=
  let cf := shots_for team_id season_id shots in
  let ca := shots_against team_id season_id shots in
  TeamStats.set_corsi cf ca
    (if cf + ca >? 0
     then (100.0 * float_of_Z cf / float_of_Z (cf + ca))%float
     else 50%float) r.

Definition pdo_value (gf ga sf sa : Z) : float :=
  ((if sf >? 0 then 100.0 * float_of_Z gf / float_of_Z sf else 0)
   + (if sa >? 0 then 100.0 * float_of_Z (sa - ga) / float_of_Z sa else 91.6))%float.

Definition pdo_set (season_id : Z) (shots : list Shots.row) (row r : TeamStats.row)
    : TeamStats.row :=
  TeamStats.set_pdo
    (pdo_value (TeamStats.goals_for row) (TeamStats.goals_against row)
       (shots_for (TeamStats.team_id row) season_id shots)
       (shots_against (TeamStats.team_id row) season_id shots)) r.
End AdvancedStatsCalculator.

(** ** Statements taken from the specification's wording

    These definitions follow the prose of the specification and are
    compared below with the definitions translated from the code. *)

Module Spec.
Import Py.

(** "bucketed into four tiers (< 20 shots, 20-49, 50-79, >= 80 shots)". *)
Definition volume_tier (shots : Z) : string :=
  if shots <? 20 then "low"
  else if (20 <=? shots) && (shots <=? 49) then "medium"
  else if (50 <=? shots) && (shots <=? 79) then "high"
  else "very_high".

(** "0.8 at < 20 shots, 0.6 at 20-49, 0.4 at >= 50". *)
Definition regression (shots : Z) : float :=
  if shots <? 20 then 0.8%float
  else if (20 <=? shots) && (shots <=? 49) then 0.6%float
  else 0.4%float.

(** "max(0, shots x (0.6 x position_rate + 0.4 x volume_rate) x r
     + goals x (1 - r))". *)
Definition blended_estimate (position_rate volume_rate : float)
    (shots goals : Z) : float :=
  let r := regression shots in
  max2 0%float
    (float_of_Z shots * (0.6 * position_rate + 0.4 * volume_rate) * r
     + float_of_Z goals * (1 - r))%float.

(** "position_rate": the historical shooting percentage of the player's
    position, and "volume_rate": the historical conversion rate of the
    player's tier, each with the 10% default when the table has no entry. *)
Definition position_rate_of (self : xGEstimator.t) (position : option string)
    : float :=
  match xGEstimator.position_rates self !! position with
  | Some d => xGEstimator.shooting_pct d
  | None => xGEstimator.default_rate
  end.

Definition volume_rate_of (self : xGEstimator.t) (shots : Z) : float :=
  default xGEstimator.default_rate
    (xGEstimator.volume_rates self !! volume_tier shots).


(** "high-danger zone (... the raw y-coordinate in (100, 200)) -> base
    rate 0.12, or a low-danger/perimeter zone (y <= 100 or y >= 200) ->
    base rate 0.04". *)
Definition zone_base_rate (y : Z) : float :=
  if (y <=? 100) || (y >=? 200) then 0.04%float else 0.12%float.
End Spec.

(** ** Sample data used to exercise the passes *)

Module Sample.
(** Historical rates: defenders 5%, forwards 11%; tiers 7%, 8%, 10%, 12%. *)
Definition estimator : xGEstimator.t :=
  xGEstimator.mk
    (<[Some "D" := xGEstimator.mk_position_rate 900 45 0.05%float]>
       (<[Some "F" := xGEstimator.mk_position_rate 2000 220 0.11%float]> ∅))
    (<["low" := 0.07%float]> (<["medium" := 0.08%float]>
       (<["high" := 0.10%float]> (<["very_high" := 0.12%float]> ∅)))).

(** Player 10 shot for team 1 and, after a trade, for team 3 in season 5;
    player 11's goal went into an empty net (no goalie). *)
Definition shots : list Shots.row :=
  [ Shots.mk 1 5 10 (Some 30) 1 2 (Some 300) (Some 150) (Some 2) (Some 2) 0
      0.102%float;
    Shots.mk 2 5 10 (Some 30) 1 2 (Some 310) (Some 150) (Some 6) (Some 5) 1
      0.25%float;
    Shots.mk 3 5 10 (Some 31) 3 1 (Some 120) (Some 90) (Some 2) None 0
      0.04%float;
    Shots.mk 4 5 11 None 2 1 (Some 200) (Some 180) (Some 7) (Some 1) 1
      (0.12 * 1.0 * 1.15)%float ].

(** Player 12 only has counting stats, in the season without shots. *)
Definition skater_stats : list SkaterStats.row :=
  [ SkaterStats.mk 10 1 5 2 1 0%float 0%float;
    SkaterStats.mk 10 3 5 1 0 0%float 0%float;
    SkaterStats.mk 11 2 5 1 1 0%float 0%float;
    SkaterStats.mk 12 1 8 30 5 0%float 0%float ].

Definition players : list Players.row :=
  [ Players.mk 10 (Some "F"); Players.mk 11 (Some "F"); Players.mk 12 (Some "D") ].

Definition goalie_stats : list GoalieStats.row :=
  [ GoalieStats.mk 30 2 5 10 250 20 0.92%float 0%float;
    GoalieStats.mk 31 1 5 6 150 15 0.90%float 0%float;
    GoalieStats.mk 33 3 5 2 40 8 0.80%float 0%float;
    GoalieStats.mk 32 1 8 4 100 9 0.91%float 0%float ].

(** Team 1 in season 5, and team 2 in season 8 where no shot is recorded
    and an earlier pass had stored a PDO of 101.5. *)
Definition team_stats : list TeamStats.row :=
  [ TeamStats.mk 1 5 2 1 0 0 50%float 100%float;
    TeamStats.mk 2 8 40 35 0 0 50%float 101.5%float ].
End Sample.

(** ** calculate_xg.py : the script as a whole *)

Module xGRun.
Import Py.

(** The call of line 113 for one row of the shots table. *)
Definition shot_score (s : Shots.row) : result float :=
  XG.calculate_xg (Shots.shot_type s) (Shots.quality s)
    (Shots.x_location s) (Shots.y_location s) (Some (Shots.is_goal s)).

(** Its value when it returns. *)
Definition score_value (s : Shots.row) : float :=
  match shot_score s with
  | Ok v => v
  | Raise _ => 0%float
  end.

Definition scored (s : Shots.row) : Shots.row :=
  Shots.set_xg (score_value s) s.

(** [run] as a transformer of the stored tables: the shots and the skater
    table that are in the store when the script ends, normally or with
    an exception.  [add_xg_column] only declares columns.  When
    [calculate_shot_xg] raises, the shots table is as it was and
    [aggregate_xg_by_player] is never reached, so the skater table is not
    even cleared.  The leader boards of lines 247-249 come after the last
    commit and write nothing: whether they raise makes no difference to
    what is stored, and is not modelled. *)
Definition run (SUM : list float -> float) (shots : list Shots.row)
    (skater_stats : list SkaterStats.row)
    : list Shots.row * list SkaterStats.row :=
  match xGCalculator.calculate_shot_xg shots with
  | Ok shots' =>
      (shots', xGCalculator.aggregate_xg_by_player SUM shots' skater_stats)
  | Raise _ => (shots, skater_stats)
  end.
End xGRun.

(** ** estimate_xg_season8.py : the statements of [estimate_season_8_xg] *)

Module xGEstimatorRows.
Import Py.

(** Auxiliary readings of one [updates] tuple of [estimate_season_8_xg]. *)
Abbreviation est_row := (float * float * Z * Z * Z)%type.

Definition est_key (p : est_row) : Z * Z * Z :=
  let '(_, _, player_id, team_id, season_id) := p in (player_id, team_id, season_id).

Definition est_cond (p : est_row) (r : SkaterStats.row) : bool :=
  let '(_, _, player_id, team_id, season_id) := p in
  (SkaterStats.player_id r =? player_id)
  && (SkaterStats.team_id r =? team_id)
  && (SkaterStats.season_id r =? season_id).

Definition est_set (p : est_row) (r : SkaterStats.row) : SkaterStats.row :=
  let '(xg, goals_above_xg, _, _, _) := p in SkaterStats.set_xg xg goals_above_xg r.

(** [WHERE s.season_id = 8 AND s.shots > 0]. *)
Definition eligible (r : SkaterStats.row) : bool :=
  (SkaterStats.season_id r =? 8) && (SkaterStats.shots r >? 0).

(** The players rows the join pairs with a skater row. *)
Definition on_file (players : list Players.row) (r : SkaterStats.row)
    : list Players.row :=
  List.filter (fun p => SkaterStats.player_id r =? Players.player_id p) players.

(** The tuple built for one joined row. *)
Definition est_update (self : xGEstimator.t) (r : SkaterStats.row) (p : Players.row)
    : est_row :=
  let xg := xGEstimator.estimate_xg_for_player self (SkaterStats.shots r)
              (SkaterStats.goals r) (Players.position p) in
  (xg, (float_of_Z (SkaterStats.goals r) - xg)%float,
   SkaterStats.player_id r, SkaterStats.team_id r, SkaterStats.season_id r).

(** A skater row after the estimate, when its player is on file once. *)
Definition estimated (self : xGEstimator.t) (players : list Players.row)
    (r : SkaterStats.row) : SkaterStats.row :=
  match on_file players r with
  | p :: _ => est_set (est_update self r p) r
  | [] => r
  end.
End xGEstimatorRows.

(** ** estimate_xg_season8.py : [load_historical_rates] *)

Module HistoricalRates.
Import Py.

Section Load.
(** The store's [SUM] over a REAL column. *)
Variable SUM : list float -> float.

(** [WHERE s.season_id IN (1, 5) AND s.shots > 0]. *)
Definition historical (s : SkaterStats.row) : bool :=
  ((SkaterStats.season_id s =? 1) || (SkaterStats.season_id s =? 5))
  && (SkaterStats.shots s >? 0).

(** [1.0 * goals / NULLIF(shots, 0)]: NULL when shots is 0. *)
Definition conversion (s : SkaterStats.row) : option float :=
  if SkaterStats.shots s =? 0 then None
  else Some (1.0 * float_of_Z (SkaterStats.goals s)
             / float_of_Z (SkaterStats.shots s))%float.

(** [AVG] skips the NULLs. *)
Definition avg_conversion (g : list SkaterStats.row) : option float :=
  GSAxCalculator.AVG SUM (omap conversion g).

(** [skater_stats s JOIN players p ON s.player_id = p.player_id] under the
    WHERE clause above. *)
Definition joined (players : list Players.row) (skater_stats : list SkaterStats.row)
    : list (SkaterStats.row * Players.row) :=
  flat_map
    (fun s =>
       if historical s then
         map (fun p => (s, p))
             (List.filter (fun p => SkaterStats.player_id s =? Players.player_id p)
                players)
       else [])
    skater_stats.

(** The first query: [p.position, SUM(s.shots), SUM(s.goals), AVG(...)]
    grouped by [p.position]. *)
Definition position_query (players : list Players.row)
    (skater_stats : list SkaterStats.row)
    : list (option string * Z * Z * option float) :=
  map (fun '(position, g) =>
         (position,
          Sql.sum_int (map (fun sp => SkaterStats.shots (fst sp)) g),
          Sql.sum_int (map (fun sp => SkaterStats.goals (fst sp)) g),
          avg_conversion (map fst g)))
      (Sql.group_by (fun sp => Players.position (snd sp))
         (joined players skater_stats)).

(** The CASE expression of the second query. *)
Definition volume_bucket_case (shots : Z) : string :=
  if shots <? 20 then "low"
  else if shots <? 50 then "medium"
  else if shots <? 80 then "high"
  else "very_high".

(** The second query: [volume_bucket, AVG(...)] grouped by [volume_bucket]. *)
Definition volume_query (skater_stats : list SkaterStats.row)
    : list (string * option float) :=
  map (fun '(bucket, g) => (bucket, avg_conversion g))
      (Sql.group_by (fun s => volume_bucket_case (SkaterStats.shots s))
         (List.filter historical skater_stats)).

(** [v if v else dflt]: [None] and zero are falsy. *)
Definition truthy_or (v : option float) (dflt : float) : float :=
  match v with
  | Some x => if (x =? 0)%float then dflt else x
  | None => dflt
  end.

(** [f"{v:.3f}"] is a [TypeError] on [None]. *)
Definition format_3f (v : option float) : result unit :=
  match v with
  | Some _ => Ok tt
  | None => Raise TypeError
  end.

Definition load_historical_rates (players : list Players.row)
    (skater_stats : list SkaterStats.row) : result xGEstimator.t :=
  position_rates ← for_each
    (fun (position_rates : gmap (option string) xGEstimator.position_rate) row =>
       let '(position, shots, goals, avg_pct) := row in
       let position_rates :=
         <[position := xGEstimator.mk_position_rate shots goals
                         (truthy_or avg_pct 0.10%float)]> position_rates in
       _ ← format_3f avg_pct;
       Ok position_rates)
    (position_query players skater_stats) ∅;
  volume_rates ← for_each
    (fun (volume_rates : gmap string float) row =>
       let '(bucket, rate) := row in
       let volume_rates :=
         <[bucket := truthy_or rate xGEstimator.default_rate]> volume_rates in
       _ ← format_3f rate;
       Ok volume_rates)
    (volume_query skater_stats) ∅;
  Ok (xGEstimator.mk position_rates volume_rates).
End Load.
End HistoricalRates.

(** ** calculate_gsax.py : the passes, row by row *)

Module GSAxRows.
Import Py.

Section Rows.
Variable SUM : list float -> float.

(** What the shot-based pass of a season does to one goalie row. *)
Definition from_shots (season : Z) (shots : list Shots.row) (r : GoalieStats.row)
    : GoalieStats.row :=
  match GSAxCalculator.shots_faced (GoalieStats.player_id r)
          (GoalieStats.team_id r) season shots with
  | [] => r
  | faced =>
      if GoalieStats.season_id r =? season
      then GoalieStats.set_gsax
             (SUM (map Shots.xg faced)
              - float_of_Z (Sql.sum_int (map Shots.is_goal faced)))%float r
      else r
  end.

(** What the season-8 estimate does to one goalie row of the table
    [goalie_stats]. *)
Definition estimate (goalie_stats : list GoalieStats.row) (r : GoalieStats.row)
    : GoalieStats.row :=
  if (GoalieStats.season_id r =? 8) && (GoalieStats.shots_against r >? 0)
  then GoalieStats.set_gsax
         (float_of_Z (GoalieStats.shots_against r)
          * (1 - GSAxCalculator.league_avg_sv_pct SUM goalie_stats)
          - float_of_Z (GoalieStats.goals_against r))%float r
  else r.
End Rows.
End GSAxRows.

(** ** calculate_gsax.py : what [run] leaves on one goalie row *)

Module GSAxFinal.
Import Py.

Definition final (SUM : list float -> float) (shots : list Shots.row)
    (goalie_stats : list GoalieStats.row) (r : GoalieStats.row) : GoalieStats.row :=
  if (GoalieStats.season_id r =? 8) && (GoalieStats.shots_against r >? 0)
  then GSAxRows.estimate SUM goalie_stats r
  else if (GoalieStats.season_id r =? 1) || (GoalieStats.season_id r =? 5)
  then GSAxRows.from_shots SUM (GoalieStats.season_id r) shots r
  else r.
End GSAxFinal.

(** ** calculate_advanced_stats.py : the team passes, row by row *)

Module TeamRows.
Import Py.

(** [team_id in teams], for the list the Corsi pass iterates over. *)
Definition in_teams (team_id : Z) : bool :=
  existsb (Z.eqb team_id) AdvancedStatsCalculator.teams.

(** What the Corsi pass of a season does to one team row. *)
Definition corsi (season : Z) (shots : list Shots.row) (r : TeamStats.row)
    : TeamStats.row :=
  if (TeamStats.season_id r =? season) && in_teams (TeamStats.team_id r)
  then AdvancedStatsCalculator.corsi_set season shots (TeamStats.team_id r) r
  else r.


(** What the PDO pass of a season does to one team row, when the row is
    the only one of its team and season. *)
Definition pdo (season : Z) (shots : list Shots.row) (r : TeamStats.row)
    : TeamStats.row :=
  if (TeamStats.season_id r =? season)
     && AdvancedStatsCalculator.has_both_shot_counts (TeamStats.team_id r) season shots
  then AdvancedStatsCalculator.pdo_set season shots r r
  else r.
End TeamRows.

(** ** calculate_advanced_stats.py : [calculate_faceoff_stats] *)

(** The columns of [faceoffs] the pass reads.  The scraper that fills the
    table (scrape_pwhl.py, lines 717-737) names neither [home_team_id]
    nor [away_team_id] in its INSERT, so the rows it writes hold NULL in
    both; [home_win] is written as 0 or 1. *)
Module Faceoffs.
Record row : Type := mk {
  season_id : Z;
  home_player_id : option Z;
  away_player_id : option Z;
  home_team_id : option Z;
  away_team_id : option Z;
  home_win : Z
}.
End Faceoffs.

Module FaceoffStats.
Import Py.

(** One row of the UNION ALL query: [player_id, team_id, total, wins]. *)
Abbreviation query_row := (option Z * option Z * Z * Z)%type.

(** First branch: [WHERE f.season_id = ? AND f.home_player_id IS NOT NULL
    GROUP BY f.home_player_id, f.home_team_id], with [COUNT( * )] and
    [SUM(f.home_win)]. *)
Definition home_rows (season_id : Z) (faceoffs : list Faceoffs.row) : list query_row :=
  map (fun '((player_id, team_id), g) =>
         (player_id, team_id, Z.of_nat (length g),
          Sql.sum_int (map Faceoffs.home_win g)))
      (Sql.group_by (fun f => (Faceoffs.home_player_id f, Faceoffs.home_team_id f))
         (List.filter
            (fun f => (Faceoffs.season_id f =? season_id)
                      && bool_decide (Faceoffs.home_player_id f <> None))
            faceoffs)).

(** Second branch, for the away player, with
    [SUM(CASE WHEN f.home_win = 0 THEN 1 ELSE 0 END)]. *)
Definition away_rows (season_id : Z) (faceoffs : list Faceoffs.row) : list query_row :=
  map (fun '((player_id, team_id), g) =>
         (player_id, team_id, Z.of_nat (length g),
          Sql.sum_int (map (fun f => if Faceoffs.home_win f =? 0 then 1 else 0) g)))
      (Sql.group_by (fun f => (Faceoffs.away_player_id f, Faceoffs.away_team_id f))
         (List.filter
            (fun f => (Faceoffs.season_id f =? season_id)
                      && bool_decide (Faceoffs.away_player_id f <> None))
            faceoffs)).

(** The body of the loop that fills [player_faceoffs]: add to the entry of
    the key, or create it.  A key is a tuple of what the store returned,
    [None] for NULL; GROUP BY puts the NULL team ids into one group. *)
Definition accumulate (player_faceoffs : gmap (option Z * option Z) (Z * Z))
    (row : query_row) : gmap (option Z * option Z) (Z * Z) :=
  let '(player_id, team_id, total, wins) := row in
  let key := (player_id, team_id) in
  match player_faceoffs !! key with
  | Some (total0, wins0) => <[key := (total0 + total, wins0 + wins)]> player_faceoffs
  | None => <[key := (total, wins)]> player_faceoffs
  end.

Definition player_faceoffs (season_id : Z) (faceoffs : list Faceoffs.row)
    : gmap (option Z * option Z) (Z * Z) :=
  fold_left accumulate (home_rows season_id faceoffs ++ away_rows season_id faceoffs) ∅.

(** Line 202: [100.0 * wins / total if total > 0 else 50]. *)
Definition faceoff_pct (total wins : Z) : result float :=
  if total >? 0 then truediv_int (100.0 * float_of_Z wins)%float total
  else Ok 50%float.

(** The faceoffs of a season a player took as the home and as the away
    player, with a given content of the team column ([None] for NULL). *)
Definition home_of (season player : Z) (team : option Z)
    (faceoffs : list Faceoffs.row) : list Faceoffs.row :=
  List.filter
    (fun f => (Faceoffs.season_id f =? season)
              && bool_decide (Faceoffs.home_player_id f = Some player)
              && bool_decide (Faceoffs.home_team_id f = team))
    faceoffs.

Definition away_of (season player : Z) (team : option Z)
    (faceoffs : list Faceoffs.row) : list Faceoffs.row :=
  List.filter
    (fun f => (Faceoffs.season_id f =? season)
              && bool_decide (Faceoffs.away_player_id f = Some player)
              && bool_decide (Faceoffs.away_team_id f = team))
    faceoffs.

Definition row_key (row : query_row) : option Z * option Z :=
  let '(player_id, team_id, _, _) := row in (player_id, team_id).

Definition row_total (row : query_row) : Z :=
  let '(_, _, total, _) := row in total.

Definition row_wins (row : query_row) : Z :=
  let '(_, _, _, wins) := row in wins.

(** What one query row does to the entry of its own key. *)
Definition add_row (entry : option (Z * Z)) (row : query_row) : option (Z * Z) :=
  Some match entry with
       | Some (total0, wins0) => (total0 + row_total row, wins0 + row_wins row)
       | None => (row_total row, row_wins row)
       end.

(** A sample as the scraper leaves the table, without team ids: player 20
    wins one of two draws at home and one of two away; player 21 is the
    opponent in three of them. *)
Definition sample : list Faceoffs.row :=
  [ Faceoffs.mk 5 (Some 20) (Some 21) None None 1;
    Faceoffs.mk 5 (Some 20) (Some 21) None None 0;
    Faceoffs.mk 5 (Some 21) (Some 20) None None 0;
    Faceoffs.mk 5 None (Some 20) None None 1 ].
End FaceoffStats.

(** ** calculate_advanced_stats.py : [calculate_rate_stats] *)

(** The columns of [skater_stats] that [calculate_rate_stats] reads and
    writes.  [ice_time_seconds] may be NULL; the five rate columns are
    declared [REAL DEFAULT 0]. *)
Module SkaterRates.
Record row : Type := mk {
  player_id : Z;
  team_id : Z;
  season_id : Z;
  games_played : Z;
  ice_time_seconds : option Z;
  points : Z;
  goals : Z;
  assists : Z;
  shots : Z;
  points_per_60 : float;
  goals_per_60 : float;
  assists_per_60 : float;
  shots_per_60 : float;
  shooting_pct : float
}.

Definition set_ice_time (v : option Z) (r : row) : row :=
  mk (player_id r) (team_id r) (season_id r) (games_played r) v
     (points r) (goals r) (assists r) (shots r)
     (points_per_60 r) (goals_per_60 r) (assists_per_60 r) (shots_per_60 r)
     (shooting_pct r).

Definition set_rates (p60 g60 a60 s60 pct : float) (r : row) : row :=
  mk (player_id r) (team_id r) (season_id r) (games_played r) (ice_time_seconds r)
     (points r) (goals r) (assists r) (shots r) p60 g60 a60 s60 pct.

Definition key (r : row) : Z * Z * Z := (player_id r, team_id r, season_id r).
End SkaterRates.

Module RateStats.
Import Py.

(** [WHERE s.season_id = ? AND (s.ice_time_seconds IS NULL OR
    s.ice_time_seconds = 0)]. *)
Definition lacks_toi (season_id : Z) (s : SkaterRates.row) : bool :=
  (SkaterRates.season_id s =? season_id)
  && match SkaterRates.ice_time_seconds s with
     | None => true
     | Some t => t =? 0
     end.

(** The first query: skater rows without ice time, joined with players. *)
Definition no_toi (season_id : Z) (players : list Players.row)
    (skater_stats : list SkaterRates.row) : list (Z * Z * Z * option string) :=
  flat_map
    (fun s =>
       if lacks_toi season_id s then
         map (fun p => (SkaterRates.player_id s, SkaterRates.team_id s,
                        SkaterRates.games_played s, Players.position p))
             (List.filter
                (fun p => SkaterRates.player_id s =? Players.player_id p)
                players)
       else [])
    skater_stats.

(** [pos in ['D', 'LD', 'RD']]; a NULL position is in no list. *)
Definition is_defense (pos : option string) : bool :=
  match pos with
  | Some s => bool_decide (s = "D"%string) || bool_decide (s = "LD"%string)
              || bool_decide (s = "RD"%string)
  | None => false
  end.

(** Lines 71-74. *)
Definition est_toi (gp : Z) (pos : option string) : Z :=
  if is_defense pos then gp * 20 * 60 else gp * 15 * 60.

(** [CASE WHEN ice_time_seconds > 0 THEN (n * 3600.0 / ice_time_seconds)
    ELSE 0 END]: a NULL ice time fails the test. *)
Definition per_60 (n : Z) (ice_time_seconds : option Z) : float :=
  match ice_time_seconds with
  | Some t => if t >? 0 then (float_of_Z n * 3600.0 / float_of_Z t)%float
              else 0%float
  | None => 0%float
  end.

(** [CASE WHEN shots > 0 THEN (100.0 * goals / shots) ELSE 0 END]. *)
Definition shooting_pct_of (goals shots : Z) : float :=
  if shots >? 0 then (100.0 * float_of_Z goals / float_of_Z shots)%float
  else 0%float.

(** The SET clause of the second statement, on one row. *)
Definition rates (r : SkaterRates.row) : SkaterRates.row :=
  SkaterRates.set_rates
    (per_60 (SkaterRates.points r) (SkaterRates.ice_time_seconds r))
    (per_60 (SkaterRates.goals r) (SkaterRates.ice_time_seconds r))
    (per_60 (SkaterRates.assists r) (SkaterRates.ice_time_seconds r))
    (per_60 (SkaterRates.shots r) (SkaterRates.ice_time_seconds r))
    (shooting_pct_of (SkaterRates.goals r) (SkaterRates.shots r))
    r.

Definition calculate_rate_stats (season_id : Z) (players : list Players.row)
    (skater_stats : list SkaterRates.row) : list SkaterRates.row :=
  let skater_stats :=
    fold_left
      (fun t '(player_id, team_id, gp, pos) =>
         Sql.update
           (fun r => (SkaterRates.player_id r =? player_id)
                     && (SkaterRates.team_id r =? team_id)
                     && (SkaterRates.season_id r =? season_id))
           (SkaterRates.set_ice_time (Some (est_toi gp pos))) t)
      (no_toi season_id players skater_stats) skater_stats in
  Sql.update (fun r => SkaterRates.season_id r =? season_id) rates skater_stats.

(** Auxiliary readings of one row of [no_toi]. *)
Abbreviation toi_row := (Z * Z * Z * option string)%type.

Definition toi_key (season_id : Z) (p : toi_row) : Z * Z * Z :=
  let '(player_id, team_id, _, _) := p in (player_id, team_id, season_id).

Definition toi_cond (season_id : Z) (p : toi_row) (r : SkaterRates.row) : bool :=
  let '(player_id, team_id, _, _) := p in
  (SkaterRates.player_id r =? player_id)
  && (SkaterRates.team_id r =? team_id)
  && (SkaterRates.season_id r =? season_id).

Definition toi_set (p : toi_row) (r : SkaterRates.row) : SkaterRates.row :=
  let '(_, _, gp, pos) := p in SkaterRates.set_ice_time (Some (est_toi gp pos)) r.

(** The players rows the join pairs with a skater row. *)
Definition on_file (players : list Players.row) (r : SkaterRates.row)
    : list Players.row :=
  List.filter (fun p => SkaterRates.player_id r =? Players.player_id p) players.

(** A skater row after the ice-time estimate, when its player is on file
    once. *)
Definition with_toi (season_id : Z) (players : list Players.row)
    (r : SkaterRates.row) : SkaterRates.row :=
  if lacks_toi season_id r then
    match on_file players r with
    | p :: _ =>
        SkaterRates.set_ice_time
          (Some (est_toi (SkaterRates.games_played r) (Players.position p))) r
    | [] => r
    end
  else r.

(** A forward without ice time, a defender with a recorded one, a skater
    whose player is not on file, and a row of another season. *)
Definition sample_players : list Players.row :=
  [ Players.mk 20 (Some "F"%string); Players.mk 21 (Some "D"%string) ].

Definition sample : list SkaterRates.row :=
  [ SkaterRates.mk 20 1 5 10 None 12 5 7 40 0 0 0 0 0;
    SkaterRates.mk 21 1 5 10 (Some 9000) 4 1 3 20 0 0 0 0 0;
    SkaterRates.mk 22 2 5 8 (Some 0) 3 1 2 0 0 0 0 0 0;
    SkaterRates.mk 20 1 4 10 None 9 4 5 30 0 0 0 0 0 ].
End RateStats.

(** ** calculate_advanced_stats.py : [calculate_defensive_stats] and
    [calculate_clutch_scoring] *)

Module BlockedShots.
Record row : Type := mk {
  season_id : Z;
  blocker_id : option Z;
  team_id : Z
}.
End BlockedShots.

Module Goals.
Record row : Type := mk {
  season_id : Z;
  scorer_id : option Z;
  team_id : Z;
  period : Z
}.
End Goals.

(** The columns of [skater_stats] the two passes write, both declared
    [INTEGER DEFAULT 0]. *)
Module SkaterCounts.
Record row : Type := mk {
  player_id : Z;
  team_id : Z;
  season_id : Z;
  blocks : Z;
  clutch_goals : Z
}.

Definition set_blocks (v : Z) (r : row) : row :=
  mk (player_id r) (team_id r) (season_id r) v (clutch_goals r).

Definition set_clutch_goals (v : Z) (r : row) : row :=
  mk (player_id r) (team_id r) (season_id r) (blocks r) v.
End SkaterCounts.

Module CountPasses.

(** [column = ?] with a bound parameter: a NULL parameter equals nothing. *)
Definition eq_param (column : Z) (param : option Z) : bool :=
  match param with
  | Some v => column =? v
  | None => false
  end.

Definition calculate_defensive_stats (season_id : Z)
    (blocked_shots : list BlockedShots.row) (skater_stats : list SkaterCounts.row)
    : list SkaterCounts.row :=
  let rows :=
    map (fun '((blocker_id, team_id), g) => (blocker_id, team_id, Z.of_nat (length g)))
        (Sql.group_by (fun b => (BlockedShots.blocker_id b, BlockedShots.team_id b))
           (List.filter
              (fun b => (BlockedShots.season_id b =? season_id)
                        && bool_decide (BlockedShots.blocker_id b <> None))
              blocked_shots)) in
  fold_left
    (fun t '(blocker_id, team_id, blocks) =>
       Sql.update
         (fun r => eq_param (SkaterCounts.player_id r) blocker_id
                   && (SkaterCounts.team_id r =? team_id)
                   && (SkaterCounts.season_id r =? season_id))
         (SkaterCounts.set_blocks blocks) t)
    rows skater_stats.

Definition calculate_clutch_scoring (season_id : Z)
    (goals : list Goals.row) (skater_stats : list SkaterCounts.row)
    : list SkaterCounts.row :=
  let rows :=
    map (fun '((scorer_id, team_id), g) => (scorer_id, team_id, Z.of_nat (length g)))
        (Sql.group_by (fun g => (Goals.scorer_id g, Goals.team_id g))
           (List.filter
              (fun g => (Goals.season_id g =? season_id) && (Goals.period g >=? 3))
              goals)) in
  fold_left
    (fun t '(scorer_id, team_id, clutch) =>
       Sql.update
         (fun r => eq_param (SkaterCounts.player_id r) scorer_id
                   && (SkaterCounts.team_id r =? team_id)
                   && (SkaterCounts.season_id r =? season_id))
         (SkaterCounts.set_clutch_goals clutch) t)
    rows skater_stats.

(** The blocked shots of a player for a team in a season, and the goals
    the player scored for the team in the third period or later. *)
Definition blocks_of (season player team : Z) (blocked_shots : list BlockedShots.row)
    : Z :=
  Sql.count (fun b => (BlockedShots.season_id b =? season)
                      && bool_decide (BlockedShots.blocker_id b = Some player)
                      && (BlockedShots.team_id b =? team))
            blocked_shots.

Definition clutch_of (season player team : Z) (goals : list Goals.row) : Z :=
  Sql.count (fun g => (Goals.season_id g =? season)
                      && (Goals.period g >=? 3)
                      && bool_decide (Goals.scorer_id g = Some player)
                      && (Goals.team_id g =? team))
            goals.

(** Auxiliary readings of one row of a grouped count. *)
Abbreviation count_row := (option Z * Z * Z)%type.

Definition count_key (season : Z) (p : count_row) : option Z * Z * Z :=
  let '(who, team, _) := p in (who, team, season).

Definition count_value (p : count_row) : Z := let '(_, _, n) := p in n.

Definition skater_key (r : SkaterCounts.row) : option Z * Z * Z :=
  (Some (SkaterCounts.player_id r), SkaterCounts.team_id r, SkaterCounts.season_id r).

Definition count_cond (season : Z) (p : count_row) (r : SkaterCounts.row) : bool :=
  let '(who, team, _) := p in
  eq_param (SkaterCounts.player_id r) who
  && (SkaterCounts.team_id r =? team)
  && (SkaterCounts.season_id r =? season).
End CountPasses.

(** * Properties *)

Import Py.

(** ** Floating-point facts *)

Lemma float_mul_comm (x y : float) : (x * y)%float = (y * x)%float.
Proof.
  apply Prim2SF_inj. rewrite !mul_spec.
  destruct (Prim2SF x) as [s|s| |s m e], (Prim2SF y) as [s'|s'| |s' m' e'];
    simpl; try reflexivity;
    rewrite (xorb_comm s s'); try reflexivity.
  now rewrite (Pos.mul_comm m m'), (Z.add_comm e e').
Qed.

(** Two floats that a comparison tells apart are different. *)
Lemma float_neq_of_eqb (a b : float) : (a =? b)%float = false -> (b =? b)%float = true -> a <> b.
Proof. intros Hab Hbb ->. congruence. Qed.

Ltac float_neq := apply float_neq_of_eqb; vm_compute; reflexivity.

Lemma Ok_inj {A} (a b : A) : Ok a = Ok b -> a = b.
Proof. now inversion 1. Qed.

(** ** The store: keyed updates and grouping *)

Lemma fold_left_ext {A B} (f g : A -> B -> A) (l : list B) (a : A) :
  (forall a b, f a b = g a b) -> fold_left f l a = fold_left g l a.
Proof.
  intros Hfg. revert a. induction l as [|b l IH]; intros a; simpl; [reflexivity|].
  now rewrite Hfg, IH.
Qed.

Section KeyedUpdates.
Context {R P K : Type}.
Variables (keyR : R -> K) (keyP : P -> K).
Variables (cond : P -> R -> bool) (set : P -> R -> R).
Hypothesis cond_key : forall p r, cond p r = true <-> keyR r = keyP p.
Hypothesis set_key : forall p r, keyR (set p r) = keyR r.

(** A sequence of UPDATE statements acts on every row independently. *)
Lemma executemany_rows (stmt : P -> list R -> list R) (ps : list P) (t : list R) :
  (forall p t, stmt p t = Sql.update (cond p) (set p) t) ->
  Sql.executemany stmt ps t = map (Sql.apply_updates cond set ps) t.
Proof.
  intros Hstmt. unfold Sql.executemany, Sql.apply_updates.
  revert t. induction ps as [|p ps IH]; intros t; simpl.
  - now rewrite map_id.
  - rewrite IH, Hstmt. unfold Sql.update. now rewrite map_map.
Qed.

Lemma apply_updates_key (ps : list P) (r : R) :
  keyR (Sql.apply_updates cond set ps r) = keyR r.
Proof.
  unfold Sql.apply_updates. revert r.
  induction ps as [|p ps IH]; intros r; simpl; [reflexivity|].
  rewrite IH. destruct (cond p r); [apply set_key|reflexivity].
Qed.

(** A row whose key no statement names is left as it was. *)
Lemma apply_updates_untouched (ps : list P) (r : R) :
  ~ In (keyR r) (map keyP ps) -> Sql.apply_updates cond set ps r = r.
Proof.
  unfold Sql.apply_updates. revert r.
  induction ps as [|p ps IH]; intros r Hnot; simpl; [reflexivity|].
  destruct (cond p r) eqn:Hc.
  - apply cond_key in Hc. exfalso. apply Hnot. simpl. now left.
  - apply IH. intros Hin. apply Hnot. simpl. now right.
Qed.

(** When the statements have pairwise distinct keys, a row ends up as
    written by the one statement that names its key. *)
Lemma apply_updates_unique (ps : list P) (p : P) (r : R) :
  List.NoDup (map keyP ps) -> In p ps -> keyP p = keyR r ->
  Sql.apply_updates cond set ps r = set p r.
Proof.
  unfold Sql.apply_updates. revert r.
  induction ps as [|q ps IH]; intros r Hnd Hin Hk; simpl; [destruct Hin|].
  inversion Hnd as [|? ? Hq Hnd']; subst.
  destruct Hin as [->|Hin].
  - assert (Hc : cond p r = true) by (apply cond_key; congruence).
    rewrite Hc. apply (apply_updates_untouched ps (set p r)).
    rewrite set_key, <- Hk. exact Hq.
  - assert (Hc : cond q r = false).
    { destruct (cond q r) eqn:Hc; [|reflexivity].
      apply cond_key in Hc. exfalso. apply Hq.
      rewrite <- Hc, <- Hk. now apply in_map. }
    rewrite Hc. now apply IH.
Qed.

(** SQL fixes no order between the rows of a grouped query: with pairwise
    distinct keys the order in which the statements run is irrelevant. *)
Lemma apply_updates_order_irrelevant (ps ps' : list P) (r : R) :
  (forall k k' : K, k = k' \/ k <> k') ->
  List.NoDup (map keyP ps) -> Permutation ps ps' ->
  Sql.apply_updates cond set ps r = Sql.apply_updates cond set ps' r.
Proof.
  intros Hdec Hnd Hperm.
  assert (Hnd' : List.NoDup (map keyP ps')).
  { eapply Permutation_NoDup; [|exact Hnd]. now apply Permutation_map. }
  assert (Hcase : In (keyR r) (map keyP ps) \/ ~ In (keyR r) (map keyP ps)).
  { clear Hnd Hperm Hnd'. induction ps as [|p l IH]; simpl; [tauto|].
    destruct (Hdec (keyP p) (keyR r)); tauto. }
  destruct Hcase as [Hin|Hout].
  - apply in_map_iff in Hin as (p & Hp & Hin).
    rewrite (apply_updates_unique ps p r Hnd Hin Hp).
    symmetry. apply apply_updates_unique; [exact Hnd'| |exact Hp].
    eapply Permutation_in; eassumption.
  - rewrite (apply_updates_untouched ps r Hout).
    symmetry. apply apply_updates_untouched. intros Hin. apply Hout.
    eapply Permutation_in; [|exact Hin].
    apply Permutation_map. now symmetry.
Qed.
End KeyedUpdates.

Section GroupBy.
Context {R K : Type} `{EqDecision K}.
Variable key : R -> K.

Lemma group_by_keys (t : list R) :
  map fst (Sql.group_by key t) = nodup (fun a b => decide (a = b)) (map key t).
Proof.
  unfold Sql.group_by. rewrite map_map. simpl. apply map_id.
Qed.

Lemma group_by_keys_NoDup (t : list R) :
  List.NoDup (map fst (Sql.group_by key t)).
Proof. rewrite group_by_keys. apply NoDup_nodup. Qed.

Lemma in_group_by (k : K) (g : list R) (t : list R) :
  In (k, g) (Sql.group_by key t) <->
  In k (map key t) /\ g = List.filter (fun r => bool_decide (key r = k)) t.
Proof.
  unfold Sql.group_by. rewrite in_map_iff. split.
  - intros (k' & Heq & Hin). inversion Heq; subst.
    apply nodup_In in Hin. now split.
  - intros (Hin & ->). exists k. split; [reflexivity|]. now apply nodup_In.
Qed.

Lemma in_group_keys (k : K) (t : list R) :
  In k (map fst (Sql.group_by key t)) <-> In k (map key t).
Proof. rewrite group_by_keys. apply nodup_In. Qed.
End GroupBy.

Section OverwritingUpdates.
Context {R P : Type}.
Variables (cond : P -> R -> bool) (set : P -> R -> R).
Hypothesis cond_set : forall p q r, cond p (set q r) = cond p r.
Hypothesis set_set : forall p q r, set p (set q r) = set p r.

Let written (acc : option P) (r : R) : R :=
  match acc with
  | Some q => set q r
  | None => r
  end.

(** When every statement overwrites the same columns and tests none of
    them, the last statement that selects a row decides its content. *)
Lemma apply_updates_last_from (ps : list P) (r : R) (acc : option P) :
  Sql.apply_updates cond set ps (written acc r) =
  written (Sql.last_match cond ps r acc) r.
Proof.
  unfold Sql.apply_updates, Sql.last_match. revert acc.
  induction ps as [|p ps IH]; intros acc; simpl; [reflexivity|].
  assert (Hc : cond p (written acc r) = cond p r)
    by (destruct acc; simpl; auto).
  rewrite Hc. destruct (cond p r).
  - rewrite <- (IH (Some p)). simpl. destruct acc; simpl; now rewrite ?set_set.
  - apply IH.
Qed.

Lemma apply_updates_last (ps : list P) (r : R) :
  Sql.apply_updates cond set ps r = written (Sql.last_match cond ps r None) r.
Proof. apply (apply_updates_last_from ps r None). Qed.

Lemma last_match_written (ps : list P) (r : R) (acc acc' : option P) :
  Sql.last_match cond ps (written acc' r) acc = Sql.last_match cond ps r acc.
Proof.
  unfold Sql.last_match. apply fold_left_ext. intros a p.
  destruct acc'; simpl; now rewrite ?cond_set.
Qed.

(** Running the same statements a second time changes nothing. *)
Lemma apply_updates_idempotent (ps : list P) (r : R) :
  Sql.apply_updates cond set ps (Sql.apply_updates cond set ps r) =
  Sql.apply_updates cond set ps r.
Proof.
  rewrite (apply_updates_last ps r).
  rewrite apply_updates_last, last_match_written.
  destruct (Sql.last_match cond ps r None); simpl; now rewrite ?set_set.
Qed.
End OverwritingUpdates.

(** ** The scorer *)

Lemma base_xg_int (y : Z) :
  XG.base_xg (Some y) =
  Ok (if (y <? 100) || (y >? 200) then 0.04%float else 0.12%float).
Proof.
  unfold XG.base_xg, or_else, lt_int, gt_int; simpl.
  destruct (y <? 100); simpl; [reflexivity|].
  destruct (y >? 200); reflexivity.
Qed.

Lemma calculate_xg_int (shot_type quality x is_goal : option Z) (y : Z) :
  XG.calculate_xg shot_type quality x (Some y) is_goal =
  Ok (min2 ((if (y <? 100)%Z || (y >? 200)%Z then 0.04 else 0.12)
            * XG.type_mult shot_type * XG.quality_mult quality)%float 0.25%float).
Proof. unfold XG.calculate_xg. now rewrite base_xg_int. Qed.

(** The shot-type table: the six listed codes, and 1.0 for anything else. *)
Lemma type_mult_cases (shot_type : option Z) :
  In (XG.type_mult shot_type) [1.40; 1.00; 1.19; 1.25; 1.82]%float.
Proof.
  destruct shot_type as [k|]; [|vm_compute; tauto].
  unfold XG.type_mult, dict_get, XG.type_multipliers.
  repeat (rewrite lookup_insert; case_decide; [simpl; tauto|]).
  rewrite lookup_empty. simpl. tauto.
Qed.

Lemma quality_mult_cases (quality : option Z) :
  In (XG.quality_mult quality) [1.15; 0.85; 1.0]%float.
Proof.
  destruct quality as [k|]; [|vm_compute; tauto].
  unfold XG.quality_mult, dict_get, XG.quality_multipliers.
  repeat (rewrite lookup_insert; case_decide; [simpl; tauto|]).
  rewrite lookup_empty. simpl. tauto.
Qed.

Lemma type_mult_unknown (k : Z) :
  ~ In k [1; 2; 3; 4; 5; 6] -> XG.type_mult (Some k) = 1.0%float.
Proof.
  intros H. unfold XG.type_mult, dict_get, XG.type_multipliers.
  repeat (rewrite lookup_insert_ne; [|intros <-; apply H; simpl; tauto]).
  now rewrite lookup_empty.
Qed.

Lemma quality_mult_unknown (k : Z) :
  ~ In k [1; 2; 5; 6] -> XG.quality_mult (Some k) = 1.0%float.
Proof.
  intros H. unfold XG.quality_mult, dict_get, XG.quality_multipliers.
  repeat (rewrite lookup_insert_ne; [|intros <-; apply H; simpl; tauto]).
  now rewrite lookup_empty.
Qed.

(** C1, as stated: the base rate of every shot is the one the
    specification assigns to its y-coordinate.  It fails on the boundary:
    the code's test is [y < 100 or y > 200], so y = 100 (and y = 200) is
    scored with the high-danger rate 0.12, not the perimeter rate 0.04. *)
Lemma zone_boundary_counterexample :
  XG.base_xg (Some 100) = Ok 0.12%float /\
  XG.base_xg (Some 200) = Ok 0.12%float /\
  Spec.zone_base_rate 100 = 0.04%float /\
  Spec.zone_base_rate 200 = 0.04%float /\
  XG.base_xg (Some 100) <> Ok (Spec.zone_base_rate 100) /\
  XG.base_xg (Some 200) <> Ok (Spec.zone_base_rate 200).
Proof.
  repeat split; try (vm_compute; reflexivity);
    intros H; apply Ok_inj in H; revert H; float_neq.
Qed.

(** C1, amended: the perimeter rate 0.04 applies for y < 100 or y > 200
    and the high-danger rate 0.12 for 100 <= y <= 200, both bounds
    included; so the code agrees with the specification's zones everywhere
    except at y = 100 and y = 200, which it scores as high-danger.  y = 150
    is high-danger, and a wrist shot of quality 2 at y = 150 scores
    0.12 x 1.00 x 0.85 = 0.102. *)
Theorem zone_base_rate_inclusive (shot_type quality x is_goal : option Z) (y : Z) :
  XG.base_xg (Some y) =
    Ok (if (100 <=? y) && (y <=? 200) then 0.12%float else 0.04%float) /\
  XG.base_xg (Some y) =
    Ok (if (y =? 100) || (y =? 200) then 0.12%float else Spec.zone_base_rate y) /\
  XG.calculate_xg shot_type quality x (Some y) is_goal =
    Ok (min2 ((if (100 <=? y)%Z && (y <=? 200)%Z then 0.12 else 0.04)
              * XG.type_mult shot_type * XG.quality_mult quality)%float 0.25%float) /\
  XG.base_xg (Some 99) = Ok 0.04%float /\
  XG.base_xg (Some 100) = Ok 0.12%float /\
  XG.base_xg (Some 150) = Ok 0.12%float /\
  XG.base_xg (Some 200) = Ok 0.12%float /\
  XG.base_xg (Some 201) = Ok 0.04%float /\
  XG.calculate_xg (Some 2) (Some 2) x (Some 150) is_goal = Ok 0.102%float /\
  (0.12 * 1.00 * 0.85)%float = 0.102%float.
Proof.
  assert (Hzone : (if (y <? 100) || (y >? 200) then 0.04%float else 0.12%float)
                  = (if (100 <=? y) && (y <=? 200) then 0.12%float else 0.04%float)).
  { destruct (Z.ltb_spec y 100), (Z.gtb_spec y 200), (Z.leb_spec 100 y),
      (Z.leb_spec y 200); simpl; try reflexivity; lia. }
  repeat split; try (vm_compute; reflexivity).
  - now rewrite base_xg_int, Hzone.
  - rewrite base_xg_int. unfold Spec.zone_base_rate.
    destruct (Z.ltb_spec y 100), (Z.gtb_spec y 200), (Z.eqb_spec y 100),
      (Z.eqb_spec y 200), (Z.leb_spec y 100), (Z.geb_spec y 200);
      simpl; try reflexivity; lia.
  - now rewrite calculate_xg_int, Hzone.
Qed.

(** C2: for every shot with an integer y-coordinate (any shot type,
    quality, x and goal flag, present or not), [calculate_xg] returns a
    value in the closed interval [0, 0.25]; the value is the product
    clamped by [min(xg, 0.25)]; and a tip shot of quality 5 at y = 150,
    whose product 0.12 x 1.82 x 1.15 exceeds 0.25, scores exactly 0.25. *)
Theorem calculate_xg_bounds (shot_type quality x is_goal : option Z) (y : Z) :
  (exists base v : float,
      XG.base_xg (Some y) = Ok base /\
      v = min2 (base * XG.type_mult shot_type * XG.quality_mult quality)%float
               0.25%float /\
      XG.calculate_xg shot_type quality x (Some y) is_goal = Ok v /\
      (0 <=? v)%float = true /\ (v <=? 0.25)%float = true) /\
  XG.calculate_xg (Some 6) (Some 5) x (Some 150) is_goal = Ok 0.25%float /\
  (0.25 <? 0.12 * 1.82 * 1.15)%float = true.
Proof.
  split; [|split; vm_compute; reflexivity].
  rewrite calculate_xg_int, base_xg_int.
  eexists; eexists; split; [reflexivity|]; split; [reflexivity|];
    split; [reflexivity|].
  pose proof (type_mult_cases shot_type) as Ht.
  pose proof (quality_mult_cases quality) as Hq.
  simpl in Ht, Hq.
  destruct ((y <? 100) || (y >? 200));
    destruct Ht as [<-|[<-|[<-|[<-|[<-|[]]]]]];
    destruct Hq as [<-|[<-|[<-|[]]]];
    vm_compute; split; reflexivity.
Qed.

(** Relabelling the goal flag of the shots changes neither the scores
    computed by the batch nor the rows they are written to. *)
Lemma scoring_loop_relabel (labels : Shots.row -> Z) (shots : list Shots.row)
    (updates : list (float * Z)) :
  for_each
    (fun updates shot =>
       xg ← XG.calculate_xg (Shots.shot_type shot) (Shots.quality shot)
              (Shots.x_location shot) (Shots.y_location shot)
              (Some (Shots.is_goal shot));
       Ok (updates ++ [(xg, Shots.id shot)]))
    (map (fun s => Shots.set_is_goal (labels s) s) shots) updates =
  for_each
    (fun updates shot =>
       xg ← XG.calculate_xg (Shots.shot_type shot) (Shots.quality shot)
              (Shots.x_location shot) (Shots.y_location shot)
              (Some (Shots.is_goal shot));
       Ok (updates ++ [(xg, Shots.id shot)]))
    shots updates.
Proof.
  revert updates. induction shots as [|s l IH]; intros updates; [reflexivity|].
  cbn [map for_each]. cbn [Shots.set_is_goal Shots.shot_type Shots.quality
    Shots.x_location Shots.y_location Shots.id Shots.is_goal].
  unfold XG.calculate_xg.
  destruct (XG.base_xg (Shots.y_location s)) as [base|e]; [|reflexivity].
  cbn [mbind result_bind]. apply IH.
Qed.

Lemma apply_scores_relabel (updates : list (float * Z)) (z : Z) (r : Shots.row) :
  Sql.apply_updates xGCalculator.score_cond xGCalculator.score_set updates
    (Shots.set_is_goal z r) =
  Shots.set_is_goal z
    (Sql.apply_updates xGCalculator.score_cond xGCalculator.score_set updates r).
Proof.
  unfold Sql.apply_updates. revert r.
  induction updates as [|[v i] l IH]; intros r; simpl; [reflexivity|].
  destruct (Shots.id r =? i); [|apply IH].
  exact (IH (Shots.set_xg v r)).
Qed.

Lemma write_scores_rows (updates : list (float * Z)) (shots : list Shots.row) :
  Sql.executemany
    (fun '(xg, shot_id) =>
       Sql.update (fun r => Shots.id r =? shot_id) (Shots.set_xg xg))
    updates shots =
  map (Sql.apply_updates xGCalculator.score_cond xGCalculator.score_set updates)
      shots.
Proof.
  apply (executemany_rows xGCalculator.score_cond xGCalculator.score_set).
  intros [v i] t. reflexivity.
Qed.

(** The batch in two steps: the scoring loop, then the rows as written;
    the display raises on an empty table and is silent otherwise. *)
Lemma calculate_shot_xg_steps (shots : list Shots.row) :
  xGCalculator.calculate_shot_xg shots =
  updates ← for_each
    (fun updates shot =>
       xg ← XG.calculate_xg (Shots.shot_type shot) (Shots.quality shot)
              (Shots.x_location shot) (Shots.y_location shot)
              (Some (Shots.is_goal shot));
       Ok (updates ++ [(xg, Shots.id shot)]))
    shots [];
  match shots with
  | [] => Raise TypeError
  | _ :: _ =>
      Ok (map (Sql.apply_updates xGCalculator.score_cond xGCalculator.score_set
                 updates) shots)
  end.
Proof.
  unfold xGCalculator.calculate_shot_xg.
  match goal with
  | |- context [for_each ?body shots []] =>
      destruct (for_each body shots []) as [updates|e]
  end; [|reflexivity].
  cbn [mbind result_bind]. cbv zeta. rewrite write_scores_rows.
  destruct shots as [|s l]; reflexivity.
Qed.

(** C3: the score does not depend on the [is_goal] argument: two calls
    that agree on shot type, quality, x and y return the same result
    (the same score, or the same exception) whatever their goal flags; and
    the batch scorer stores the same xg on every shot of two shots tables
    that differ only in their goal flags. *)
Theorem calculate_xg_ignores_is_goal
    (shot_type quality x y is_goal is_goal' : option Z)
    (labels : Shots.row -> Z) (shots : list Shots.row) :
  XG.calculate_xg shot_type quality x y is_goal =
  XG.calculate_xg shot_type quality x y is_goal' /\
  map Shots.xg <$>
    xGCalculator.calculate_shot_xg
      (map (fun s => Shots.set_is_goal (labels s) s) shots) =
  map Shots.xg <$> xGCalculator.calculate_shot_xg shots.
Proof.
  split; [reflexivity|].
  rewrite !calculate_shot_xg_steps, scoring_loop_relabel.
  match goal with
  | |- context [for_each ?body shots []] =>
      destruct (for_each body shots []) as [updates|e]
  end; [|reflexivity].
  cbn [mbind result_bind].
  destruct shots as [|s0 l]; [reflexivity|].
  cbn [map fmap result_fmap]. f_equal.
  rewrite apply_scores_relabel. cbn [Shots.xg Shots.set_is_goal]. f_equal.
  rewrite !map_map. apply map_ext. intros s.
  now rewrite apply_scores_relabel.
Qed.

(** C4 on the code: a NULL y-coordinate, which the play-by-play scraper
    stores for a shot without location, makes [calculate_xg] raise a
    [TypeError] at [y < 100], and the exception aborts the whole batch of
    [calculate_shot_xg]: no shot is scored. *)
Theorem null_location_raises (shot_type quality x is_goal : option Z) :
  XG.calculate_xg shot_type quality x None is_goal = Raise TypeError /\
  xGCalculator.calculate_shot_xg
    [ Shots.mk 1 8 10 (Some 30) 1 2 (Some 300) (Some 150) (Some 2) (Some 2) 0 0;
      Shots.mk 2 8 11 (Some 30) 1 2 None None (Some 5) (Some 2) 0 0;
      Shots.mk 3 8 12 (Some 30) 1 2 (Some 310) (Some 90) (Some 6) (Some 5) 1 0 ]
  = Raise TypeError.
Proof. split; reflexivity. Qed.

(** The other half of C4 does hold: with an integer y the scorer always
    returns, and a code outside the tables, or a missing one, gets the
    neutral multiplier 1.0. *)
Lemma calculate_xg_total_on_int_y (shot_type quality x is_goal : option Z) (y : Z) :
  exists v, XG.calculate_xg shot_type quality x (Some y) is_goal = Ok v.
Proof. rewrite calculate_xg_int. eauto. Qed.

Lemma unknown_codes_neutral (k : Z) :
  (~ In k [1; 2; 3; 4; 5; 6] -> XG.type_mult (Some k) = 1.0%float) /\
  (~ In k [1; 2; 5; 6] -> XG.quality_mult (Some k) = 1.0%float) /\
  XG.type_mult None = 1.0%float /\ XG.quality_mult None = 1.0%float.
Proof.
  repeat split; auto using type_mult_unknown, quality_mult_unknown.
Qed.

(** The batch scorer stops at the first shot without a location. *)

Lemma scoring_loop_aborts (shots : list Shots.row) (updates : list (float * Z)) :
  Exists (fun s => Shots.y_location s = None) shots ->
  for_each
    (fun updates shot =>
       xg ← XG.calculate_xg (Shots.shot_type shot) (Shots.quality shot)
              (Shots.x_location shot) (Shots.y_location shot)
              (Some (Shots.is_goal shot));
       Ok (updates ++ [(xg, Shots.id shot)]))
    shots updates = Raise TypeError.
Proof.
  intros Hex. revert updates.
  induction Hex as [s l Hs|s l Hex IH]; intros updates; simpl.
  - rewrite Hs. reflexivity.
  - destruct (Shots.y_location s) as [y|]; [|reflexivity].
    rewrite calculate_xg_int. simpl. apply IH.
Qed.

Lemma calculate_shot_xg_aborts (shots : list Shots.row) :
  Exists (fun s => Shots.y_location s = None) shots ->
  xGCalculator.calculate_shot_xg shots = Raise TypeError.
Proof.
  intros Hex. rewrite calculate_shot_xg_steps.
  now rewrite scoring_loop_aborts.
Qed.

(** ** The fallback estimator *)

Lemma volume_bucket_tier (shots : Z) :
  xGEstimator.volume_bucket shots = Spec.volume_tier shots.
Proof.
  unfold xGEstimator.volume_bucket, Spec.volume_tier.
  destruct (Z.ltb_spec shots 20), (Z.ltb_spec shots 50), (Z.ltb_spec shots 80),
    (Z.leb_spec 20 shots), (Z.leb_spec shots 49), (Z.leb_spec 50 shots),
    (Z.leb_spec shots 79); simpl; try reflexivity; lia.
Qed.

Lemma regression_factor_spec (shots : Z) :
  xGEstimator.regression_factor shots = Spec.regression shots.
Proof.
  unfold xGEstimator.regression_factor, Spec.regression.
  destruct (Z.ltb_spec shots 20), (Z.ltb_spec shots 50),
    (Z.leb_spec 20 shots), (Z.leb_spec shots 49); simpl; try reflexivity; lia.
Qed.

(** C5: for a player with shots > 0 the estimate is
    max(0, shots x (0.6 x position_rate + 0.4 x volume_rate) x r
           + goals x (1 - r)),
    with the volume tiers < 20, 20-49, 50-79, >= 80 and r = 0.8 below 20
    shots, 0.6 for 20-49 and 0.4 from 50 on; with no shot the estimate is
    exactly 0.0, whatever the goals and the position. *)
Theorem estimate_xg_for_player_formula (self : xGEstimator.t) (shots goals : Z)
    (position : option string) (Hshots : 0 < shots) :
  xGEstimator.estimate_xg_for_player self shots goals position =
    Spec.blended_estimate (Spec.position_rate_of self position)
      (Spec.volume_rate_of self shots) shots goals /\
  (forall goals' position',
      xGEstimator.estimate_xg_for_player self 0 goals' position' = 0.0%float).
Proof.
  split; [|reflexivity].
  unfold xGEstimator.estimate_xg_for_player, Spec.blended_estimate,
    Spec.position_rate_of, Spec.volume_rate_of.
  destruct (Z.eqb_spec shots 0) as [->|_]; [lia|].
  rewrite volume_bucket_tier, regression_factor_spec.
  now rewrite (float_mul_comm _ 0.6), (float_mul_comm _ 0.4).
Qed.

Lemma estimate_xg_for_player_formula_witness :
  0 < 30 /\
  xGEstimator.estimate_xg_for_player Sample.estimator 30 5 (Some "D") =
    max2 0%float (30 * (0.6 * 0.05 + 0.4 * 0.08) * 0.6 + 5 * (1 - 0.6))%float /\
  xGEstimator.estimate_xg_for_player Sample.estimator 0 0 (Some "D") = 0.0%float.
Proof.
  assert (H : 0 < 30) by lia.
  destruct (estimate_xg_for_player_formula Sample.estimator 30 5 (Some "D") H)
    as [Heq Hzero].
  split; [exact H|]. split; [|apply Hzero].
  rewrite Heq. vm_compute. reflexivity.
Defined.

(** ** The skater aggregation pass *)

Section SkaterAggregation.
Variable SUM : list float -> float.

Import xGCalculator.

Lemma agg_cond_key (row : agg_row) (r : SkaterStats.row) :
  agg_cond row r = true <-> SkaterStats.key r = agg_key row.
Proof.
  destruct row as [[[[[p t] s] x] g] n]. unfold agg_cond, agg_key, SkaterStats.key.
  rewrite !andb_true_iff, !Z.eqb_eq. split.
  - intros [[-> ->] ->]. reflexivity.
  - intros H. inversion H. auto.
Qed.

Lemma agg_set_key (row : agg_row) (r : SkaterStats.row) :
  SkaterStats.key (agg_set row r) = SkaterStats.key r.
Proof. destruct row as [[[[[p t] s] x] g] n]. reflexivity. Qed.

Lemma update_skater_eq (row : agg_row) (t : list SkaterStats.row) :
  xGCalculator.update_skater row t = Sql.update (agg_cond row) (agg_set row) t.
Proof. destruct row as [[[[[p t'] s] x] g] n]. reflexivity. Qed.

Lemma player_xg_keys (shots : list Shots.row) :
  map agg_key (xGCalculator.player_xg SUM shots) =
  map fst (Sql.group_by xGCalculator.shot_key shots).
Proof.
  unfold xGCalculator.player_xg. rewrite map_map. apply map_ext.
  intros [[[p t] s] g]. reflexivity.
Qed.

Lemma player_xg_keys_NoDup (shots : list Shots.row) :
  List.NoDup (map agg_key (xGCalculator.player_xg SUM shots)).
Proof. rewrite player_xg_keys. apply group_by_keys_NoDup. Qed.

(** The aggregate query has exactly one row per key present in the
    shots table, computed from the shots of that key alone. *)
Lemma in_player_xg (row : agg_row) (shots : list Shots.row) :
  In row (xGCalculator.player_xg SUM shots) <->
  In (agg_key row) (map xGCalculator.shot_key shots) /\
  row = (agg_key row,
         SUM (map Shots.xg (shots_of (agg_key row) shots)),
         Sql.sum_int (map Shots.is_goal (shots_of (agg_key row) shots)),
         Z.of_nat (length (shots_of (agg_key row) shots))).
Proof.
  unfold xGCalculator.player_xg. rewrite in_map_iff. split.
  - intros ([[[p t] s] g] & <- & Hin). apply in_group_by in Hin as [Hk ->].
    simpl. split; [exact Hk|reflexivity].
  - intros (Hk & Hrow). exists (agg_key row, shots_of (agg_key row) shots).
    split.
    + rewrite Hrow. destruct (agg_key row) as [[p t] s]. reflexivity.
    + apply in_group_by. split; [exact Hk|reflexivity].
Qed.

(** The pass, row by row: clear, then apply the aggregate rows. *)
Lemma aggregate_rows (shots : list Shots.row) (skater_stats : list SkaterStats.row) :
  xGCalculator.aggregate_xg_by_player SUM shots skater_stats =
  map (fun r => Sql.apply_updates agg_cond agg_set
                  (xGCalculator.player_xg SUM shots) (clear_xg r))
      skater_stats.
Proof.
  unfold xGCalculator.aggregate_xg_by_player.
  change (fold_left (fun t row => xGCalculator.update_skater row t)
            (xGCalculator.player_xg SUM shots))
    with (Sql.executemany xGCalculator.update_skater
            (xGCalculator.player_xg SUM shots)).
  rewrite (executemany_rows agg_cond agg_set) by apply update_skater_eq.
  unfold Sql.update. rewrite map_map. reflexivity.
Qed.

(** X7: the skater aggregation does not depend on the order in which the
    store returns the groups of its GROUP BY query: updating from any
    permutation of the aggregate rows gives the same table. *)
Lemma aggregate_group_order_irrelevant (shots : list Shots.row)
    (skater_stats : list SkaterStats.row) (rows : list agg_row) :
  Permutation (xGCalculator.player_xg SUM shots) rows ->
  fold_left (fun t row => xGCalculator.update_skater row t) rows
    (Sql.update (fun _ => true) clear_xg skater_stats) =
  xGCalculator.aggregate_xg_by_player SUM shots skater_stats.
Proof.
  intros Hperm. rewrite aggregate_rows.
  change (fold_left (fun t row => xGCalculator.update_skater row t) rows)
    with (Sql.executemany xGCalculator.update_skater rows).
  rewrite (executemany_rows agg_cond agg_set) by apply update_skater_eq.
  unfold Sql.update. rewrite map_map. apply map_ext. intros r. symmetry.
  apply (apply_updates_order_irrelevant SkaterStats.key agg_key agg_cond agg_set
           agg_cond_key agg_set_key).
  - intros k k'. destruct (decide (k = k')); auto.
  - apply player_xg_keys_NoDup.
  - exact Hperm.
Qed.
End SkaterAggregation.

Section SkaterTheorems.
Variable SUM : list float -> float.
Import xGCalculator.

Lemma agg_cond_set (p q : agg_row) (r : SkaterStats.row) :
  agg_cond p (agg_set q r) = agg_cond p r.
Proof.
  destruct p as [[[[[? ?] ?] ?] ?] ?], q as [[[[[? ?] ?] ?] ?] ?]. reflexivity.
Qed.

Lemma agg_set_set (p q : agg_row) (r : SkaterStats.row) :
  agg_set p (agg_set q r) = agg_set p r.
Proof.
  destruct p as [[[[[? ?] ?] ?] ?] ?], q as [[[[[? ?] ?] ?] ?] ?]. reflexivity.
Qed.

Lemma clear_apply_updates (ps : list agg_row) (r : SkaterStats.row) :
  clear_xg (Sql.apply_updates agg_cond agg_set ps r) = clear_xg r.
Proof.
  rewrite (apply_updates_last agg_cond agg_set agg_cond_set agg_set_set).
  destruct (Sql.last_match agg_cond ps r None) as [[[[[[? ?] ?] ?] ?] ?]|];
    reflexivity.
Qed.

Lemma shots_of_nonempty (k : Z * Z * Z) (shots : list Shots.row) :
  In k (map shot_key shots) <-> shots_of k shots <> [].
Proof.
  unfold shots_of. split.
  - intros Hin Hnil. apply in_map_iff in Hin as (s & Hk & Hs).
    assert (Hf : In s (List.filter (fun s => bool_decide (shot_key s = k)) shots)).
    { apply filter_In. split; [exact Hs|]. now apply bool_decide_eq_true. }
    rewrite Hnil in Hf. destruct Hf.
  - intros Hne.
    destruct (List.filter (fun s => bool_decide (shot_key s = k)) shots)
      as [|s l] eqn:Hf; [contradiction|].
    assert (Hs : In s (List.filter (fun s => bool_decide (shot_key s = k)) shots))
      by (rewrite Hf; now left).
    apply filter_In in Hs as [Hs Hk]. apply bool_decide_eq_true in Hk.
    rewrite <- Hk. now apply in_map.
Qed.

(** The pass as one rewriting of every skater row: a row whose key has
    shots gets the sums of those shots, any other row is cleared. *)
Lemma aggregate_by_row (shots : list Shots.row) (skater_stats : list SkaterStats.row) :
  aggregate_xg_by_player SUM shots skater_stats =
  map (fun r =>
         match shots_of (SkaterStats.key r) shots with
         | [] => clear_xg r
         | mine =>
             SkaterStats.set_xg (SUM (map Shots.xg mine))
               (float_of_Z (Sql.sum_int (map Shots.is_goal mine))
                - SUM (map Shots.xg mine))%float r
         end)
      skater_stats.
Proof.
  rewrite aggregate_rows. apply map_ext. intros r.
  set (k := SkaterStats.key r).
  destruct (shots_of k shots) as [|s0 l] eqn:Hmine.
  - apply (apply_updates_untouched SkaterStats.key agg_key agg_cond agg_set
             agg_cond_key).
    rewrite player_xg_keys, in_group_keys.
    change (SkaterStats.key (clear_xg r)) with k.
    rewrite shots_of_nonempty, Hmine. tauto.
  - rewrite <- Hmine.
    set (row := (k, SUM (map Shots.xg (shots_of k shots)),
                 Sql.sum_int (map Shots.is_goal (shots_of k shots)),
                 Z.of_nat (length (shots_of k shots))) : agg_row).
    assert (Hkey : agg_key row = k)
      by (unfold row; destruct k as [[? ?] ?]; reflexivity).
    rewrite (apply_updates_unique SkaterStats.key agg_key agg_cond agg_set
               agg_cond_key agg_set_key _ row).
    + unfold row. destruct k as [[? ?] ?]. reflexivity.
    + apply player_xg_keys_NoDup.
    + apply in_player_xg. rewrite Hkey. split; [|reflexivity].
      rewrite shots_of_nonempty, Hmine. discriminate.
    + exact Hkey.
Qed.


(** A stored row after the pass, in terms of the row it came from. *)
Lemma in_aggregate (shots : list Shots.row) (skater_stats : list SkaterStats.row)
    (r : SkaterStats.row) :
  In r (aggregate_xg_by_player SUM shots skater_stats) ->
  exists r0, In r0 skater_stats /\ SkaterStats.key r0 = SkaterStats.key r /\
    r = Sql.apply_updates agg_cond agg_set (player_xg SUM shots) (clear_xg r0).
Proof.
  rewrite aggregate_rows, in_map_iff. intros (r0 & <- & Hin).
  exists r0. split; [exact Hin|]. split; [|reflexivity].
  now rewrite (apply_updates_key SkaterStats.key agg_cond agg_set agg_set_key).
Qed.

Lemma aggregate_no_shots (shots : list Shots.row)
    (skater_stats : list SkaterStats.row) (r : SkaterStats.row) :
  In r (aggregate_xg_by_player SUM shots skater_stats) ->
  ~ In (SkaterStats.key r) (map shot_key shots) ->
  SkaterStats.xg r = 0%float /\ SkaterStats.goals_above_xg r = 0%float.
Proof.
  intros Hin Hno. apply in_aggregate in Hin as (r0 & _ & Hk & ->).
  rewrite (apply_updates_untouched SkaterStats.key agg_key agg_cond agg_set
             agg_cond_key).
  - split; reflexivity.
  - rewrite player_xg_keys, in_group_keys.
    change (SkaterStats.key (clear_xg r0)) with (SkaterStats.key r0).
    now rewrite Hk.
Qed.

Lemma aggregate_with_shots (shots : list Shots.row)
    (skater_stats : list SkaterStats.row) (r : SkaterStats.row) :
  In r (aggregate_xg_by_player SUM shots skater_stats) ->
  In (SkaterStats.key r) (map shot_key shots) ->
  let mine := shots_of (SkaterStats.key r) shots in
  SkaterStats.xg r = SUM (map Shots.xg mine) /\
  SkaterStats.goals_above_xg r =
    (float_of_Z (Sql.sum_int (map Shots.is_goal mine)) - SUM (map Shots.xg mine))%float.
Proof.
  intros Hin Hk mine. apply in_aggregate in Hin as (r0 & _ & Hk0 & ->).
  set (k := SkaterStats.key
              (Sql.apply_updates agg_cond agg_set (player_xg SUM shots) (clear_xg r0)))
    in *.
  set (row := (k, SUM (map Shots.xg mine), Sql.sum_int (map Shots.is_goal mine),
               Z.of_nat (length mine))).
  assert (Hkey : agg_key row = k) by (unfold row; destruct k as [[? ?] ?]; reflexivity).
  assert (Hrow : In row (player_xg SUM shots)).
  { apply in_player_xg. rewrite Hkey. split; [exact Hk|reflexivity]. }
  rewrite (apply_updates_unique SkaterStats.key agg_key agg_cond agg_set
             agg_cond_key agg_set_key _ row).
  - unfold row. destruct k as [[? ?] ?]. split; reflexivity.
  - apply player_xg_keys_NoDup.
  - exact Hrow.
  - rewrite Hkey. symmetry. exact Hk0.
Qed.
End SkaterTheorems.

Section SkaterClaims.
Variable SUM : list float -> float.
Import xGCalculator.

(** The row the aggregate query computes for one key. *)
Let row_of (shots : list Shots.row) (k : Z * Z * Z) : agg_row :=
  (k, SUM (map Shots.xg (shots_of k shots)),
   Sql.sum_int (map Shots.is_goal (shots_of k shots)),
   Z.of_nat (length (shots_of k shots))).

(** C7: the aggregation groups by (player, team, season).  For a player
    with shots under two different teams in one season, the aggregate
    query yields two distinct rows, one per team and no other for these
    keys; each sums the xg and the goals of that team's shots only.  The
    pass keeps every skater row, in order, and rewrites it from the shots
    of its own key alone; so each skater row of either key is in the
    stored table with its own team's sums, and no stored row of either
    key holds anything else. *)
Theorem aggregation_keeps_teams_apart
    (shots : list Shots.row) (skater_stats : list SkaterStats.row)
    (player team1 team2 season : Z)
    (Hteams : team1 <> team2)
    (H1 : In (player, team1, season) (map shot_key shots))
    (H2 : In (player, team2, season) (map shot_key shots)) :
  let k1 := (player, team1, season) in
  let k2 := (player, team2, season) in
  let sums k r :=
    SkaterStats.set_xg (SUM (map Shots.xg (shots_of k shots)))
      (float_of_Z (Sql.sum_int (map Shots.is_goal (shots_of k shots)))
       - SUM (map Shots.xg (shots_of k shots)))%float r in
  In (row_of shots k1) (player_xg SUM shots) /\
  In (row_of shots k2) (player_xg SUM shots) /\
  row_of shots k1 <> row_of shots k2 /\
  (forall row, In row (player_xg SUM shots) ->
     (agg_key row = k1 -> row = row_of shots k1) /\
     (agg_key row = k2 -> row = row_of shots k2)) /\
  Forall (fun s => Shots.player_id s = player /\ Shots.team_id s = team1 /\
                   Shots.season_id s = season) (shots_of k1 shots) /\
  Forall (fun s => Shots.player_id s = player /\ Shots.team_id s = team2 /\
                   Shots.season_id s = season) (shots_of k2 shots) /\
  aggregate_xg_by_player SUM shots skater_stats =
    map (fun r =>
           match shots_of (SkaterStats.key r) shots with
           | [] => clear_xg r
           | _ :: _ => sums (SkaterStats.key r) r
           end)
        skater_stats /\
  (forall r0, In r0 skater_stats ->
     forall k, (k = k1 \/ k = k2) -> SkaterStats.key r0 = k ->
     In (sums k r0) (aggregate_xg_by_player SUM shots skater_stats)) /\
  (forall r, In r (aggregate_xg_by_player SUM shots skater_stats) ->
     forall k, (k = k1 \/ k = k2) -> SkaterStats.key r = k ->
     SkaterStats.xg r = SUM (map Shots.xg (shots_of k shots)) /\
     SkaterStats.goals_above_xg r =
       (float_of_Z (Sql.sum_int (map Shots.is_goal (shots_of k shots)))
        - SUM (map Shots.xg (shots_of k shots)))%float).
Proof.
  intros k1 k2 sums.
  assert (Hrow : forall k, In k (map shot_key shots) ->
                           In (row_of shots k) (player_xg SUM shots)).
  { intros [[p t] s] Hk. apply in_player_xg. simpl. split; [exact Hk|reflexivity]. }
  assert (Honly : forall row k, In row (player_xg SUM shots) ->
                                agg_key row = k -> row = row_of shots k).
  { intros row k Hin <-. apply in_player_xg in Hin as [_ Hin]. exact Hin. }
  assert (Hmine : forall p t s,
             Forall (fun sh => Shots.player_id sh = p /\ Shots.team_id sh = t /\
                               Shots.season_id sh = s) (shots_of (p, t, s) shots)).
  { intros p t s. apply List.Forall_forall. intros sh Hsh.
    apply filter_In in Hsh as [_ Hsh]. apply bool_decide_eq_true in Hsh.
    unfold shot_key in Hsh. inversion Hsh. auto. }
  assert (Htable : aggregate_xg_by_player SUM shots skater_stats =
                   map (fun r =>
                          match shots_of (SkaterStats.key r) shots with
                          | [] => clear_xg r
                          | _ :: _ => sums (SkaterStats.key r) r
                          end)
                       skater_stats).
  { rewrite aggregate_by_row. apply map_ext. intros r. unfold sums.
    destruct (shots_of (SkaterStats.key r) shots); reflexivity. }
  split; [apply Hrow; exact H1|].
  split; [apply Hrow; exact H2|].
  split.
  { intros Heq. apply Hteams. unfold row_of, k1, k2 in Heq. now inversion Heq. }
  split; [intros row Hin; split; apply Honly; exact Hin|].
  split; [apply Hmine|]. split; [apply Hmine|].
  split; [exact Htable|].
  split.
  - intros r0 Hr0 k Hk Hkey. rewrite Htable. apply in_map_iff. exists r0.
    split; [|exact Hr0]. rewrite Hkey.
    assert (Hin : In k (map shot_key shots)) by (destruct Hk as [-> | ->]; assumption).
    apply shots_of_nonempty in Hin.
    destruct (shots_of k shots); [contradiction|reflexivity].
  - intros r Hr k Hk Hkey. rewrite <- Hkey.
    apply (aggregate_with_shots SUM shots skater_stats r Hr).
    rewrite Hkey. destruct Hk as [-> | ->]; assumption.
Qed.

End SkaterClaims.

(** On the sample: player 10 has shots for teams 1 and 3 in season 5; the
    two skater rows of player 10 are in the stored table, each with the
    sums of its own team's shots. *)
Lemma aggregation_keeps_teams_apart_witness :
  let after :=
    xGCalculator.aggregate_xg_by_player Sql.sum_left Sample.shots
      Sample.skater_stats in
  (1 <> 3) /\
  In (10, 1, 5) (map xGCalculator.shot_key Sample.shots) /\
  In (10, 3, 5) (map xGCalculator.shot_key Sample.shots) /\
  In (SkaterStats.mk 10 1 5 2 1 (0 + 0.102 + 0.25) (1 - (0 + 0.102 + 0.25))) after /\
  In (SkaterStats.mk 10 3 5 1 0 (0 + 0.04) (0 - (0 + 0.04))) after /\
  length after = length Sample.skater_stats.
Proof.
  intros after.
  assert (Ht : (1 : Z) <> 3) by lia.
  assert (H1 : In (10, 1, 5) (map xGCalculator.shot_key Sample.shots))
    by (simpl; auto).
  assert (H2 : In (10, 3, 5) (map xGCalculator.shot_key Sample.shots))
    by (simpl; auto).
  split; [exact Ht|]. split; [exact H1|]. split; [exact H2|].
  destruct (aggregation_keeps_teams_apart Sql.sum_left Sample.shots
              Sample.skater_stats 10 1 3 5 Ht H1 H2)
    as (_ & _ & _ & _ & _ & _ & Htable & Hin & _).
  split; [|split].
  - exact (Hin (SkaterStats.mk 10 1 5 2 1 0 0) (or_introl eq_refl)
             (10, 1, 5) (or_introl eq_refl) eq_refl).
  - exact (Hin (SkaterStats.mk 10 3 5 1 0 0 0) (or_intror (or_introl eq_refl))
             (10, 3, 5) (or_intror eq_refl) eq_refl).
  - unfold after. rewrite Htable. apply length_map.
Defined.

(** The two rows of player 10 on the sample, and the sums they receive. *)
Example aggregate_sample :
  map (fun r => (SkaterStats.key r, SkaterStats.xg r, SkaterStats.goals_above_xg r))
      (xGCalculator.aggregate_xg_by_player Sql.sum_left Sample.shots
         Sample.skater_stats) =
  [ ((10, 1, 5), (0 + 0.102 + 0.25)%float, (1 - (0 + 0.102 + 0.25))%float);
    ((10, 3, 5), (0 + 0.04)%float, (0 - (0 + 0.04))%float);
    ((11, 2, 5), (0 + 0.12 * 1.0 * 1.15)%float, (1 - (0 + 0.12 * 1.0 * 1.15))%float);
    ((12, 1, 8), 0%float, 0%float) ].
Proof. vm_compute. reflexivity. Qed.


(** ** The goalie passes *)

Lemma NoDup_map_inj {A B} (f : A -> B) (l : list A) :
  (forall x y, f x = f y -> x = y) -> List.NoDup l -> List.NoDup (map f l).
Proof.
  intros Hinj Hnd. induction Hnd as [|x l Hx Hnd IH]; simpl; constructor; auto.
  intros Hin. apply in_map_iff in Hin as (y & Hxy & Hy).
  apply Hinj in Hxy. subst. contradiction.
Qed.

Lemma NoDup_map_filter {A B} (f : A -> B) (c : A -> bool) (l : list A) :
  List.NoDup (map f l) -> List.NoDup (map f (List.filter c l)).
Proof.
  induction l as [|x l IH]; simpl; intros Hnd; [constructor|].
  inversion Hnd as [|? ? Hx Hnd']; subst.
  destruct (c x); simpl; [constructor|]; auto.
  intros Hin. apply Hx. apply in_map_iff in Hin as (y & Hxy & Hy).
  apply filter_In in Hy as [Hy _]. rewrite <- Hxy. now apply in_map.
Qed.

Lemma filter_filter_andb {A} (f g : A -> bool) (l : list A) :
  List.filter f (List.filter g l) = List.filter (fun x => g x && f x) l.
Proof.
  induction l as [|x l IH]; simpl; [reflexivity|].
  destruct (g x); simpl; [destruct (f x)|]; now rewrite IH.
Qed.

Section GoalieLemmas.
Variable SUM : list float -> float.
Import GSAxCalculator.

Lemma gsax_cond_key (p : update_row) (r : GoalieStats.row) :
  gsax_cond p r = true <-> row_key r = update_key p.
Proof.
  destruct p as [[[v g] t] s]. unfold gsax_cond, update_key, row_key.
  rewrite !andb_true_iff. destruct g as [g|].
  - rewrite !Z.eqb_eq. split.
    + intros [[-> ->] ->]. reflexivity.
    + intros H. inversion H. auto.
  - split; [intros [[H _] _]; discriminate H|intros H; discriminate H].
Qed.

Lemma gsax_set_key (p : update_row) (r : GoalieStats.row) :
  row_key (gsax_set p r) = row_key r.
Proof. destruct p as [[[v g] t] s]. reflexivity. Qed.

Lemma gsax_cond_set (p q : update_row) (r : GoalieStats.row) :
  gsax_cond p (gsax_set q r) = gsax_cond p r.
Proof. destruct p as [[[? ?] ?] ?], q as [[[? ?] ?] ?]. reflexivity. Qed.

Lemma gsax_set_set (p q : update_row) (r : GoalieStats.row) :
  gsax_set p (gsax_set q r) = gsax_set p r.
Proof. destruct p as [[[? ?] ?] ?], q as [[[? ?] ?] ?]. reflexivity. Qed.

Lemma update_gsax_eq (p : update_row) (t : list GoalieStats.row) :
  update_gsax p t = Sql.update (gsax_cond p) (gsax_set p) t.
Proof. destruct p as [[[? ?] ?] ?]. reflexivity. Qed.

Lemma executemany_gsax (ps : list update_row) (t : list GoalieStats.row) :
  Sql.executemany update_gsax ps t =
  map (Sql.apply_updates gsax_cond gsax_set ps) t.
Proof. apply executemany_rows, update_gsax_eq. Qed.

(** The passes only ever write the gsax column. *)
Lemma base_facts_apply (ps : list update_row) (r : GoalieStats.row) :
  base_facts (Sql.apply_updates gsax_cond gsax_set ps r) = base_facts r.
Proof.
  rewrite (apply_updates_last gsax_cond gsax_set gsax_cond_set gsax_set_set).
  destruct (Sql.last_match gsax_cond ps r None) as [[[[? ?] ?] ?]|]; reflexivity.
Qed.

Lemma base_facts_executemany (ps : list update_row) (t : list GoalieStats.row) :
  map base_facts (Sql.executemany update_gsax ps t) = map base_facts t.
Proof.
  rewrite executemany_gsax, map_map. apply map_ext, base_facts_apply.
Qed.


(** The estimate reads the base facts only. *)
Lemma filter_base_facts (c : GoalieStats.row -> bool) (t : list GoalieStats.row) :
  (forall r, c (base_facts r) = c r) ->
  List.filter c (map base_facts t) = map base_facts (List.filter c t).
Proof.
  intros Hc. induction t as [|r t IH]; simpl; [reflexivity|].
  rewrite Hc. destruct (c r); simpl; now rewrite IH.
Qed.

Lemma league_avg_base_facts (t : list GoalieStats.row) :
  league_avg_sv_pct SUM (map base_facts t) = league_avg_sv_pct SUM t.
Proof.
  unfold league_avg_sv_pct.
  rewrite filter_base_facts by reflexivity. now rewrite map_map.
Qed.

Lemma season_8_updates_base_facts (t : list GoalieStats.row) :
  season_8_updates SUM (map base_facts t) = season_8_updates SUM t.
Proof.
  unfold season_8_updates. rewrite league_avg_base_facts.
  rewrite filter_base_facts by reflexivity.
  generalize (List.filter
                (fun r => (GoalieStats.season_id r =? 8)
                          && (GoalieStats.shots_against r >? 0)) t).
  intros l. induction l as [|r l IH]; simpl; [reflexivity|]. now rewrite IH.
Qed.

Lemma season_8_updates_same_base (t t' : list GoalieStats.row) :
  map base_facts t = map base_facts t' ->
  season_8_updates SUM t = season_8_updates SUM t'.
Proof.
  intros H. rewrite <- (season_8_updates_base_facts t), H.
  apply season_8_updates_base_facts.
Qed.




End GoalieLemmas.

Section GoalieValues.
Variable SUM : list float -> float.
Import GSAxCalculator.

Lemma shots_faced_groups (goalie team season : Z) (shots : list Shots.row) :
  List.filter (fun s => bool_decide (goalie_key s = (Some goalie, team)))
    (List.filter (faced_in_season season) shots) =
  shots_faced goalie team season shots.
Proof.
  rewrite filter_filter_andb. apply filter_ext. intros s.
  unfold faced_in_season, goalie_key.
  destruct (Shots.goalie_id s) as [g|]; simpl.
  - destruct (Z.eqb_spec (Shots.season_id s) season),
      (Z.eqb_spec (Shots.opponent_team_id s) team);
      repeat case_bool_decide; simpl; try reflexivity; congruence.
  - repeat case_bool_decide; simpl; try reflexivity; congruence.
Qed.

Lemma shot_updates_keys (season : Z) (shots : list Shots.row) :
  map update_key (shot_updates SUM season shots) =
  map (fun k : option Z * Z => (fst k, snd k, season))
      (map fst (Sql.group_by goalie_key
                  (List.filter (faced_in_season season) shots))).
Proof.
  unfold shot_updates, goalie_data. rewrite !map_map. apply map_ext.
  intros [[g t] grp]. reflexivity.
Qed.

Lemma shot_updates_NoDup (season : Z) (shots : list Shots.row) :
  List.NoDup (map update_key (shot_updates SUM season shots)).
Proof.
  rewrite shot_updates_keys. apply NoDup_map_inj.
  - intros [a b] [c d] H. simpl in H. now inversion H.
  - apply group_by_keys_NoDup.
Qed.

Lemma in_goalie_stats_after (ps : list update_row)
    (goalie_stats : list GoalieStats.row) (r : GoalieStats.row) :
  In r (Sql.executemany update_gsax ps goalie_stats) ->
  exists r0, In r0 goalie_stats /\ base_facts r0 = base_facts r /\
    r = Sql.apply_updates gsax_cond gsax_set ps r0.
Proof.
  rewrite executemany_gsax, in_map_iff. intros (r0 & <- & Hin).
  exists r0. split; [exact Hin|]. split; [|reflexivity].
  now rewrite base_facts_apply.
Qed.

Lemma base_facts_columns (r r0 : GoalieStats.row) :
  base_facts r0 = base_facts r ->
  GoalieStats.player_id r0 = GoalieStats.player_id r /\
  GoalieStats.team_id r0 = GoalieStats.team_id r /\
  GoalieStats.season_id r0 = GoalieStats.season_id r /\
  GoalieStats.shots_against r0 = GoalieStats.shots_against r /\
  GoalieStats.goals_against r0 = GoalieStats.goals_against r.
Proof. destruct r, r0. unfold base_facts. simpl. intros H. now inversion H. Qed.

(** With shot-level data: expected goals against minus goals allowed,
    both summed over the shots the goalie faced for that team. *)
Lemma gsax_from_shots_value (season : Z) (shots : list Shots.row)
    (goalie_stats : list GoalieStats.row) (r : GoalieStats.row) :
  In r (calculate_gsax_from_shots SUM season shots goalie_stats) ->
  GoalieStats.season_id r = season ->
  let faced :=
    shots_faced (GoalieStats.player_id r) (GoalieStats.team_id r) season shots in
  faced <> [] ->
  GoalieStats.gsax r =
    (SUM (map Shots.xg faced) - float_of_Z (Sql.sum_int (map Shots.is_goal faced)))%float.
Proof.
  intros Hin Hseason faced Hfaced.
  apply in_goalie_stats_after in Hin as (r0 & _ & Hbase & ->).
  apply base_facts_columns in Hbase as (Hp & Ht & Hs & _).
  set (r := Sql.apply_updates gsax_cond gsax_set (shot_updates SUM season shots) r0)
    in *.
  set (g := GoalieStats.player_id r) in *. set (t := GoalieStats.team_id r) in *.
  set (p := ((SUM (map Shots.xg faced)
              - float_of_Z (Sql.sum_int (map Shots.is_goal faced)))%float,
             Some g, t, season) : update_row).
  assert (Hp_in : In p (shot_updates SUM season shots)).
  { unfold shot_updates, goalie_data. rewrite map_map. apply in_map_iff.
    exists ((Some g, t), faced). split; [reflexivity|].
    apply in_group_by. split.
    - destruct faced as [|s l] eqn:Hl; [contradiction|].
      assert (Hs_in : In s (shots_faced g t season shots))
        by (fold faced; rewrite Hl; now left).
      rewrite <- shots_faced_groups in Hs_in.
      apply filter_In in Hs_in as [Hs_in Hk]. apply bool_decide_eq_true in Hk.
      rewrite <- Hk. now apply in_map.
    - unfold faced. now rewrite shots_faced_groups. }
  assert (Heq : r = gsax_set p r0).
  { apply (apply_updates_unique row_key update_key gsax_cond gsax_set
             gsax_cond_key gsax_set_key).
    - apply shot_updates_NoDup.
    - exact Hp_in.
    - unfold p, row_key. simpl. now rewrite Hp, Ht, Hs, Hseason. }
  rewrite Heq. reflexivity.
Qed.
End GoalieValues.

Section GoalieEstimate.
Variable SUM : list float -> float.
Import GSAxCalculator.

(** The statement the estimate issues for one season-8 goalie. *)
Let estimate_of (goalie_stats : list GoalieStats.row) (r : GoalieStats.row)
    : update_row :=
  ((float_of_Z (GoalieStats.shots_against r)
    * (1 - league_avg_sv_pct SUM goalie_stats)
    - float_of_Z (GoalieStats.goals_against r))%float,
   Some (GoalieStats.player_id r), GoalieStats.team_id r, GoalieStats.season_id r).

Let selected (r : GoalieStats.row) : bool :=
  (GoalieStats.season_id r =? 8) && (GoalieStats.shots_against r >? 0).

(** The [shots == 0] test of the loop never fires: the query has
    already kept the rows with shots_against > 0 only. *)
Lemma season_8_updates_map (goalie_stats : list GoalieStats.row) :
  season_8_updates SUM goalie_stats =
  map (estimate_of goalie_stats) (List.filter selected goalie_stats).
Proof.
  unfold season_8_updates. fold selected.
  assert (Hsel : forall r, In r (List.filter selected goalie_stats) ->
                           (GoalieStats.shots_against r =? 0) = false).
  { intros r Hr. apply filter_In in Hr as [_ Hr]. unfold selected in Hr.
    apply andb_true_iff in Hr as [_ Hr]. apply Z.gtb_lt in Hr.
    apply Z.eqb_neq. lia. }
  induction (List.filter selected goalie_stats) as [|r l IH]; simpl;
    [reflexivity|].
  rewrite (Hsel r) by now left. simpl. f_equal.
  apply IH. intros r' Hr'. apply Hsel. now right.
Qed.

Lemma season_8_updates_NoDup (goalie_stats : list GoalieStats.row) :
  List.NoDup (map GoalieStats.key goalie_stats) ->
  List.NoDup (map update_key (season_8_updates SUM goalie_stats)).
Proof.
  intros Hnd. rewrite season_8_updates_map, map_map.
  change (fun x => update_key (estimate_of goalie_stats x)) with row_key.
  apply NoDup_map_filter.
  replace (map row_key goalie_stats)
    with (map (fun k : Z * Z * Z => (Some (fst (fst k)), snd (fst k), snd k))
              (map GoalieStats.key goalie_stats))
    by (rewrite map_map; reflexivity).
  apply NoDup_map_inj; [|exact Hnd].
  intros [[a b] c] [[a' b'] c'] H. simpl in H. now inversion H.
Qed.

(** Without shot-level data: expected goals against at the league
    average save percentage, minus the goals against on record. *)
Lemma gsax_estimate_value (goalie_stats : list GoalieStats.row)
    (r : GoalieStats.row) :
  List.NoDup (map GoalieStats.key goalie_stats) ->
  In r (estimate_gsax_for_season_8 SUM goalie_stats) ->
  GoalieStats.season_id r = 8 ->
  GoalieStats.shots_against r > 0 ->
  GoalieStats.gsax r =
    (float_of_Z (GoalieStats.shots_against r)
     * (1 - league_avg_sv_pct SUM goalie_stats)
     - float_of_Z (GoalieStats.goals_against r))%float.
Proof.
  intros Hnd Hin Hseason Hshots.
  apply in_goalie_stats_after in Hin as (r0 & Hr0 & Hbase & ->).
  apply base_facts_columns in Hbase as (Hp & Ht & Hs & Hsa & Hga).
  rewrite <- Hsa, <- Hga. rewrite <- Hs in Hseason. rewrite <- Hsa in Hshots.
  rewrite (apply_updates_unique row_key update_key gsax_cond gsax_set
             gsax_cond_key gsax_set_key _ (estimate_of goalie_stats r0)).
  - reflexivity.
  - now apply season_8_updates_NoDup.
  - rewrite season_8_updates_map. apply in_map. apply filter_In.
    split; [exact Hr0|]. unfold selected.
    apply andb_true_iff. split; [now apply Z.eqb_eq|apply Z.gtb_lt; lia].
  - reflexivity.
Qed.

End GoalieEstimate.

(** ** Team Corsi and PDO *)

Lemma for_each_total {A S} (body : S -> A -> result S) (f : S -> A -> S)
    (xs : list A) (s : S) :
  (forall s x, body s x = Ok (f s x)) ->
  for_each body xs s = Ok (fold_left f xs s).
Proof.
  intros Hbody. revert s. induction xs as [|x xs IH]; intros s; simpl;
    [reflexivity|].
  rewrite Hbody. simpl. apply IH.
Qed.

Lemma fold_left_guarded {A B} (g : B -> bool) (u : B -> A -> A) (l : list B) (a : A) :
  fold_left (fun a b => if g b then u b a else a) l a =
  fold_left (fun a b => u b a) (List.filter g l) a.
Proof.
  revert a. induction l as [|b l IH]; intros a; simpl; [reflexivity|].
  destruct (g b); simpl; apply IH.
Qed.

Section TeamPasses.
Import AdvancedStatsCalculator.
Variables (season : Z) (shots : list Shots.row).


(** The guarded division of line 147 never divides by zero. *)
Lemma corsi_pct_of_total (cf ca : Z) :
  corsi_pct_of cf ca =
  Ok (if cf + ca >? 0
      then (100.0 * float_of_Z cf / float_of_Z (cf + ca))%float
      else 50%float).
Proof.
  unfold corsi_pct_of, truediv_int.
  destruct (Z.gtb_spec (cf + ca) 0) as [Hpos|Hle]; [|reflexivity].
  destruct (Z.eqb_spec (cf + ca) 0) as [H0|_]; [lia|reflexivity].
Qed.

(** Nor do the guarded divisions of lines 337-338. *)
Lemma pdo_of_total (gf ga sf sa : Z) :
  pdo_of gf ga sf sa = Ok (pdo_value gf ga sf sa).
Proof.
  unfold pdo_of, pdo_value, truediv_int.
  destruct (Z.gtb_spec sf 0) as [Hsf|Hsf], (Z.gtb_spec sa 0) as [Hsa|Hsa];
    try (destruct (Z.eqb_spec sf 0); [lia|]);
    try (destruct (Z.eqb_spec sa 0); [lia|]); reflexivity.
Qed.

Lemma same_team_season_key (team : Z) (r : TeamStats.row) :
  same_team_season team season r = true <-> TeamStats.key r = (team, season).
Proof.
  unfold same_team_season, TeamStats.key. rewrite andb_true_iff, !Z.eqb_eq.
  split; [intros [-> ->]; reflexivity|intros H; now inversion H].
Qed.

Lemma calculate_team_corsi_fenwick_total (team_stats : list TeamStats.row) :
  calculate_team_corsi_fenwick season shots team_stats =
  Ok (map (Sql.apply_updates (fun team => same_team_season team season)
             (corsi_set season shots) teams)
          team_stats).
Proof.
  unfold calculate_team_corsi_fenwick.
  rewrite (for_each_total _
             (fun t team => Sql.update (same_team_season team season)
                              (corsi_set season shots team) t)).
  - f_equal.
    apply (executemany_rows (fun team => same_team_season team season)
             (corsi_set season shots)
             (fun team t => Sql.update (same_team_season team season)
                              (corsi_set season shots team) t)).
    reflexivity.
  - intros t team. rewrite corsi_pct_of_total. reflexivity.
Qed.

Lemma calculate_team_pdo_total (team_stats : list TeamStats.row) :
  calculate_team_pdo season shots team_stats =
  Ok (map (Sql.apply_updates
             (fun row => same_team_season (TeamStats.team_id row) season)
             (pdo_set season shots)
             (List.filter
                (fun row => has_both_shot_counts (TeamStats.team_id row) season shots)
                (List.filter (fun r => TeamStats.season_id r =? season) team_stats)))
          team_stats).
Proof.
  unfold calculate_team_pdo.
  rewrite (for_each_total _
             (fun t row =>
                if has_both_shot_counts (TeamStats.team_id row) season shots
                then Sql.update (same_team_season (TeamStats.team_id row) season)
                       (pdo_set season shots row) t
                else t)).
  - f_equal. rewrite fold_left_guarded.
    apply (executemany_rows
             (fun row => same_team_season (TeamStats.team_id row) season)
             (pdo_set season shots)
             (fun row t => Sql.update
                             (same_team_season (TeamStats.team_id row) season)
                             (pdo_set season shots row) t)).
    reflexivity.
  - intros t row. unfold has_both_shot_counts.
    destruct (negb _ && negb _); [|reflexivity].
    rewrite pdo_of_total. reflexivity.
Qed.
End TeamPasses.

Lemma NoDup_map_unique {A B} (f : A -> B) (l : list A) (a b : A) :
  List.NoDup (map f l) -> In a l -> In b l -> f a = f b -> a = b.
Proof.
  induction l as [|x l IH]; simpl; intros Hnd Ha Hb Hab; [contradiction|].
  inversion Hnd as [|? ? Hx Hnd']; subst.
  destruct Ha as [->|Ha], Hb as [->|Hb]; auto.
  - exfalso. apply Hx. rewrite Hab. now apply in_map.
  - exfalso. apply Hx. rewrite <- Hab. now apply in_map.
Qed.

Section TeamClaims.
Import AdvancedStatsCalculator.
Variables (season : Z) (shots : list Shots.row).

Lemma corsi_row (team_stats : list TeamStats.row) (r : TeamStats.row) :
  In r (map (Sql.apply_updates (fun team => same_team_season team season)
               (corsi_set season shots) teams) team_stats) ->
  TeamStats.season_id r = season ->
  In (TeamStats.team_id r) teams ->
  exists r1, In r1 team_stats /\
             r = corsi_set season shots (TeamStats.team_id r) r1.
Proof.
  rewrite in_map_iff. intros (r1 & <- & Hin) Hseason Hteam.
  exists r1. split; [exact Hin|].
  assert (Hkey : forall r', TeamStats.key
                   (Sql.apply_updates (fun team => same_team_season team season)
                      (corsi_set season shots) teams r') = TeamStats.key r').
  { intros r'. apply (apply_updates_key TeamStats.key). reflexivity. }
  assert (Ht := f_equal fst (Hkey r1)). assert (Hs := f_equal snd (Hkey r1)).
  unfold TeamStats.key in Ht, Hs. cbn [fst snd] in Ht, Hs.
  rewrite Ht in *. rewrite Hs in Hseason.
  apply (apply_updates_unique TeamStats.key (fun team => (team, season))
           (fun team => same_team_season team season) (corsi_set season shots)).
  - intros p r'. apply same_team_season_key.
  - reflexivity.
  - unfold teams. simpl. repeat constructor; simpl; intuition discriminate.
  - exact Hteam.
  - unfold TeamStats.key. now rewrite Hseason.
Qed.

Lemma pdo_row (team_stats : list TeamStats.row) (r0 r : TeamStats.row) :
  List.NoDup (map TeamStats.key team_stats) ->
  In r0 team_stats ->
  TeamStats.season_id r0 = season ->
  In r (map (Sql.apply_updates
               (fun row => same_team_season (TeamStats.team_id row) season)
               (pdo_set season shots)
               (List.filter
                  (fun row => has_both_shot_counts (TeamStats.team_id row) season shots)
                  (List.filter (fun r => TeamStats.season_id r =? season) team_stats)))
            team_stats) ->
  TeamStats.key r = TeamStats.key r0 ->
  r = if has_both_shot_counts (TeamStats.team_id r0) season shots
      then pdo_set season shots r0 r0 else r0.
Proof.
  intros Hnd Hr0 Hseason Hin Hkey.
  set (ps := List.filter _ (List.filter _ team_stats)) in *.
  set (cond := fun row : TeamStats.row => same_team_season (TeamStats.team_id row) season)
    in *.
  set (keyP := fun row : TeamStats.row => (TeamStats.team_id row, season)).
  assert (Hck : forall p r', cond p r' = true <-> TeamStats.key r' = keyP p)
    by (intros p r'; apply same_team_season_key).
  assert (Hps : forall p, In p ps ->
            In p team_stats /\ keyP p = TeamStats.key p /\
            has_both_shot_counts (TeamStats.team_id p) season shots = true).
  { intros p Hp. apply filter_In in Hp as [Hp Hg]. apply filter_In in Hp as [Hp Hs].
    apply Z.eqb_eq in Hs. unfold keyP, TeamStats.key. rewrite Hs. auto. }
  apply in_map_iff in Hin as (r1 & <- & Hr1).
  rewrite (apply_updates_key TeamStats.key cond (pdo_set season shots)) in Hkey
    by reflexivity.
  assert (r1 = r0) by (eapply NoDup_map_unique; eassumption). subst r1.
  destruct (has_both_shot_counts (TeamStats.team_id r0) season shots) eqn:Hg.
  - apply (apply_updates_unique TeamStats.key keyP cond (pdo_set season shots) Hck).
    + reflexivity.
    + replace (map keyP ps) with (map TeamStats.key ps).
      * unfold ps. now do 2 apply NoDup_map_filter.
      * apply map_ext_in. intros p Hp. symmetry. apply Hps, Hp.
    + unfold ps. apply filter_In. split; [|exact Hg].
      apply filter_In. split; [exact Hr0|now apply Z.eqb_eq].
    + unfold keyP, TeamStats.key. now rewrite Hseason.
  - apply (apply_updates_untouched TeamStats.key keyP cond (pdo_set season shots) Hck).
    intros Hin. apply in_map_iff in Hin as (p & Hp & Hp_in).
    destruct (Hps p Hp_in) as (Hp_ts & Hpk & Hpg).
    assert (p = r0).
    { eapply NoDup_map_unique; try eassumption. congruence. }
    subst p. congruence.
Qed.
End TeamClaims.


(** ** The batch scorer and the script [calculate_xg.py] *)

Lemma score_in_range (shot_type quality x is_goal : option Z) (y : Z) (v : float) :
  XG.calculate_xg shot_type quality x (Some y) is_goal = Ok v ->
  (0 <=? v)%float = true /\ (v <=? 0.25)%float = true.
Proof.
  rewrite calculate_xg_int. intros H. apply Ok_inj in H. subst v.
  pose proof (type_mult_cases shot_type) as Ht.
  pose proof (quality_mult_cases quality) as Hq.
  simpl in Ht, Hq.
  destruct ((y <? 100) || (y >? 200));
    destruct Ht as [<-|[<-|[<-|[<-|[<-|[]]]]]];
    destruct Hq as [<-|[<-|[<-|[]]]];
    vm_compute; split; reflexivity.
Qed.

Lemma shot_score_value (s : Shots.row) :
  Shots.y_location s <> None -> xGRun.shot_score s = Ok (xGRun.score_value s).
Proof.
  intros Hy. unfold xGRun.score_value, xGRun.shot_score.
  destruct (Shots.y_location s) as [y|]; [|contradiction].
  now rewrite calculate_xg_int.
Qed.

Lemma score_value_in_range (s : Shots.row) :
  (0 <=? xGRun.score_value s)%float = true /\
  (xGRun.score_value s <=? 0.25)%float = true.
Proof.
  unfold xGRun.score_value, xGRun.shot_score.
  destruct (Shots.y_location s) as [y|].
  - rewrite calculate_xg_int.
    apply (score_in_range (Shots.shot_type s) (Shots.quality s)
             (Shots.x_location s) (Some (Shots.is_goal s)) y).
    apply calculate_xg_int.
  - vm_compute. split; reflexivity.
Qed.

Lemma scoring_loop_ok (shots : list Shots.row) (updates : list (float * Z)) :
  Forall (fun s => Shots.y_location s <> None) shots ->
  for_each
    (fun updates shot =>
       xg ← XG.calculate_xg (Shots.shot_type shot) (Shots.quality shot)
              (Shots.x_location shot) (Shots.y_location shot)
              (Some (Shots.is_goal shot));
       Ok (updates ++ [(xg, Shots.id shot)]))
    shots updates =
  Ok (updates ++ map (fun s => (xGRun.score_value s, Shots.id s)) shots).
Proof.
  intros Hall. revert updates.
  induction Hall as [|s l Hs Hall IH]; intros updates; cbn [for_each map].
  - now rewrite app_nil_r.
  - pose proof (shot_score_value s Hs) as Hv. unfold xGRun.shot_score in Hv.
    rewrite Hv. cbn [mbind result_bind]. rewrite IH, <- app_assoc. reflexivity.
Qed.

Lemma null_location_or_not (shots : list Shots.row) :
  Exists (fun s => Shots.y_location s = None) shots \/
  Forall (fun s => Shots.y_location s <> None) shots.
Proof.
  induction shots as [|s l [IH|IH]].
  - right. constructor.
  - left. now constructor 2.
  - destruct (Shots.y_location s) eqn:Hy.
    + right. constructor; [congruence|exact IH].
    + left. now constructor 1.
Qed.

(** The table written by a batch that went through. *)
Lemma calculate_shot_xg_ok (shots : list Shots.row) :
  shots <> [] ->
  Forall (fun s => Shots.y_location s <> None) shots ->
  xGCalculator.calculate_shot_xg shots =
  Ok (map (Sql.apply_updates xGCalculator.score_cond xGCalculator.score_set
             (map (fun s => (xGRun.score_value s, Shots.id s)) shots))
          shots).
Proof.
  intros Hne Hall. rewrite calculate_shot_xg_steps.
  rewrite (scoring_loop_ok shots [] Hall). cbn [mbind result_bind app].
  destruct shots as [|s l]; [contradiction|reflexivity].
Qed.

(** On an empty table the display of line 125 formats a NULL average. *)
Lemma calculate_shot_xg_empty :
  xGCalculator.calculate_shot_xg [] = Raise TypeError.
Proof. reflexivity. Qed.

Lemma calculate_shot_xg_ok_inv (shots t : list Shots.row) :
  xGCalculator.calculate_shot_xg shots = Ok t ->
  shots <> [] /\ Forall (fun s => Shots.y_location s <> None) shots.
Proof.
  intros Hok. split.
  - intros ->. rewrite calculate_shot_xg_empty in Hok. discriminate Hok.
  - destruct (null_location_or_not shots) as [Hex|Hall]; [|exact Hall].
    rewrite (calculate_shot_xg_aborts shots Hex) in Hok. discriminate Hok.
Qed.

(** X1: the batch scorer fails in exactly two cases, both with a
    [TypeError]: when some shot has no y-coordinate (the scorer raises
    before anything is written), and when the shots table is empty (the
    display of line 125 formats a NULL average).  On a non-empty table
    whose shots all have a y-coordinate it returns a table with as many
    rows.  No other exception is possible. *)
Theorem calculate_shot_xg_raises_iff (shots : list Shots.row) :
  ((shots = [] \/ Exists (fun s => Shots.y_location s = None) shots) /\
   xGCalculator.calculate_shot_xg shots = Raise TypeError) \/
  (shots <> [] /\ Forall (fun s => Shots.y_location s <> None) shots /\
   exists t, xGCalculator.calculate_shot_xg shots = Ok t /\
             length t = length shots).
Proof.
  destruct (null_location_or_not shots) as [Hex|Hall].
  - left. split; [now right|now apply calculate_shot_xg_aborts].
  - destruct shots as [|s l].
    + left. split; [now left|reflexivity].
    + right. split; [discriminate|]. split; [exact Hall|]. eexists. split.
      * apply calculate_shot_xg_ok; [discriminate|exact Hall].
      * now rewrite length_map.
Qed.

Lemma last_match_cases {R P} (cond : P -> R -> bool) (ps : list P) (r : R)
    (acc : option P) :
  (Sql.last_match cond ps r acc = acc /\ forall p, In p ps -> cond p r = false) \/
  (exists p, Sql.last_match cond ps r acc = Some p /\ In p ps /\ cond p r = true).
Proof.
  unfold Sql.last_match. revert acc.
  induction ps as [|q ps IH]; intros acc; simpl.
  - left. split; [reflexivity|intros p []].
  - destruct (cond q r) eqn:Hq.
    + destruct (IH (Some q)) as [[Heq Hnone]|(p & Heq & Hin & Hc)].
      * right. exists q. rewrite Heq. auto.
      * right. exists p. auto.
    + destruct (IH acc) as [[Heq Hnone]|(p & Heq & Hin & Hc)].
      * left. split; [exact Heq|]. intros p [<-|Hp]; auto.
      * right. exists p. auto.
Qed.

Lemma score_cond_set (p q : float * Z) (r : Shots.row) :
  xGCalculator.score_cond p (xGCalculator.score_set q r) = xGCalculator.score_cond p r.
Proof. destruct p, q. reflexivity. Qed.

Lemma score_set_set (p q : float * Z) (r : Shots.row) :
  xGCalculator.score_set p (xGCalculator.score_set q r) = xGCalculator.score_set p r.
Proof. destruct p, q. reflexivity. Qed.

(** A scored row is its own shot with the score of some shot of the table
    that has the same id. *)
Lemma apply_scores_row (shots : list Shots.row) (s : Shots.row) :
  In s shots ->
  exists s', In s' shots /\ Shots.id s' = Shots.id s /\
    Sql.apply_updates xGCalculator.score_cond xGCalculator.score_set
      (map (fun s => (xGRun.score_value s, Shots.id s)) shots) s =
    Shots.set_xg (xGRun.score_value s') s.
Proof.
  intros Hs.
  rewrite (apply_updates_last _ _ score_cond_set score_set_set).
  destruct (last_match_cases xGCalculator.score_cond
              (map (fun s => (xGRun.score_value s, Shots.id s)) shots) s None)
    as [[_ Hnone]|(p & -> & Hin & Hc)].
  - specialize (Hnone (xGRun.score_value s, Shots.id s)
                  (in_map (fun s => (xGRun.score_value s, Shots.id s)) shots s Hs)).
    simpl in Hnone. rewrite Z.eqb_refl in Hnone. discriminate Hnone.
  - apply in_map_iff in Hin as (s' & <- & Hs').
    exists s'. split; [exact Hs'|]. simpl in Hc. apply Z.eqb_eq in Hc.
    split; [now symmetry|reflexivity].
Qed.

(** X2: when the batch returns, it has kept every row and every column
    but xg, and every stored xg lies in the closed interval [0, 0.25],
    whether or not the shot ids are distinct. *)
Theorem calculate_shot_xg_range (shots t : list Shots.row)
    (Hok : xGCalculator.calculate_shot_xg shots = Ok t) :
  map (Shots.set_xg 0) t = map (Shots.set_xg 0) shots /\
  Forall (fun r => (0 <=? Shots.xg r)%float = true /\
                   (Shots.xg r <=? 0.25)%float = true) t.
Proof.
  pose proof (calculate_shot_xg_ok_inv shots t Hok) as [Hne Hall].
  rewrite (calculate_shot_xg_ok shots Hne Hall) in Hok. apply Ok_inj in Hok. subst t.
  split.
  - rewrite map_map. apply map_ext_in. intros s Hs.
    destruct (apply_scores_row shots s Hs) as (s' & _ & _ & ->). reflexivity.
  - apply List.Forall_forall. intros r Hr. apply in_map_iff in Hr as (s & <- & Hs).
    destruct (apply_scores_row shots s Hs) as (s' & _ & _ & ->).
    apply score_value_in_range.
Qed.

Lemma calculate_shot_xg_range_witness :
  exists t, xGCalculator.calculate_shot_xg Sample.shots = Ok t /\
    map (Shots.set_xg 0) t = map (Shots.set_xg 0) Sample.shots /\
    Forall (fun r => (0 <=? Shots.xg r)%float = true /\
                     (Shots.xg r <=? 0.25)%float = true) t.
Proof.
  eexists. split; [vm_compute; reflexivity|].
  apply calculate_shot_xg_range. vm_compute. reflexivity.
Defined.

Lemma calculate_shot_xg_scored (shots : list Shots.row) :
  shots <> [] ->
  Forall (fun s => Shots.y_location s <> None) shots ->
  List.NoDup (map Shots.id shots) ->
  xGCalculator.calculate_shot_xg shots = Ok (map xGRun.scored shots).
Proof.
  intros Hne Hy Hids.
  rewrite (calculate_shot_xg_ok shots Hne Hy). f_equal. apply map_ext_in.
  intros s Hs. unfold xGRun.scored.
  change (Shots.set_xg (xGRun.score_value s) s)
    with (xGCalculator.score_set (xGRun.score_value s, Shots.id s) s).
  apply (apply_updates_unique Shots.id snd xGCalculator.score_cond
           xGCalculator.score_set).
  - intros [v i] r. simpl. apply Z.eqb_eq.
  - intros [v i] r. reflexivity.
  - now rewrite map_map.
  - apply (in_map (fun s => (xGRun.score_value s, Shots.id s)) shots s Hs).
  - reflexivity.
Qed.

(** X3: on a non-empty shots table in which every shot has a
    y-coordinate and the shot ids are pairwise distinct, the batch returns
    the table in which each row carries the score of its own shot type,
    quality and y, all else unchanged.  (On an empty table it raises, see
    X1.) *)
Theorem calculate_shot_xg_own_score (shots : list Shots.row)
    (Hne : shots <> [])
    (Hy : Forall (fun s => Shots.y_location s <> None) shots)
    (Hids : List.NoDup (map Shots.id shots)) :
  xGCalculator.calculate_shot_xg shots = Ok (map xGRun.scored shots) /\
  Forall (fun s => xGRun.shot_score s = Ok (xGRun.score_value s)) shots.
Proof.
  split; [now apply calculate_shot_xg_scored|].
  eapply List.Forall_impl; [|exact Hy]. intros s. apply shot_score_value.
Qed.

Lemma calculate_shot_xg_own_score_witness :
  Sample.shots <> [] /\
  Forall (fun s => Shots.y_location s <> None) Sample.shots /\
  List.NoDup (map Shots.id Sample.shots) /\
  xGCalculator.calculate_shot_xg Sample.shots = Ok (map xGRun.scored Sample.shots).
Proof.
  assert (Hne : Sample.shots <> []) by discriminate.
  assert (Hy : Forall (fun s => Shots.y_location s <> None) Sample.shots)
    by (repeat constructor; discriminate).
  assert (Hids : List.NoDup (map Shots.id Sample.shots)).
  { simpl. repeat constructor; simpl; intuition discriminate. }
  split; [exact Hne|]. split; [exact Hy|]. split; [exact Hids|].
  apply (calculate_shot_xg_own_score Sample.shots Hne Hy Hids).
Defined.

Lemma apply_scores_base (shots : list Shots.row) (s : Shots.row) :
  In s shots ->
  exists v,
    Sql.apply_updates xGCalculator.score_cond xGCalculator.score_set
      (map (fun s => (xGRun.score_value s, Shots.id s)) shots) s =
    Shots.set_xg v s.
Proof.
  intros Hs. destruct (apply_scores_row shots s Hs) as (s' & _ & _ & ->). eauto.
Qed.

(** X4: scoring is repeatable: when the batch returns a table, running it
    again on that table returns the same table, since no score depends on
    a stored xg. *)
Theorem calculate_shot_xg_idempotent (shots t : list Shots.row)
    (Hok : xGCalculator.calculate_shot_xg shots = Ok t) :
  xGCalculator.calculate_shot_xg t = Ok t.
Proof.
  pose proof (calculate_shot_xg_ok_inv shots t Hok) as [Hne Hall].
  rewrite (calculate_shot_xg_ok shots Hne Hall) in Hok. apply Ok_inj in Hok.
  set (ups := map (fun s => (xGRun.score_value s, Shots.id s)) shots) in *.
  assert (Hne' : t <> []).
  { subst t. destruct shots; [contradiction|discriminate]. }
  assert (Hups : map (fun s => (xGRun.score_value s, Shots.id s)) t = ups).
  { subst t. unfold ups. rewrite map_map. apply map_ext_in. intros s Hs.
    destruct (apply_scores_base shots s Hs) as (v & ->). reflexivity. }
  assert (Hall' : Forall (fun s => Shots.y_location s <> None) t).
  { subst t. unfold ups. apply List.Forall_forall. intros r Hr.
    apply in_map_iff in Hr as (s & <- & Hs).
    destruct (apply_scores_base shots s Hs) as (v & ->).
    cbn [Shots.set_xg Shots.y_location].
    exact (proj1 (List.Forall_forall _ _) Hall s Hs). }
  rewrite (calculate_shot_xg_ok t Hne' Hall'), Hups. f_equal.
  subst t. rewrite map_map. apply map_ext. intros s.
  apply (apply_updates_idempotent _ _ score_cond_set score_set_set).
Qed.

Lemma calculate_shot_xg_idempotent_witness :
  exists t, xGCalculator.calculate_shot_xg Sample.shots = Ok t /\
            xGCalculator.calculate_shot_xg t = Ok t.
Proof.
  eexists. split; [vm_compute; reflexivity|].
  apply (calculate_shot_xg_idempotent Sample.shots). vm_compute. reflexivity.
Defined.

Section RunTheorems.
Variable SUM : list float -> float.
Import xGCalculator.

Lemma shots_of_scored (k : Z * Z * Z) (shots : list Shots.row) :
  shots_of k (map xGRun.scored shots) = map xGRun.scored (shots_of k shots).
Proof.
  unfold shots_of. induction shots as [|s l IH]; simpl; [reflexivity|].
  change (shot_key (xGRun.scored s)) with (shot_key s).
  destruct (bool_decide (shot_key s = k)); simpl; now rewrite IH.
Qed.

(** X5: what the script leaves in the store.  On a non-empty shots table
    with a y-coordinate on every shot and pairwise distinct shot ids,
    [run] stores on every shot its own score, and on every skater row the
    sum of the scores of the shots of that (player, team, season), with
    goals_above_xg the number of goals among those shots minus that sum;
    a skater row without any shot holds zero in both columns.  On an
    empty shots table, or when some shot has no y-coordinate, the batch
    scorer raises and both tables stay as they were: the skater rows are
    not cleared and keep the values of an earlier run. *)
Theorem run_sums_own_scores (shots : list Shots.row)
    (skater_stats : list SkaterStats.row)
    (Hne : shots <> [])
    (Hy : Forall (fun s => Shots.y_location s <> None) shots)
    (Hids : List.NoDup (map Shots.id shots)) :
  (exists skaters,
     xGRun.run SUM shots skater_stats = (map xGRun.scored shots, skaters) /\
     map clear_xg skaters = map clear_xg skater_stats /\
     forall r, In r skaters ->
       match shots_of (SkaterStats.key r) shots with
       | [] => SkaterStats.xg r = 0%float /\ SkaterStats.goals_above_xg r = 0%float
       | mine =>
           SkaterStats.xg r = SUM (map xGRun.score_value mine) /\
           SkaterStats.goals_above_xg r =
             (float_of_Z (Sql.sum_int (map Shots.is_goal mine))
              - SUM (map xGRun.score_value mine))%float
       end) /\
  forall shots0 : list Shots.row,
    shots0 = [] \/ Exists (fun s => Shots.y_location s = None) shots0 ->
    xGRun.run SUM shots0 skater_stats = (shots0, skater_stats).
Proof.
  split.
  - eexists. split; [|split].
    + unfold xGRun.run. rewrite (calculate_shot_xg_scored shots Hne Hy Hids).
      reflexivity.
    + rewrite aggregate_rows, map_map. apply map_ext. intros r.
      now rewrite clear_apply_updates.
    + intros r Hr.
      assert (Hxg : forall l, map Shots.xg (map xGRun.scored l)
                              = map xGRun.score_value l)
        by (intros l; rewrite map_map; reflexivity).
      assert (Hgoal : forall l, map Shots.is_goal (map xGRun.scored l)
                                = map Shots.is_goal l)
        by (intros l; rewrite map_map; reflexivity).
      destruct (shots_of (SkaterStats.key r) shots) as [|s l] eqn:Hmine.
      * apply (aggregate_no_shots SUM (map xGRun.scored shots) skater_stats r Hr).
        rewrite map_map.
        change (fun x => shot_key (xGRun.scored x)) with shot_key.
        rewrite shots_of_nonempty, Hmine. tauto.
      * rewrite <- Hmine.
        pose proof (aggregate_with_shots SUM (map xGRun.scored shots)
                      skater_stats r Hr) as H.
        cbv zeta in H. rewrite shots_of_scored, Hxg, Hgoal in H. apply H.
        rewrite map_map.
        change (fun x => shot_key (xGRun.scored x)) with shot_key.
        rewrite shots_of_nonempty, Hmine. discriminate.
  - intros shots0 [->|Hex]; unfold xGRun.run.
    + reflexivity.
    + now rewrite (calculate_shot_xg_aborts shots0 Hex).
Qed.

(** X6: the aggregation is a full overwrite: its result does not depend
    on the xg and goals_above_xg stored before, and it changes no other
    column, adds no row, drops none and keeps their order. *)
Theorem aggregate_overwrites (shots : list Shots.row)
    (skater_stats : list SkaterStats.row) :
  aggregate_xg_by_player SUM shots skater_stats =
  aggregate_xg_by_player SUM shots (map clear_xg skater_stats) /\
  map clear_xg (aggregate_xg_by_player SUM shots skater_stats) =
  map clear_xg skater_stats.
Proof.
  split.
  - rewrite !aggregate_rows, map_map. reflexivity.
  - rewrite aggregate_rows, map_map. apply map_ext. intros r.
    now rewrite clear_apply_updates.
Qed.
End RunTheorems.

Lemma run_sums_own_scores_witness :
  Sample.shots <> [] /\
  Forall (fun s => Shots.y_location s <> None) Sample.shots /\
  List.NoDup (map Shots.id Sample.shots) /\
  (exists skaters,
     xGRun.run Sql.sum_left Sample.shots Sample.skater_stats =
       (map xGRun.scored Sample.shots, skaters) /\
     forall r, In r skaters ->
       match xGCalculator.shots_of (SkaterStats.key r) Sample.shots with
       | [] => SkaterStats.xg r = 0%float /\ SkaterStats.goals_above_xg r = 0%float
       | mine =>
           SkaterStats.xg r = Sql.sum_left (map xGRun.score_value mine) /\
           SkaterStats.goals_above_xg r =
             (float_of_Z (Sql.sum_int (map Shots.is_goal mine))
              - Sql.sum_left (map xGRun.score_value mine))%float
       end) /\
  xGRun.run Sql.sum_left [] Sample.skater_stats = ([], Sample.skater_stats).
Proof.
  assert (Hne : Sample.shots <> []) by discriminate.
  assert (Hy : Forall (fun s => Shots.y_location s <> None) Sample.shots)
    by (repeat constructor; discriminate).
  assert (Hids : List.NoDup (map Shots.id Sample.shots)).
  { simpl. repeat constructor; simpl; intuition discriminate. }
  split; [exact Hne|]. split; [exact Hy|]. split; [exact Hids|].
  destruct (run_sums_own_scores Sql.sum_left Sample.shots Sample.skater_stats
              Hne Hy Hids) as [(skaters & Hrun & _ & Hrows) Hfail].
  split.
  - exists skaters. split; [exact Hrun|exact Hrows].
  - apply Hfail. now left.
Defined.

Lemma aggregate_group_order_irrelevant_witness :
  let rows := xGCalculator.player_xg Sql.sum_left Sample.shots in
  Permutation rows (rev rows) /\
  fold_left (fun t row => xGCalculator.update_skater row t) (rev rows)
    (Sql.update (fun _ => true) xGCalculator.clear_xg Sample.skater_stats) =
  xGCalculator.aggregate_xg_by_player Sql.sum_left Sample.shots Sample.skater_stats.
Proof.
  intros rows. pose proof (Permutation_rev rows) as H.
  split; [exact H|].
  exact (aggregate_group_order_irrelevant Sql.sum_left Sample.shots
           Sample.skater_stats (rev rows) H).
Defined.

(** ** The fallback estimator, continued *)

Lemma float_ltb_leb (x y : float) : (x <? y)%float = true -> (x <=? y)%float = true.
Proof.
  rewrite ltb_spec, leb_spec. unfold SFltb, SFleb.
  destruct (SFcompare (Prim2SF x) (Prim2SF y)) as [[ | | ]|]; congruence.
Qed.

(** X8: the estimate is never negative and never NaN: for every
    estimator state, shot count, goal count and position,
    0 <= estimate_xg_for_player(shots, goals, position). *)
Theorem estimate_xg_for_player_nonneg (self : xGEstimator.t) (shots goals : Z)
    (position : option string) :
  (0 <=? xGEstimator.estimate_xg_for_player self shots goals position)%float = true.
Proof.
  unfold xGEstimator.estimate_xg_for_player.
  destruct (shots =? 0); [vm_compute; reflexivity|].
  cbv zeta. unfold max2.
  match goal with
  | |- context [PrimFloat.ltb 0 ?e] => destruct (PrimFloat.ltb 0 e) eqn:He
  end.
  - now apply float_ltb_leb.
  - vm_compute. reflexivity.
Qed.

Lemma filter_at_most_one {A} (f : A -> Z) (x : Z) (l : list A) :
  List.NoDup (map f l) ->
  List.filter (fun a => x =? f a) l = [] \/
  exists a, List.filter (fun a => x =? f a) l = [a].
Proof.
  induction l as [|a l IH]; simpl; intros Hnd; [now left|].
  inversion Hnd as [|? ? Ha Hnd']; subst.
  destruct (Z.eqb_spec x (f a)) as [Hx|Hx].
  - right. exists a. f_equal.
    destruct (List.filter (fun a0 => x =? f a0) l) as [|b l'] eqn:Hf; [reflexivity|].
    exfalso. apply Ha.
    assert (Hb : In b (List.filter (fun a0 => x =? f a0) l)) by (rewrite Hf; now left).
    apply filter_In in Hb as [Hb Hxb]. apply Z.eqb_eq in Hxb.
    rewrite <- Hx, Hxb. now apply in_map.
  - apply IH, Hnd'.
Qed.

Section EstimateRows.
Import xGEstimatorRows.
Variables (self : xGEstimator.t) (players : list Players.row).
Hypothesis players_unique : List.NoDup (map Players.player_id players).

Lemma est_cond_key (p : est_row) (r : SkaterStats.row) :
  est_cond p r = true <-> SkaterStats.key r = est_key p.
Proof.
  destruct p as [[[[x g] i] t] s]. unfold est_cond, est_key, SkaterStats.key.
  rewrite !andb_true_iff, !Z.eqb_eq. split.
  - intros [[-> ->] ->]. reflexivity.
  - intros H. inversion H. auto.
Qed.

Lemma est_set_key (p : est_row) (r : SkaterStats.row) :
  SkaterStats.key (est_set p r) = SkaterStats.key r.
Proof. destruct p as [[[[x g] i] t] s]. reflexivity. Qed.

(** The tuples the loop builds, row by row of the skater table. *)
Lemma season_8_updates_rows (skater_stats : list SkaterStats.row) :
  map (fun '(player_id, team_id, season_id, shots, goals, position) =>
         let xg := xGEstimator.estimate_xg_for_player self shots goals position in
         let goals_above_xg := (float_of_Z goals - xg)%float in
         (xg, goals_above_xg, player_id, team_id, season_id))
      (xGEstimator.season_8_players players skater_stats) =
  flat_map (fun r => if eligible r
                     then map (est_update self r) (on_file players r) else [])
           skater_stats.
Proof.
  unfold xGEstimator.season_8_players.
  induction skater_stats as [|r l IH]; simpl; [reflexivity|].
  rewrite map_app, IH. f_equal. fold (eligible r).
  destruct (eligible r); [|reflexivity].
  rewrite map_map. reflexivity.
Qed.

Lemma in_season_8_updates (skater_stats : list SkaterStats.row) (u : est_row) :
  In u (flat_map (fun r => if eligible r
                           then map (est_update self r) (on_file players r) else [])
                 skater_stats) <->
  exists r p, In r skater_stats /\ eligible r = true /\ In p (on_file players r) /\
              u = est_update self r p.
Proof.
  rewrite in_flat_map. split.
  - intros (r & Hr & Hu). destruct (eligible r) eqn:He; [|destruct Hu].
    apply in_map_iff in Hu as (p & <- & Hp). exists r, p. auto.
  - intros (r & p & Hr & He & Hp & ->). exists r. split; [exact Hr|].
    rewrite He. now apply in_map.
Qed.

Lemma season_8_updates_keys_NoDup (skater_stats : list SkaterStats.row) :
  List.NoDup (map SkaterStats.key skater_stats) ->
  List.NoDup (map est_key
           (flat_map (fun r => if eligible r
                               then map (est_update self r) (on_file players r)
                               else [])
                     skater_stats)).
Proof.
  induction skater_stats as [|r l IH]; simpl; intros Hnd; [constructor|].
  inversion Hnd as [|? ? Hr Hnd']; subst. rewrite map_app.
  assert (Hrest : forall k,
             In k (map est_key
                     (flat_map (fun r => if eligible r
                                         then map (est_update self r) (on_file players r)
                                         else []) l)) ->
             In k (map SkaterStats.key l)).
  { intros k Hk. apply in_map_iff in Hk as (u & <- & Hu).
    apply in_season_8_updates in Hu as (r' & p & Hr' & _ & _ & ->).
    apply in_map_iff. exists r'. split; [reflexivity|exact Hr']. }
  destruct (eligible r); [|now apply IH].
  unfold on_file.
  destruct (filter_at_most_one Players.player_id (SkaterStats.player_id r) players
              players_unique) as [->|(p & ->)]; simpl; [now apply IH|].
  constructor; [|now apply IH].
  intros Hin. apply Hr. apply Hrest. exact Hin.
Qed.

(** X9: with one skater row per (player, team, season) and one players
    row per player id, [estimate_season_8_xg] rewrites exactly the rows of
    season 8 with shots > 0 whose player is on file: it stores the
    estimate as xg and goals minus the estimate as goals_above_xg.  Every
    other row, in particular every row of another season, is left as it
    was, and no row is added, dropped or moved. *)
Theorem estimate_season_8_xg_rows (skater_stats : list SkaterStats.row)
    (Hkeys : List.NoDup (map SkaterStats.key skater_stats)) :
  xGEstimator.estimate_season_8_xg self players skater_stats =
  map (fun r => if eligible r then estimated self players r else r) skater_stats.
Proof.
  unfold xGEstimator.estimate_season_8_xg. cbv zeta.
  rewrite season_8_updates_rows.
  rewrite (executemany_rows est_cond est_set)
    by (intros [[[[x g] i] t] s] tbl; reflexivity).
  apply map_ext_in. intros r Hr.
  set (ups := flat_map _ skater_stats).
  assert (Hown : forall u, In u ups -> est_key u = SkaterStats.key r ->
                 exists p, eligible r = true /\ In p (on_file players r) /\
                           u = est_update self r p).
  { intros u Hu Hk. apply in_season_8_updates in Hu as (r' & p & Hr' & He & Hp & ->).
    assert (r' = r) by (eapply NoDup_map_unique; eassumption). subst r'. eauto. }
  unfold estimated.
  destruct (eligible r) eqn:He.
  - unfold on_file in *.
    destruct (filter_at_most_one Players.player_id (SkaterStats.player_id r) players
                players_unique) as [Hnone|(p & Hone)].
    + rewrite Hnone.
      apply (apply_updates_untouched SkaterStats.key est_key est_cond est_set
               est_cond_key).
      intros Hin. apply in_map_iff in Hin as (u & Hk & Hu).
      destruct (Hown u Hu Hk) as (p & _ & Hp & _). rewrite Hnone in Hp. destruct Hp.
    + rewrite Hone.
      apply (apply_updates_unique SkaterStats.key est_key est_cond est_set
               est_cond_key est_set_key).
      * now apply season_8_updates_keys_NoDup.
      * apply in_season_8_updates. exists r, p. unfold on_file. rewrite Hone.
        repeat split; auto. now left.
      * reflexivity.
  - apply (apply_updates_untouched SkaterStats.key est_key est_cond est_set
             est_cond_key).
    intros Hin. apply in_map_iff in Hin as (u & Hk & Hu).
    destruct (Hown u Hu Hk) as (p & He' & _). congruence.
Qed.
End EstimateRows.

Lemma estimate_season_8_xg_rows_witness :
  List.NoDup (map Players.player_id Sample.players) /\
  List.NoDup (map SkaterStats.key Sample.skater_stats) /\
  xGEstimator.estimate_season_8_xg Sample.estimator Sample.players
    Sample.skater_stats =
  map (fun r => if xGEstimatorRows.eligible r
                then xGEstimatorRows.estimated Sample.estimator Sample.players r
                else r)
      Sample.skater_stats.
Proof.
  assert (Hp : List.NoDup (map Players.player_id Sample.players)).
  { simpl. repeat constructor; simpl; intuition discriminate. }
  assert (Hk : List.NoDup (map SkaterStats.key Sample.skater_stats)).
  { simpl. repeat constructor; simpl; intuition discriminate. }
  split; [exact Hp|]. split; [exact Hk|].
  exact (estimate_season_8_xg_rows Sample.estimator Sample.players Hp
           Sample.skater_stats Hk).
Defined.

(** ** Loading the historical rates *)

Lemma for_each_total_in {A S} (body : S -> A -> result S) (f : S -> A -> S)
    (xs : list A) (s : S) :
  (forall s x, In x xs -> body s x = Ok (f s x)) ->
  for_each body xs s = Ok (fold_left f xs s).
Proof.
  revert s. induction xs as [|x xs IH]; intros s Hbody; simpl; [reflexivity|].
  rewrite Hbody by now left. simpl. apply IH.
  intros s' x' Hx'. apply Hbody. now right.
Qed.

Section InsertLoop.
Context {R K V : Type} `{Countable K}.
Variables (key : R -> K) (val : R -> V).

(** A loop of [d[key] = val] assignments, read back. *)
Lemma lookup_insert_loop_other (rows : list R) (d : gmap K V) (k : K) :
  ~ In k (map key rows) ->
  fold_left (fun d row => <[key row := val row]> d) rows d !! k = d !! k.
Proof.
  revert d. induction rows as [|r rows IH]; intros d Hk; simpl; [reflexivity|].
  rewrite IH by (intros Hin; apply Hk; now right).
  apply lookup_insert_ne. intros Heq. apply Hk. now left.
Qed.

Lemma lookup_insert_loop (rows : list R) (d : gmap K V) (row : R) :
  List.NoDup (map key rows) -> In row rows ->
  fold_left (fun d row => <[key row := val row]> d) rows d !! key row
  = Some (val row).
Proof.
  revert d. induction rows as [|r rows IH]; intros d Hnd Hin; [destruct Hin|].
  inversion Hnd as [|? ? Hr Hnd']; subst. simpl.
  destruct Hin as [->|Hin].
  - rewrite lookup_insert_loop_other by exact Hr. apply lookup_insert_eq.
  - now apply IH.
Qed.
End InsertLoop.

Section HistoricalRatesTheorems.
Variable SUM : list float -> float.
Import HistoricalRates.

(** The conversion rate of a row with shots. *)
Let rate (s : SkaterStats.row) : float :=
  (1.0 * float_of_Z (SkaterStats.goals s) / float_of_Z (SkaterStats.shots s))%float.

Lemma historical_conversion (s : SkaterStats.row) :
  historical s = true -> conversion s = Some (rate s).
Proof.
  unfold historical, conversion. intros Hs.
  apply andb_true_iff in Hs as [_ Hs]. apply Z.gtb_lt in Hs.
  destruct (Z.eqb_spec (SkaterStats.shots s) 0); [lia|reflexivity].
Qed.

Lemma avg_conversion_historical (g : list SkaterStats.row) :
  Forall (fun s => historical s = true) g -> g <> [] ->
  avg_conversion SUM g =
  Some (SUM (map rate g) / float_of_Z (Z.of_nat (length g)))%float.
Proof.
  intros Hall Hne. unfold avg_conversion.
  assert (Hmap : omap conversion g = map rate g).
  { clear Hne. induction Hall as [|s l Hs Hall IH]; [reflexivity|].
    cbn [omap list_omap]. rewrite (historical_conversion s Hs). simpl.
    f_equal. apply IH. }
  rewrite Hmap. unfold GSAxCalculator.AVG.
  destruct g as [|s l]; [contradiction|]. simpl map. cbn [length].
  now rewrite length_map.
Qed.

Lemma joined_historical (players : list Players.row)
    (skater_stats : list SkaterStats.row) (sp : SkaterStats.row * Players.row) :
  In sp (joined players skater_stats) -> historical (fst sp) = true.
Proof.
  unfold joined. rewrite in_flat_map. intros (s & _ & Hsp).
  destruct (historical s) eqn:Hs; [|destruct Hsp].
  apply in_map_iff in Hsp as (p & <- & _). exact Hs.
Qed.

(** Every row of the two queries carries an average: the unguarded
    [:.3f] formats never meet [None]. *)
Lemma position_query_formats (players : list Players.row)
    (skater_stats : list SkaterStats.row) (row : option string * Z * Z * option float) :
  In row (position_query SUM players skater_stats) ->
  format_3f (snd row) = Ok tt.
Proof.
  unfold position_query. rewrite in_map_iff.
  intros ([pos g] & <- & Hin). apply in_group_by in Hin as [Hpos ->].
  cbn [snd]. rewrite avg_conversion_historical; [reflexivity| |].
  - apply List.Forall_forall. intros s Hs. apply in_map_iff in Hs as (sp & <- & Hsp).
    apply filter_In in Hsp as [Hsp _]. eapply joined_historical, Hsp.
  - apply in_map_iff in Hpos as (sp & Hk & Hsp). intros Hnil.
    assert (Hf : In sp (List.filter
                          (fun r => bool_decide (Players.position (snd r) = pos))
                          (joined players skater_stats))).
    { apply filter_In. split; [exact Hsp|]. now apply bool_decide_eq_true. }
    apply (in_map fst) in Hf. rewrite Hnil in Hf. destruct Hf.
Qed.

Lemma volume_query_formats (skater_stats : list SkaterStats.row)
    (row : string * option float) :
  In row (volume_query SUM skater_stats) -> format_3f (snd row) = Ok tt.
Proof.
  unfold volume_query. rewrite in_map_iff.
  intros ([b g] & <- & Hin). apply in_group_by in Hin as [Hb ->].
  cbn [snd]. rewrite avg_conversion_historical; [reflexivity| |].
  - apply List.Forall_forall. intros s Hs.
    apply filter_In in Hs as [Hs _]. apply filter_In in Hs as [_ Hs]. exact Hs.
  - apply in_map_iff in Hb as (s & Hk & Hs). intros Hnil.
    assert (Hf : In s (List.filter
                         (fun r => bool_decide
                                     (volume_bucket_case (SkaterStats.shots r) = b))
                         (List.filter historical skater_stats))).
    { apply filter_In. split; [exact Hs|]. now apply bool_decide_eq_true. }
    rewrite Hnil in Hf. destruct Hf.
Qed.

(** The method as two loops of dictionary assignments. *)
Lemma load_historical_rates_ok (players : list Players.row)
    (skater_stats : list SkaterStats.row) :
  load_historical_rates SUM players skater_stats =
  Ok (xGEstimator.mk
        (fold_left
           (fun d row =>
              <[fst (fst (fst row)) :=
                  xGEstimator.mk_position_rate (snd (fst (fst row))) (snd (fst row))
                    (truthy_or (snd row) 0.10%float)]> d)
           (position_query SUM players skater_stats) ∅)
        (fold_left
           (fun d row => <[fst row := truthy_or (snd row) xGEstimator.default_rate]> d)
           (volume_query SUM skater_stats) ∅)).
Proof.
  unfold load_historical_rates.
  rewrite (for_each_total_in _
             (fun d row =>
                <[fst (fst (fst row)) :=
                    xGEstimator.mk_position_rate (snd (fst (fst row))) (snd (fst row))
                      (truthy_or (snd row) 0.10%float)]> d)).
  2: { intros d [[[pos sh] go] av] Hin.
       pose proof (position_query_formats players skater_stats _ Hin) as Hf.
       cbn [snd] in Hf. cbn [fst snd]. now rewrite Hf. }
  cbn [mbind result_bind].
  rewrite (for_each_total_in _
             (fun d row =>
                <[fst row := truthy_or (snd row) xGEstimator.default_rate]> d)).
  2: { intros d [b av] Hin.
       pose proof (volume_query_formats skater_stats _ Hin) as Hf.
       cbn [snd] in Hf. cbn [fst snd]. now rewrite Hf. }
  reflexivity.
Qed.
Lemma volume_query_keys (skater_stats : list SkaterStats.row) :
  map fst (volume_query SUM skater_stats) =
  map fst (Sql.group_by (fun s => volume_bucket_case (SkaterStats.shots s))
             (List.filter historical skater_stats)).
Proof.
  unfold volume_query. rewrite map_map. apply map_ext. intros [b g]. reflexivity.
Qed.

Lemma position_query_keys (players : list Players.row)
    (skater_stats : list SkaterStats.row) :
  map (fun row => fst (fst (fst row))) (position_query SUM players skater_stats) =
  map fst (Sql.group_by (fun sp => Players.position (snd sp))
             (joined players skater_stats)).
Proof.
  unfold position_query. rewrite map_map. apply map_ext. intros [b g]. reflexivity.
Qed.

Lemma filter_nonempty_in {A} (c : A -> bool) (l : list A) :
  List.filter c l <> [] <-> exists a, In a l /\ c a = true.
Proof.
  split.
  - destruct (List.filter c l) as [|a l'] eqn:Hf; [contradiction|]. intros _.
    exists a. apply filter_In. rewrite Hf. now left.
  - intros (a & Ha & Hc) Hnil.
    assert (Hin : In a (List.filter c l)) by (apply filter_In; auto).
    rewrite Hnil in Hin. destruct Hin.
Qed.

(** X10: [load_historical_rates] never raises, although it formats the
    averages without a guard: the WHERE clause keeps rows with shots > 0
    only, so no average is NULL.  The volume table it builds holds, for
    the tier of any shot count n, the average conversion rate goals/shots
    of the season-1 and season-5 skater rows with shots > 0 in that tier
    (0.10 if that average is zero), and holds no entry for that tier when
    there is no such row; the tiers of the query are those of
    [estimate_xg_for_player]. *)
Theorem load_historical_rates_volume (players : list Players.row)
    (skater_stats : list SkaterStats.row) (n : Z) :
  let tier :=
    List.filter
      (fun s => historical s
                && bool_decide (xGEstimator.volume_bucket (SkaterStats.shots s)
                                = xGEstimator.volume_bucket n))
      skater_stats in
  exists est,
    load_historical_rates SUM players skater_stats = Ok est /\
    xGEstimator.volume_rates est !! xGEstimator.volume_bucket n =
      match tier with
      | [] => None
      | _ => Some (truthy_or
                     (Some (SUM (map rate tier)
                            / float_of_Z (Z.of_nat (length tier)))%float)
                     xGEstimator.default_rate)
      end.
Proof.
  intros tier. rewrite load_historical_rates_ok. eexists. split; [reflexivity|].
  cbn [xGEstimator.volume_rates].
  set (b := xGEstimator.volume_bucket n).
  assert (Htier : List.filter
                    (fun s => bool_decide (volume_bucket_case (SkaterStats.shots s) = b))
                    (List.filter historical skater_stats) = tier)
    by apply filter_filter_andb.
  assert (Hall : Forall (fun s => historical s = true) tier).
  { apply List.Forall_forall. intros s Hs. apply filter_In in Hs as [_ Hs].
    now apply andb_true_iff in Hs as [Hs _]. }
  destruct tier as [|s0 tier'] eqn:Etier.
  - rewrite (lookup_insert_loop_other fst); [apply lookup_empty|].
    rewrite volume_query_keys, in_group_keys. intros Hin.
    apply in_map_iff in Hin as (s & Hk & Hs).
    assert (Hf : In s []).
    { rewrite <- Htier. apply filter_In. split; [exact Hs|].
      now apply bool_decide_eq_true. }
    destruct Hf.
  - rewrite <- Etier in *.
    assert (Hne : tier <> []) by (rewrite Etier; discriminate).
    assert (Hrow : In (b, avg_conversion SUM tier) (volume_query SUM skater_stats)).
    { unfold volume_query. apply in_map_iff. exists (b, tier).
      split; [reflexivity|]. apply in_group_by. split; [|now symmetry].
      rewrite <- Htier in Hne. apply filter_nonempty_in in Hne as (s & Hs & Hk).
      apply bool_decide_eq_true in Hk. rewrite <- Hk.
      apply (in_map (fun s => volume_bucket_case (SkaterStats.shots s))). exact Hs. }
    rewrite (lookup_insert_loop fst
               (fun row => truthy_or (snd row) xGEstimator.default_rate)
               _ _ (b, avg_conversion SUM tier)).
    + cbn [snd]. now rewrite (avg_conversion_historical tier Hall Hne).
    + rewrite volume_query_keys. apply group_by_keys_NoDup.
    + exact Hrow.
Qed.

(** X11: the position table built by [load_historical_rates] holds, for a
    position, the summed shots, the summed goals and the average
    conversion rate (0.10 if that average is zero) of the season-1 and
    season-5 skater rows with shots > 0 joined with a player of that
    position; a position no such row has is absent from the table, and the
    method never raises. *)
Theorem load_historical_rates_position (players : list Players.row)
    (skater_stats : list SkaterStats.row) (position : option string) :
  let g :=
    List.filter (fun sp => bool_decide (Players.position (snd sp) = position))
      (joined players skater_stats) in
  exists est,
    load_historical_rates SUM players skater_stats = Ok est /\
    xGEstimator.position_rates est !! position =
      match g with
      | [] => None
      | _ => Some (xGEstimator.mk_position_rate
                     (Sql.sum_int (map (fun sp => SkaterStats.shots (fst sp)) g))
                     (Sql.sum_int (map (fun sp => SkaterStats.goals (fst sp)) g))
                     (truthy_or
                        (Some (SUM (map rate (map fst g))
                               / float_of_Z (Z.of_nat (length g)))%float)
                        0.10%float))
      end.
Proof.
  intros g. rewrite load_historical_rates_ok. eexists. split; [reflexivity|].
  cbn [xGEstimator.position_rates].
  assert (Hall : Forall (fun s => historical s = true) (map fst g)).
  { apply List.Forall_forall. intros s Hs. apply in_map_iff in Hs as (sp & <- & Hsp).
    apply filter_In in Hsp as [Hsp _]. eapply joined_historical, Hsp. }
  destruct g as [|sp0 g'] eqn:Eg.
  - rewrite (lookup_insert_loop_other (fun row => fst (fst (fst row))));
      [apply lookup_empty|].
    rewrite position_query_keys, in_group_keys. intros Hin.
    apply in_map_iff in Hin as (sp & Hk & Hsp).
    assert (Hf : In sp []).
    { rewrite <- Eg. apply filter_In. split; [exact Hsp|].
      now apply bool_decide_eq_true. }
    destruct Hf.
  - rewrite <- Eg in *.
    assert (Hne : g <> []) by (rewrite Eg; discriminate).
    set (row := (position,
                 Sql.sum_int (map (fun sp => SkaterStats.shots (fst sp)) g),
                 Sql.sum_int (map (fun sp => SkaterStats.goals (fst sp)) g),
                 avg_conversion SUM (map fst g))).
    assert (Hrow : In row (position_query SUM players skater_stats)).
    { unfold position_query. apply in_map_iff. exists (position, g).
      split; [reflexivity|]. apply in_group_by. split; [|reflexivity].
      apply filter_nonempty_in in Hne as (sp & Hsp & Hk).
      apply bool_decide_eq_true in Hk. rewrite <- Hk.
      apply (in_map (fun sp => Players.position (snd sp))). exact Hsp. }
    rewrite (lookup_insert_loop (fun row => fst (fst (fst row)))
               (fun row => xGEstimator.mk_position_rate (snd (fst (fst row)))
                             (snd (fst row)) (truthy_or (snd row) 0.10%float))
               _ _ row).
    + unfold row. cbn [fst snd].
      rewrite (avg_conversion_historical (map fst g) Hall).
      * now rewrite length_map.
      * destruct g; [contradiction|discriminate].
    + rewrite position_query_keys. apply group_by_keys_NoDup.
    + exact Hrow.
Qed.
End HistoricalRatesTheorems.

(** ** The goalie passes, row by row *)

Section GoalieRows.
Variable SUM : list float -> float.
Import GSAxCalculator.

Lemma shot_updates_row (season : Z) (shots : list Shots.row) (r : GoalieStats.row) :
  Sql.apply_updates gsax_cond gsax_set (shot_updates SUM season shots) r =
  GSAxRows.from_shots SUM season shots r.
Proof.
  unfold GSAxRows.from_shots.
  set (g := GoalieStats.player_id r). set (t := GoalieStats.team_id r).
  assert (Hgroup : shots_faced g t season shots <> [] <->
                   In (Some g, t)
                      (map goalie_key (List.filter (faced_in_season season) shots))).
  { rewrite <- shots_faced_groups, filter_nonempty_in. split.
    - intros (s & Hs & Hk). apply bool_decide_eq_true in Hk. rewrite <- Hk.
      now apply in_map.
    - intros Hin. apply in_map_iff in Hin as (s & Hk & Hs). exists s.
      split; [exact Hs|]. now apply bool_decide_eq_true. }
  assert (Hmiss : (shots_faced g t season shots = [] \/
                   GoalieStats.season_id r <> season) ->
                  Sql.apply_updates gsax_cond gsax_set
                    (shot_updates SUM season shots) r = r).
  { intros Hcase.
    apply (apply_updates_untouched row_key update_key gsax_cond gsax_set
             gsax_cond_key).
    rewrite shot_updates_keys. intros Hin.
    apply in_map_iff in Hin as ([g' t'] & Hk & Hin).
    unfold row_key in Hk. cbn [fst snd] in Hk. inversion Hk; subst g' t'.
    rewrite in_group_keys in Hin. destruct Hcase as [Hnil|Hs]; [|congruence].
    apply Hgroup in Hin. contradiction. }
  destruct (shots_faced g t season shots) as [|s0 l] eqn:Hf.
  - apply Hmiss. now left.
  - destruct (Z.eqb_spec (GoalieStats.season_id r) season) as [Hs|Hs];
      [|apply Hmiss; now right].
    rewrite <- Hf.
    set (faced := shots_faced g t season shots).
    set (p := ((SUM (map Shots.xg faced)
                - float_of_Z (Sql.sum_int (map Shots.is_goal faced)))%float,
               Some g, t, season) : update_row).
    change (GoalieStats.set_gsax _ r) with (gsax_set p r).
    apply (apply_updates_unique row_key update_key gsax_cond gsax_set
             gsax_cond_key gsax_set_key).
    + apply shot_updates_NoDup.
    + unfold shot_updates, goalie_data. rewrite map_map. apply in_map_iff.
      exists ((Some g, t), faced). split; [reflexivity|].
      apply in_group_by. split.
      * apply Hgroup. first [discriminate | rewrite Hf; discriminate].
      * unfold faced. now rewrite shots_faced_groups.
    + unfold p, row_key. simpl. now rewrite Hs.
Qed.

Lemma calculate_gsax_from_shots_rows (season : Z) (shots : list Shots.row)
    (goalie_stats : list GoalieStats.row) :
  calculate_gsax_from_shots SUM season shots goalie_stats =
  map (GSAxRows.from_shots SUM season shots) goalie_stats.
Proof.
  unfold calculate_gsax_from_shots. rewrite executemany_gsax.
  apply map_ext. apply shot_updates_row.
Qed.

(** X12: the shot-based goalie pass of a season rewrites exactly the rows
    of that season whose goalie faced at least one shot for that team,
    storing the summed xg of those shots minus the goals among them.
    Rows of other seasons, and rows of goalies without any such shot, are
    left as they were: unlike the skater pass, this one resets nothing.
    No key uniqueness is needed. *)
Theorem calculate_gsax_from_shots_table (season : Z) (shots : list Shots.row)
    (goalie_stats : list GoalieStats.row) :
  calculate_gsax_from_shots SUM season shots goalie_stats =
  map (fun r =>
         match shots_faced (GoalieStats.player_id r) (GoalieStats.team_id r)
                 season shots with
         | [] => r
         | faced =>
             if GoalieStats.season_id r =? season
             then GoalieStats.set_gsax
                    (SUM (map Shots.xg faced)
                     - float_of_Z (Sql.sum_int (map Shots.is_goal faced)))%float r
             else r
         end)
      goalie_stats.
Proof. apply calculate_gsax_from_shots_rows. Qed.

Lemma shot_updates_key_season (season : Z) (shots : list Shots.row)
    (k : option Z * Z * Z) :
  In k (map update_key (shot_updates SUM season shots)) -> snd k = season.
Proof.
  rewrite shot_updates_keys. intros Hin.
  apply in_map_iff in Hin as (gt & <- & _). reflexivity.
Qed.

Lemma NoDup_app_disjoint {A} (l l' : list A) :
  List.NoDup l -> List.NoDup l' -> (forall a, In a l -> ~ In a l') ->
  List.NoDup (l ++ l').
Proof.
  intros Hl Hl' Hdis. induction Hl as [|a l Ha Hl IH]; simpl; [exact Hl'|].
  constructor.
  - rewrite in_app_iff. intros [Hin|Hin]; [contradiction|].
    apply (Hdis a); [now left|exact Hin].
  - apply IH. intros x Hx. apply Hdis. now right.
Qed.

(** X13: the shot-based goalie passes of two seasons commute: running
    season 5 before season 1 stores the same table as the order used by
    [run]. *)
Theorem calculate_gsax_from_shots_commute (s1 s2 : Z) (shots : list Shots.row)
    (goalie_stats : list GoalieStats.row) :
  calculate_gsax_from_shots SUM s1 shots
    (calculate_gsax_from_shots SUM s2 shots goalie_stats) =
  calculate_gsax_from_shots SUM s2 shots
    (calculate_gsax_from_shots SUM s1 shots goalie_stats).
Proof.
  destruct (Z.eq_dec s1 s2) as [->|Hne]; [reflexivity|].
  unfold calculate_gsax_from_shots, Sql.executemany.
  rewrite <- !fold_left_app.
  change (fold_left (fun t p => update_gsax p t) ?l) with (Sql.executemany update_gsax l).
  rewrite !executemany_gsax. apply map_ext. intros r.
  apply (apply_updates_order_irrelevant row_key update_key gsax_cond gsax_set
           gsax_cond_key gsax_set_key).
  - intros k k'. destruct (decide (k = k')); auto.
  - rewrite map_app. apply NoDup_app_disjoint; try apply shot_updates_NoDup.
    intros k H2 H1. apply shot_updates_key_season in H1, H2. congruence.
  - apply Permutation_app_comm.
Qed.
End GoalieRows.

Section GoalieRun.
Variable SUM : list float -> float.
Import GSAxCalculator.

Lemma from_shots_other_season (season : Z) (shots : list Shots.row)
    (r : GoalieStats.row) :
  GoalieStats.season_id r <> season -> GSAxRows.from_shots SUM season shots r = r.
Proof.
  intros Hs. unfold GSAxRows.from_shots.
  destruct (shots_faced _ _ season shots); [reflexivity|].
  destruct (Z.eqb_spec (GoalieStats.season_id r) season); [contradiction|reflexivity].
Qed.

Lemma from_shots_base_facts (season : Z) (shots : list Shots.row)
    (r : GoalieStats.row) :
  base_facts (GSAxRows.from_shots SUM season shots r) = base_facts r.
Proof.
  unfold GSAxRows.from_shots.
  destruct (shots_faced _ _ season shots); [reflexivity|].
  destruct (GoalieStats.season_id r =? season); reflexivity.
Qed.

(** The estimate on a row that agrees, gsax apart, with a row of the table. *)
Lemma season_8_updates_row (goalie_stats : list GoalieStats.row)
    (r0 x : GoalieStats.row) :
  List.NoDup (map GoalieStats.key goalie_stats) ->
  In r0 goalie_stats -> base_facts x = base_facts r0 ->
  Sql.apply_updates gsax_cond gsax_set (season_8_updates SUM goalie_stats) x =
  GSAxRows.estimate SUM goalie_stats x.
Proof.
  intros Hnd Hr0 Hbase.
  apply base_facts_columns in Hbase as (Hp & Ht & Hs & Hsa & Hga).
  assert (Hk : row_key x = row_key r0) by (unfold row_key; congruence).
  unfold GSAxRows.estimate.
  destruct ((GoalieStats.season_id x =? 8) && (GoalieStats.shots_against x >? 0))
    eqn:Hsel.
  - rewrite Hs, Hsa in Hsel. rewrite Hsa, Hga.
    match goal with
    | |- _ = GoalieStats.set_gsax ?v x =>
        change (GoalieStats.set_gsax v x)
          with (gsax_set (v, Some (GoalieStats.player_id r0),
                          GoalieStats.team_id r0, GoalieStats.season_id r0) x)
    end.
    apply (apply_updates_unique row_key update_key gsax_cond gsax_set
             gsax_cond_key gsax_set_key).
    + now apply season_8_updates_NoDup.
    + rewrite season_8_updates_map. apply in_map_iff. exists r0.
      split; [reflexivity|]. apply filter_In. auto.
    + now symmetry.
  - apply (apply_updates_untouched row_key update_key gsax_cond gsax_set
             gsax_cond_key).
    rewrite season_8_updates_map, map_map. intros Hin.
    apply in_map_iff in Hin as (r' & Hk' & Hr').
    apply filter_In in Hr' as [Hr' Hsel'].
    assert (r' = r0).
    { eapply NoDup_map_unique; try eassumption.
      unfold row_key in Hk, Hk'. cbn [update_key] in Hk'.
      unfold GoalieStats.key. rewrite Hk in Hk'. now inversion Hk'. }
    subst r'. rewrite Hs, Hsa in Hsel. congruence.
Qed.

(** X14: the goalie script as a whole, with one goalie row per (player,
    team, season).  [run] leaves on every row the value of exactly one
    rule: a season-8 row with shots against gets the league-average
    estimate, computed from the table as it was before the run; a row of
    season 1 or 5 whose goalie faced shots for that team in that season
    gets the shot-based value; every other row keeps its gsax. *)
Theorem goalie_run_rows (shots : list Shots.row) (goalie_stats : list GoalieStats.row)
    (Hkeys : List.NoDup (map GoalieStats.key goalie_stats)) :
  run SUM shots goalie_stats =
  map (GSAxFinal.final SUM shots goalie_stats) goalie_stats.
Proof.
  unfold run, estimate_gsax_for_season_8.
  rewrite (season_8_updates_same_base SUM _ goalie_stats)
    by (unfold calculate_gsax_from_shots; now rewrite !base_facts_executemany).
  rewrite executemany_gsax, !calculate_gsax_from_shots_rows, !map_map.
  apply map_ext_in. intros r Hr.
  rewrite (season_8_updates_row goalie_stats r _ Hkeys Hr)
    by now rewrite !from_shots_base_facts.
  unfold GSAxFinal.final, GSAxRows.estimate.
  assert (Hb : base_facts
                 (GSAxRows.from_shots SUM 5 shots (GSAxRows.from_shots SUM 1 shots r))
               = base_facts r) by now rewrite !from_shots_base_facts.
  apply base_facts_columns in Hb as (_ & _ & Hs & Hsa & Hga).
  rewrite Hs, Hsa, Hga.
  destruct (Z.eqb_spec (GoalieStats.season_id r) 8) as [E8|E8].
  - rewrite (from_shots_other_season 1 shots r) by lia.
    rewrite (from_shots_other_season 5 shots r) by lia.
    destruct (GoalieStats.shots_against r >? 0); simpl; [reflexivity|].
    destruct (Z.eqb_spec (GoalieStats.season_id r) 1),
      (Z.eqb_spec (GoalieStats.season_id r) 5); try lia. reflexivity.
  - simpl.
    destruct (Z.eqb_spec (GoalieStats.season_id r) 1) as [E1|E1].
    + simpl. rewrite E1. apply from_shots_other_season.
      assert (Hb1 := from_shots_base_facts 1 shots r).
      apply base_facts_columns in Hb1 as (_ & _ & Hs1 & _). lia.
    + rewrite (from_shots_other_season 1 shots r E1).
      destruct (Z.eqb_spec (GoalieStats.season_id r) 5) as [E5|E5]; simpl.
      * now rewrite E5.
      * now apply from_shots_other_season.
Qed.
End GoalieRun.

Lemma goalie_run_rows_witness :
  List.NoDup (map GoalieStats.key Sample.goalie_stats) /\
  GSAxCalculator.run Sql.sum_left Sample.shots Sample.goalie_stats =
  map (GSAxFinal.final Sql.sum_left Sample.shots Sample.goalie_stats)
      Sample.goalie_stats.
Proof.
  assert (Hkeys : List.NoDup (map GoalieStats.key Sample.goalie_stats)).
  { simpl. repeat constructor; simpl; intuition discriminate. }
  split; [exact Hkeys|].
  exact (goalie_run_rows Sql.sum_left Sample.shots Sample.goalie_stats Hkeys).
Defined.

(** ** Stored gsax and the base facts *)

Section GoalieClaims.
Variable SUM : list float -> float.
Import GSAxCalculator.




End GoalieClaims.


(** ** The team passes, row by row *)

Section TeamRowsTheorems.
Import AdvancedStatsCalculator.

Lemma in_teams_In (team : Z) : TeamRows.in_teams team = true <-> In team teams.
Proof.
  unfold TeamRows.in_teams. rewrite existsb_exists. split.
  - intros (t & Ht & Heq). apply Z.eqb_eq in Heq. now subst.
  - intros Hin. exists team. split; [exact Hin|apply Z.eqb_refl].
Qed.

Lemma teams_NoDup (season : Z) :
  List.NoDup (map (fun team : Z => (team, season)) teams).
Proof.
  unfold teams. simpl.
  repeat constructor; simpl; intros H;
    repeat (destruct H as [H|H]; [inversion H|]); exact H.
Qed.

Lemma corsi_updates_row (season : Z) (shots : list Shots.row) (r : TeamStats.row) :
  Sql.apply_updates (fun team => same_team_season team season)
    (corsi_set season shots) teams r =
  TeamRows.corsi season shots r.
Proof.
  unfold TeamRows.corsi.
  destruct ((TeamStats.season_id r =? season) && TeamRows.in_teams (TeamStats.team_id r))
    eqn:Hc.
  - apply andb_true_iff in Hc as [Hs Ht]. apply Z.eqb_eq in Hs.
    apply in_teams_In in Ht.
    apply (apply_updates_unique TeamStats.key (fun team => (team, season))
             (fun team => same_team_season team season) (corsi_set season shots)).
    + intros p r'. apply same_team_season_key.
    + reflexivity.
    + apply teams_NoDup.
    + exact Ht.
    + unfold TeamStats.key. now rewrite Hs.
  - apply (apply_updates_untouched TeamStats.key (fun team => (team, season))
             (fun team => same_team_season team season) (corsi_set season shots)).
    + intros p r'. apply same_team_season_key.
    + intros Hin. apply in_map_iff in Hin as (team & Hk & Hteam).
      unfold TeamStats.key in Hk. inversion Hk; subst.
      rewrite Z.eqb_refl in Hc. simpl in Hc.
      apply in_teams_In in Hteam. congruence.
Qed.

Lemma calculate_team_corsi_fenwick_rows (season : Z) (shots : list Shots.row)
    (team_stats : list TeamStats.row) :
  calculate_team_corsi_fenwick season shots team_stats =
  Ok (map (TeamRows.corsi season shots) team_stats).
Proof.
  rewrite calculate_team_corsi_fenwick_total. f_equal.
  apply map_ext. apply corsi_updates_row.
Qed.

(** X15: the Corsi pass of a season always completes and rewrites exactly
    the team rows of that season whose team id is one of 1-6, 8, 9: it
    stores the number of the season's shots taken by the team as
    corsi_for, the number taken against it as corsi_against, and their
    ratio (or 50) as corsi_pct.  Rows of other seasons and rows of any
    other team id, such as 7, are left as they were. *)
Theorem calculate_team_corsi_fenwick_table (season : Z) (shots : list Shots.row)
    (team_stats : list TeamStats.row) :
  calculate_team_corsi_fenwick season shots team_stats =
  Ok (map (fun r =>
             if (TeamStats.season_id r =? season)
                && existsb (Z.eqb (TeamStats.team_id r)) [1; 2; 3; 4; 5; 6; 8; 9]
             then
               let cf := shots_for (TeamStats.team_id r) season shots in
               let ca := shots_against (TeamStats.team_id r) season shots in
               TeamStats.set_corsi cf ca
                 (if cf + ca >? 0
                  then (100.0 * float_of_Z cf / float_of_Z (cf + ca))%float
                  else 50%float) r
             else r)
          team_stats).
Proof. apply calculate_team_corsi_fenwick_rows. Qed.

Lemma calculate_team_pdo_rows (season : Z) (shots : list Shots.row)
    (team_stats : list TeamStats.row) :
  List.NoDup (map TeamStats.key team_stats) ->
  calculate_team_pdo season shots team_stats =
  Ok (map (TeamRows.pdo season shots) team_stats).
Proof.
  intros Hnd. rewrite calculate_team_pdo_total. f_equal.
  apply map_ext_in. intros r0 Hr0.
  set (ps := List.filter _ (List.filter _ team_stats)).
  set (cond := fun row : TeamStats.row => same_team_season (TeamStats.team_id row) season).
  set (keyP := fun row : TeamStats.row => (TeamStats.team_id row, season)).
  assert (Hck : forall p r', cond p r' = true <-> TeamStats.key r' = keyP p)
    by (intros p r'; apply same_team_season_key).
  assert (Hps : forall p, In p ps ->
            In p team_stats /\ keyP p = TeamStats.key p /\
            TeamStats.season_id p = season /\
            has_both_shot_counts (TeamStats.team_id p) season shots = true).
  { intros p Hp. apply filter_In in Hp as [Hp Hg]. apply filter_In in Hp as [Hp Hs].
    apply Z.eqb_eq in Hs. unfold keyP, TeamStats.key. rewrite Hs. auto. }
  unfold TeamRows.pdo.
  destruct ((TeamStats.season_id r0 =? season)
            && has_both_shot_counts (TeamStats.team_id r0) season shots) eqn:Hc.
  - apply andb_true_iff in Hc as [Hs Hg]. apply Z.eqb_eq in Hs.
    apply (apply_updates_unique TeamStats.key keyP cond (pdo_set season shots) Hck).
    + reflexivity.
    + replace (map keyP ps) with (map TeamStats.key ps).
      * unfold ps. now do 2 apply NoDup_map_filter.
      * apply map_ext_in. intros p Hp. symmetry. apply Hps, Hp.
    + unfold ps. apply filter_In. split; [|exact Hg].
      apply filter_In. split; [exact Hr0|now apply Z.eqb_eq].
    + unfold keyP, TeamStats.key. now rewrite Hs.
  - apply (apply_updates_untouched TeamStats.key keyP cond (pdo_set season shots) Hck).
    intros Hin. apply in_map_iff in Hin as (p & Hp & Hp_in).
    destruct (Hps p Hp_in) as (Hp_ts & Hpk & Hpseason & Hpg).
    assert (p = r0) by (eapply NoDup_map_unique; try eassumption; congruence).
    subst p. rewrite Hpseason, Z.eqb_refl, Hpg in Hc. discriminate Hc.
Qed.

Lemma corsi_pdo_commute (s1 s2 : Z) (shots : list Shots.row) (r : TeamStats.row) :
  TeamRows.pdo s2 shots (TeamRows.corsi s1 shots r) =
  TeamRows.corsi s1 shots (TeamRows.pdo s2 shots r).
Proof.
  unfold TeamRows.pdo, TeamRows.corsi.
  destruct ((TeamStats.season_id r =? s1) && TeamRows.in_teams (TeamStats.team_id r))
    eqn:Hc;
  destruct ((TeamStats.season_id r =? s2)
            && has_both_shot_counts (TeamStats.team_id r) s2 shots) eqn:Hp;
  cbn [corsi_set pdo_set TeamStats.set_corsi TeamStats.set_pdo TeamStats.season_id
       TeamStats.team_id TeamStats.goals_for TeamStats.goals_against];
  rewrite ?Hc, ?Hp; reflexivity.
Qed.

Lemma corsi_keys (season : Z) (shots : list Shots.row) (team_stats : list TeamStats.row) :
  map TeamStats.key (map (TeamRows.corsi season shots) team_stats) =
  map TeamStats.key team_stats.
Proof.
  rewrite map_map. apply map_ext. intros r. unfold TeamRows.corsi.
  destruct (_ && _); reflexivity.
Qed.

Lemma pdo_keys (season : Z) (shots : list Shots.row) (team_stats : list TeamStats.row) :
  map TeamStats.key (map (TeamRows.pdo season shots) team_stats) =
  map TeamStats.key team_stats.
Proof.
  rewrite map_map. apply map_ext. intros r. unfold TeamRows.pdo.
  destruct (_ && _); reflexivity.
Qed.

(** X16: with one team row per (team, season), the Corsi pass of one
    season and the PDO pass of another (or the same) season commute, and
    each of them is idempotent: the order the script runs them in, and a
    second run on unchanged shots, make no difference. *)
Theorem team_passes_commute (s1 s2 : Z) (shots : list Shots.row)
    (team_stats : list TeamStats.row)
    (Hkeys : List.NoDup (map TeamStats.key team_stats)) :
  (t ← calculate_team_corsi_fenwick s1 shots team_stats;
   calculate_team_pdo s2 shots t) =
  (t ← calculate_team_pdo s2 shots team_stats;
   calculate_team_corsi_fenwick s1 shots t) /\
  (t ← calculate_team_corsi_fenwick s1 shots team_stats;
   calculate_team_corsi_fenwick s1 shots t) =
  calculate_team_corsi_fenwick s1 shots team_stats /\
  (t ← calculate_team_pdo s2 shots team_stats;
   calculate_team_pdo s2 shots t) =
  calculate_team_pdo s2 shots team_stats.
Proof.
  rewrite !calculate_team_corsi_fenwick_rows.
  rewrite (calculate_team_pdo_rows s2 shots team_stats Hkeys).
  cbn [mbind result_bind].
  rewrite !calculate_team_corsi_fenwick_rows.
  rewrite !calculate_team_pdo_rows by (rewrite ?corsi_keys, ?pdo_keys; exact Hkeys).
  rewrite !map_map. repeat split; f_equal; apply map_ext; intros r.
  - apply corsi_pdo_commute.
  - unfold TeamRows.corsi.
    destruct ((TeamStats.season_id r =? s1) && TeamRows.in_teams (TeamStats.team_id r))
      eqn:Hc; [|now rewrite Hc].
    cbn [corsi_set TeamStats.set_corsi TeamStats.season_id TeamStats.team_id].
    now rewrite Hc.
  - unfold TeamRows.pdo.
    destruct ((TeamStats.season_id r =? s2)
              && has_both_shot_counts (TeamStats.team_id r) s2 shots)
      eqn:Hp; [|now rewrite Hp].
    cbn [pdo_set TeamStats.set_pdo TeamStats.season_id TeamStats.team_id
         TeamStats.goals_for TeamStats.goals_against].
    now rewrite Hp.
Qed.
End TeamRowsTheorems.

Lemma team_passes_commute_witness :
  List.NoDup (map TeamStats.key Sample.team_stats) /\
  (t ← AdvancedStatsCalculator.calculate_team_corsi_fenwick 5 Sample.shots
         Sample.team_stats;
   AdvancedStatsCalculator.calculate_team_pdo 5 Sample.shots t) =
  (t ← AdvancedStatsCalculator.calculate_team_pdo 5 Sample.shots Sample.team_stats;
   AdvancedStatsCalculator.calculate_team_corsi_fenwick 5 Sample.shots t).
Proof.
  assert (Hkeys : List.NoDup (map TeamStats.key Sample.team_stats)).
  { simpl. repeat constructor; simpl; intuition discriminate. }
  split; [exact Hkeys|].
  exact (proj1 (team_passes_commute 5 5 Sample.shots Sample.team_stats Hkeys)).
Defined.

(** ** Corsi and PDO of every team row *)

Section TeamTheorem.
Import AdvancedStatsCalculator.

End TeamTheorem.


(** ** Shot counts across the league *)

Lemma sum_int_from (l : list Z) (a : Z) : fold_left Z.add l a = a + Sql.sum_int l.
Proof.
  unfold Sql.sum_int. revert a. induction l as [|x l IH]; intros a; simpl; [lia|].
  rewrite IH, (IH (0 + x)). lia.
Qed.

Lemma sum_int_cons (x : Z) (l : list Z) : Sql.sum_int (x :: l) = x + Sql.sum_int l.
Proof. unfold Sql.sum_int at 1. simpl. apply sum_int_from. Qed.

Lemma count_cons {R} (c : R -> bool) (x : R) (t : list R) :
  Sql.count c (x :: t) = (if c x then 1 else 0) + Sql.count c t.
Proof. unfold Sql.count. simpl. destruct (c x); simpl length; lia. Qed.

(** Over pairwise distinct keys, a row is counted under exactly one key,
    or under none when its key is not listed. *)
Lemma sum_indicator (ks : list Z) (k : Z) :
  List.NoDup ks ->
  Sql.sum_int (map (fun k' => if k =? k' then 1 else 0) ks) =
  if existsb (Z.eqb k) ks then 1 else 0.
Proof.
  induction ks as [|a ks IH]; intros Hnd; [reflexivity|].
  inversion Hnd as [|? ? Ha Hnd']; subst.
  cbn [map existsb]. rewrite sum_int_cons, (IH Hnd').
  destruct (Z.eqb_spec k a) as [->|Hne]; simpl; [|reflexivity].
  destruct (existsb (Z.eqb a) ks) eqn:He; [|reflexivity].
  apply existsb_exists in He as (x & Hx & Hax). apply Z.eqb_eq in Hax. now subst.
Qed.

Lemma sum_counts {R} (f : R -> Z) (ks : list Z) (t : list R) :
  List.NoDup ks ->
  Sql.sum_int (map (fun k => Sql.count (fun r => f r =? k) t) ks) =
  Sql.count (fun r => existsb (Z.eqb (f r)) ks) t.
Proof.
  intros Hnd. induction t as [|x t IH].
  - unfold Sql.count. simpl. induction ks as [|k ks IHk]; [reflexivity|].
    inversion Hnd; subst. cbn [map]. rewrite sum_int_cons. now rewrite IHk.
  - rewrite count_cons, <- IH, <- (sum_indicator ks (f x) Hnd).
    clear IH Hnd. induction ks as [|k ks IHk]; [reflexivity|].
    cbn [map]. rewrite !sum_int_cons, count_cons, IHk. lia.
Qed.

Section LeagueCounts.
Import AdvancedStatsCalculator.

Lemma teams_distinct : List.NoDup teams.
Proof. unfold teams. repeat constructor; simpl; intuition discriminate. Qed.

(** X17: shot counts balance across the league.  Over the teams the
    Corsi pass iterates, the shots-for counts of a season add up to the
    number of that season's shots taken by a listed team, and the
    shots-against counts to the number taken against a listed team; so
    when every shot of the season has both its team and its opponent in
    the list, total corsi_for equals total corsi_against, and both equal
    the number of shots of the season. *)
Theorem corsi_counts_balance (season : Z) (shots : list Shots.row)
    (Hlisted : Forall (fun s => Shots.season_id s = season ->
                                In (Shots.team_id s) teams /\
                                In (Shots.opponent_team_id s) teams) shots) :
  let in_season := List.filter (fun s => Shots.season_id s =? season) shots in
  Sql.sum_int (map (fun team => shots_for team season shots) teams) =
    Z.of_nat (length in_season) /\
  Sql.sum_int (map (fun team => shots_against team season shots) teams) =
    Z.of_nat (length in_season).
Proof.
  intros in_season.
  assert (Hall : forall s, In s in_season ->
            existsb (Z.eqb (Shots.team_id s)) teams = true /\
            existsb (Z.eqb (Shots.opponent_team_id s)) teams = true).
  { intros s Hs. apply filter_In in Hs as [Hs Hseason]. apply Z.eqb_eq in Hseason.
    destruct (proj1 (List.Forall_forall _ _) Hlisted s Hs Hseason) as [H1 H2].
    split; apply existsb_exists.
    - exists (Shots.team_id s). split; [exact H1|apply Z.eqb_refl].
    - exists (Shots.opponent_team_id s). split; [exact H2|apply Z.eqb_refl]. }
  assert (Hfull : forall c : Shots.row -> bool,
            (forall s, In s in_season -> c s = true) ->
            Sql.count c in_season = Z.of_nat (length in_season)).
  { intros c Hc. unfold Sql.count. f_equal. f_equal.
    induction in_season as [|s l IH]; [reflexivity|]. simpl.
    rewrite (Hc s) by now left. f_equal. apply IH.
    - intros s' Hs'. apply Hall. now right.
    - intros s' Hs'. apply Hc. now right. }
  unfold shots_for, shots_against. fold in_season.
  rewrite (sum_counts Shots.team_id teams in_season teams_distinct).
  rewrite (sum_counts Shots.opponent_team_id teams in_season teams_distinct).
  split; apply Hfull; intros s Hs; apply Hall, Hs.
Qed.
End LeagueCounts.

Lemma corsi_counts_balance_witness :
  let listed s := Shots.season_id s = 5 ->
                  In (Shots.team_id s) AdvancedStatsCalculator.teams /\
                  In (Shots.opponent_team_id s) AdvancedStatsCalculator.teams in
  Forall listed Sample.shots /\
  Sql.sum_int (map (fun team => AdvancedStatsCalculator.shots_for team 5 Sample.shots)
                 AdvancedStatsCalculator.teams) = 4 /\
  Sql.sum_int (map (fun team => AdvancedStatsCalculator.shots_against team 5 Sample.shots)
                 AdvancedStatsCalculator.teams) = 4.
Proof.
  intros listed.
  assert (H : Forall listed Sample.shots).
  { apply List.Forall_forall. intros s Hs _.
    unfold AdvancedStatsCalculator.teams. simpl in Hs.
    repeat (destruct Hs as [<-|Hs]; [simpl; split; auto 15|]). destruct Hs. }
  split; [exact H|].
  exact (corsi_counts_balance 5 Sample.shots H).
Defined.

(** ** Faceoff statistics *)

Section GroupedRows.
Context {R K Q : Type} `{EqDecision K}.
Variables (key : R -> K) (qkey : Q -> K) (mk : K * list R -> Q).
Hypothesis qkey_mk : forall k g, qkey (mk (k, g)) = k.

Lemma grouped_rows_of_key (F : K -> list R) (ks : list K) (k : K) :
  List.NoDup ks ->
  List.filter (fun q => bool_decide (qkey q = k)) (map (fun k' => mk (k', F k')) ks) =
  if in_dec (fun a b => decide (a = b)) k ks then [mk (k, F k)] else [].
Proof.
  induction ks as [|a ks IH]; intros Hnd; [reflexivity|].
  inversion Hnd as [|? ? Ha Hnd']; subst.
  cbn [map List.filter]. rewrite qkey_mk, (IH Hnd').
  destruct (decide (a = k)) as [Hak|Hak].
  - subst a. rewrite bool_decide_eq_true_2 by reflexivity.
    destruct (in_dec _ k ks) as [Hin'|_]; [contradiction|].
    destruct (in_dec _ k (k :: ks)) as [_|Hin]; [reflexivity|].
    exfalso. apply Hin. now left.
  - rewrite bool_decide_eq_false_2 by exact Hak.
    destruct (in_dec _ k ks) as [Hin'|Hin'];
      destruct (in_dec _ k (a :: ks)) as [Hin|Hin]; try reflexivity.
    + exfalso. apply Hin. now right.
    + exfalso. destruct Hin; contradiction.
Qed.

(** Among the rows of a grouped query, a key has one row, made from the
    table rows with that key, or none when the table has no such row. *)
Lemma group_rows_of_key (t : list R) (k : K) :
  List.filter (fun q => bool_decide (qkey q = k)) (map mk (Sql.group_by key t)) =
  match List.filter (fun r => bool_decide (key r = k)) t with
  | [] => []
  | g => [mk (k, g)]
  end.
Proof.
  unfold Sql.group_by. rewrite map_map.
  rewrite (grouped_rows_of_key
             (fun k' => List.filter (fun r => bool_decide (key r = k')) t))
    by apply NoDup_nodup.
  destruct (in_dec _ k (nodup (fun a b => decide (a = b)) (map key t))) as [Hin|Hin].
  - apply nodup_In, in_map_iff in Hin as (r & Hr & Hin).
    destruct (List.filter _ t) as [|x g] eqn:Hf; [|reflexivity].
    exfalso.
    assert (Hx : In r (List.filter (fun r => bool_decide (key r = k)) t)).
    { apply filter_In. split; [exact Hin|]. now apply bool_decide_eq_true_2. }
    rewrite Hf in Hx. destruct Hx.
  - destruct (List.filter _ t) as [|x g] eqn:Hf; [reflexivity|].
    exfalso. apply Hin. apply nodup_In.
    assert (Hx : In x (List.filter (fun r => bool_decide (key r = k)) t))
      by (rewrite Hf; now left).
    apply filter_In in Hx as [Hx Hk]. apply bool_decide_eq_true_1 in Hk.
    rewrite <- Hk. now apply in_map.
Qed.

(** Every row of a grouped query comes from a non-empty group of table
    rows. *)
Lemma group_rows_nonempty (t : list R) (q : Q) :
  In q (map mk (Sql.group_by key t)) ->
  exists k x g, q = mk (k, x :: g) /\ forall r, In r (x :: g) -> In r t.
Proof.
  intros Hin. apply in_map_iff in Hin as ([k g] & <- & Hin).
  apply in_group_by in Hin as [Hk ->].
  apply in_map_iff in Hk as (r & Hr & Hin).
  destruct (List.filter (fun r0 => bool_decide (key r0 = k)) t) as [|x g] eqn:Hf.
  - exfalso.
    assert (Hx : In r (List.filter (fun r0 => bool_decide (key r0 = k)) t)).
    { apply filter_In. split; [exact Hin|]. now apply bool_decide_eq_true_2. }
    rewrite Hf in Hx. destruct Hx.
  - exists k, x, g. split; [reflexivity|].
    intros r0 Hr0. rewrite <- Hf in Hr0. now apply filter_In in Hr0 as [? _].
Qed.
End GroupedRows.

Section FaceoffTheorems.
Import FaceoffStats.

Lemma accumulate_add_row (d : gmap (option Z * option Z) (Z * Z))
    (row : query_row) (k : option Z * option Z) :
  accumulate d row !! k =
  if bool_decide (row_key row = k) then add_row (d !! k) row else d !! k.
Proof.
  destruct row as [[[player_id team_id] total] wins].
  unfold accumulate, add_row, row_key, row_total, row_wins.
  destruct (decide ((player_id, team_id) = k)) as [<-|Hk].
  - rewrite bool_decide_eq_true_2 by reflexivity.
    destruct (d !! (player_id, team_id)) as [[total0 wins0]|];
      now rewrite lookup_insert_eq.
  - rewrite bool_decide_eq_false_2 by exact Hk.
    destruct (d !! (player_id, team_id)) as [[total0 wins0]|];
      now rewrite lookup_insert_ne.
Qed.

(** The entry of a key after the loop depends only on the query rows
    with that key. *)
Lemma accumulate_lookup (l : list query_row)
    (d : gmap (option Z * option Z) (Z * Z)) (k : option Z * option Z) :
  fold_left accumulate l d !! k =
  fold_left add_row (List.filter (fun row => bool_decide (row_key row = k)) l) (d !! k).
Proof.
  revert d. induction l as [|row l IH]; intros d; simpl; [reflexivity|].
  rewrite IH, accumulate_add_row.
  destruct (bool_decide (row_key row = k)); reflexivity.
Qed.

(** A property of entries that sums keep and every query row has holds
    of every entry. *)
Lemma accumulate_invariant (P : Z -> Z -> Prop) (l : list query_row) :
  (forall t w t' w', P t w -> P t' w' -> P (t + t') (w + w')) ->
  Forall (fun row => P (row_total row) (row_wins row)) l ->
  forall d, (forall k t w, d !! k = Some (t, w) -> P t w) ->
  forall k t w, fold_left accumulate l d !! k = Some (t, w) -> P t w.
Proof.
  intros Hadd Hl. induction Hl as [|row l Hrow Hl IH]; intros d Hd; simpl; [exact Hd|].
  apply IH. intros k t w. rewrite accumulate_add_row.
  destruct (bool_decide (row_key row = k)); [|apply Hd].
  unfold add_row. destruct (d !! k) as [[t0 w0]|] eqn:Hk.
  - intros [= <- <-]. apply Hadd; [eapply Hd; exact Hk|exact Hrow].
  - intros [= <- <-]. exact Hrow.
Qed.

Lemma key_test (p t team : option Z) (player : Z) :
  bool_decide (p <> None) && bool_decide ((p, t) = (Some player, team)) =
  bool_decide (p = Some player) && bool_decide (t = team).
Proof.
  repeat case_bool_decide; simpl; try reflexivity; exfalso; naive_solver.
Qed.

Lemma home_rows_of_key (season : Z) (faceoffs : list Faceoffs.row)
    (player : Z) (team : option Z) :
  List.filter (fun row => bool_decide (row_key row = (Some player, team)))
    (home_rows season faceoffs) =
  match home_of season player team faceoffs with
  | [] => []
  | g => [(Some player, team, Z.of_nat (length g), Sql.sum_int (map Faceoffs.home_win g))]
  end.
Proof.
  unfold home_rows.
  rewrite (group_rows_of_key
             (fun f => (Faceoffs.home_player_id f, Faceoffs.home_team_id f)) row_key)
    by (intros [p t] g; reflexivity).
  rewrite filter_filter_andb.
  assert (Heq : List.filter
                  (fun x => (Faceoffs.season_id x =? season)
                            && bool_decide (Faceoffs.home_player_id x <> None)
                            && bool_decide ((Faceoffs.home_player_id x, Faceoffs.home_team_id x)
                                            = (Some player, team)))
                  faceoffs = home_of season player team faceoffs).
  { unfold home_of. apply filter_ext. intros f.
    now rewrite <- !andb_assoc, key_test. }
  rewrite Heq. reflexivity.
Qed.

Lemma away_rows_of_key (season : Z) (faceoffs : list Faceoffs.row)
    (player : Z) (team : option Z) :
  List.filter (fun row => bool_decide (row_key row = (Some player, team)))
    (away_rows season faceoffs) =
  match away_of season player team faceoffs with
  | [] => []
  | g => [(Some player, team, Z.of_nat (length g),
           Sql.sum_int (map (fun f => if Faceoffs.home_win f =? 0 then 1 else 0) g))]
  end.
Proof.
  unfold away_rows.
  rewrite (group_rows_of_key
             (fun f => (Faceoffs.away_player_id f, Faceoffs.away_team_id f)) row_key)
    by (intros [p t] g; reflexivity).
  rewrite filter_filter_andb.
  assert (Heq : List.filter
                  (fun x => (Faceoffs.season_id x =? season)
                            && bool_decide (Faceoffs.away_player_id x <> None)
                            && bool_decide ((Faceoffs.away_player_id x, Faceoffs.away_team_id x)
                                            = (Some player, team)))
                  faceoffs = away_of season player team faceoffs).
  { unfold away_of. apply filter_ext. intros f.
    now rewrite <- !andb_assoc, key_test. }
  rewrite Heq. reflexivity.
Qed.

Lemma null_player_rows (season : Z) (faceoffs : list Faceoffs.row) (team : option Z) :
  List.filter (fun row => bool_decide (row_key row = (None, team)))
    (home_rows season faceoffs ++ away_rows season faceoffs) = [].
Proof.
  rewrite List.filter_app. unfold home_rows, away_rows.
  rewrite (group_rows_of_key
             (fun f => (Faceoffs.home_player_id f, Faceoffs.home_team_id f)) row_key)
    by (intros [p t] g; reflexivity).
  rewrite (group_rows_of_key
             (fun f => (Faceoffs.away_player_id f, Faceoffs.away_team_id f)) row_key)
    by (intros [p t] g; reflexivity).
  rewrite !filter_filter_andb.
  assert (Hnone : forall (c : Faceoffs.row -> bool) (pl tm : Faceoffs.row -> option Z),
             List.filter (fun x => c x && bool_decide (pl x <> None)
                                   && bool_decide ((pl x, tm x) = (None, team)))
               faceoffs = []).
  { intros c pl tm. induction faceoffs as [|f fs IH]; [reflexivity|]. simpl.
    destruct (pl f) as [p|] eqn:Hp.
    - rewrite (bool_decide_eq_false_2 ((Some p, tm f) = (None, team))) by discriminate.
      rewrite andb_false_r. exact IH.
    - rewrite (bool_decide_eq_false_2 (None <> None)) by tauto.
      rewrite andb_false_r. exact IH. }
  rewrite (Hnone _ Faceoffs.home_player_id Faceoffs.home_team_id).
  rewrite (Hnone _ Faceoffs.away_player_id Faceoffs.away_team_id).
  reflexivity.
Qed.

(** X18: the dictionary built by [calculate_faceoff_stats] has, for a
    player and a content of the team column (a team id, or NULL as the
    scraper leaves it), an entry exactly when the player took a faceoff of
    the season with that team column, at home or away.  Its total adds
    the home and the away faceoffs, and its wins add the home faceoffs'
    [home_win] to the number of away faceoffs with [home_win = 0].  No
    entry has a NULL player. *)
Theorem player_faceoffs_lookup (season : Z) (faceoffs : list Faceoffs.row)
    (player : Z) (team : option Z) :
  let h := home_of season player team faceoffs in
  let a := away_of season player team faceoffs in
  player_faceoffs season faceoffs !! (Some player, team) =
    match h, a with
    | [], [] => None
    | _, _ =>
        Some (Z.of_nat (length h) + Z.of_nat (length a),
              Sql.sum_int (map Faceoffs.home_win h) +
              Sql.sum_int (map (fun f => if Faceoffs.home_win f =? 0 then 1 else 0) a))
    end /\
  player_faceoffs season faceoffs !! (None, team) = None.
Proof.
  intros h a. unfold player_faceoffs. split.
  - rewrite accumulate_lookup, List.filter_app, home_rows_of_key, away_rows_of_key.
    fold h a. rewrite lookup_empty.
    destruct h as [|x h], a as [|y a]; cbn [app fold_left];
      unfold add_row, row_total, row_wins; cbn [map length];
      change (Sql.sum_int []) with 0; change (Z.of_nat 0) with 0;
      try reflexivity; do 2 f_equal; lia.
  - rewrite accumulate_lookup, null_player_rows. simpl. apply lookup_empty.
Qed.

Lemma sum_int_bounds (l : list Z) :
  Forall (fun x => 0 <= x <= 1) l -> 0 <= Sql.sum_int l <= Z.of_nat (length l).
Proof.
  induction 1 as [|x l Hx Hl IH]; [unfold Sql.sum_int; simpl; lia|].
  rewrite sum_int_cons. simpl length. lia.
Qed.

Lemma query_rows_total (season : Z) (faceoffs : list Faceoffs.row) :
  Forall (fun row => 1 <= row_total row)
    (home_rows season faceoffs ++ away_rows season faceoffs).
Proof.
  apply Forall_app. split; apply List.Forall_forall; intros row Hin;
    apply group_rows_nonempty in Hin as ([p t] & x & g & -> & _);
    unfold row_total; simpl length; lia.
Qed.

Lemma query_rows_wins (season : Z) (faceoffs : list Faceoffs.row) :
  Forall (fun f => Faceoffs.home_win f = 0 \/ Faceoffs.home_win f = 1) faceoffs ->
  Forall (fun row => 0 <= row_wins row <= row_total row)
    (home_rows season faceoffs ++ away_rows season faceoffs).
Proof.
  intros Hwin. rewrite List.Forall_forall in Hwin.
  apply Forall_app. split; apply List.Forall_forall; intros row Hin;
    apply group_rows_nonempty in Hin as ([p t] & x & g & -> & Hsub);
    unfold row_total, row_wins;
    match goal with
    | |- _ <= Sql.sum_int (map ?f ?l) <= _ =>
        rewrite <- (length_map f l); apply sum_int_bounds
    end;
    apply List.Forall_forall; intros v Hv;
    apply in_map_iff in Hv as (f & <- & Hf);
    apply Hsub, List.filter_In in Hf as [Hf _]; apply Hwin in Hf.
  - lia.
  - destruct (Z.eqb_spec (Faceoffs.home_win f) 0); lia.
Qed.

(** X19: every entry of the dictionary of [calculate_faceoff_stats],
    whatever its team column holds, counts at least one faceoff, so the
    percentage computed for it at line 202 is the quotient
    [100.0 * wins / total]: the division never fails and the fallback 50
    is never used. *)
Theorem faceoff_pct_is_quotient (season : Z) (faceoffs : list Faceoffs.row)
    (key : option Z * option Z) (total wins : Z) :
  player_faceoffs season faceoffs !! key = Some (total, wins) ->
  1 <= total /\
  faceoff_pct total wins = Ok (100.0 * float_of_Z wins / float_of_Z total)%float.
Proof.
  intros Hk.
  assert (Ht : 1 <= total).
  { revert Hk. unfold player_faceoffs.
    apply (accumulate_invariant (fun t _ => 1 <= t)
             (home_rows season faceoffs ++ away_rows season faceoffs)).
    - intros; lia.
    - apply query_rows_total.
    - intros k t w. now rewrite lookup_empty. }
  split; [exact Ht|].
  unfold faceoff_pct, truediv_int.
  destruct (Z.gtb_spec total 0); [|lia].
  destruct (Z.eqb_spec total 0); [lia|reflexivity].
Qed.

Lemma faceoff_pct_is_quotient_witness :
  FaceoffStats.player_faceoffs 5 FaceoffStats.sample !! (Some 20, None) = Some (4, 2) /\
  1 <= 4 /\
  FaceoffStats.faceoff_pct 4 2 = Ok (100.0 * float_of_Z 2 / float_of_Z 4)%float.
Proof.
  assert (H : FaceoffStats.player_faceoffs 5 FaceoffStats.sample !! (Some 20, None)
              = Some (4, 2)) by (vm_compute; reflexivity).
  split; [exact H|].
  exact (faceoff_pct_is_quotient 5 FaceoffStats.sample (Some 20, None) 4 2 H).
Defined.

(** X20: when every faceoff's [home_win] flag is 0 or 1, as the scraper
    writes it, the wins of every entry of the dictionary of
    [calculate_faceoff_stats] lie between zero and the entry's attempts,
    whatever the team columns hold. *)
Theorem faceoff_wins_bounded (season : Z) (faceoffs : list Faceoffs.row)
    (Hwin : Forall (fun f => Faceoffs.home_win f = 0 \/ Faceoffs.home_win f = 1) faceoffs)
    (key : option Z * option Z) (total wins : Z) :
  player_faceoffs season faceoffs !! key = Some (total, wins) ->
  0 <= wins <= total.
Proof.
  unfold player_faceoffs.
  apply (accumulate_invariant (fun t w => 0 <= w <= t)
           (home_rows season faceoffs ++ away_rows season faceoffs)).
  - intros; lia.
  - now apply query_rows_wins.
  - intros k t w. now rewrite lookup_empty.
Qed.

Lemma faceoff_wins_bounded_witness :
  Forall (fun f => Faceoffs.home_win f = 0 \/ Faceoffs.home_win f = 1)
    FaceoffStats.sample /\
  FaceoffStats.player_faceoffs 5 FaceoffStats.sample !! (Some 21, None) = Some (3, 1) /\
  0 <= 1 <= 3.
Proof.
  assert (Hwin : Forall (fun f => Faceoffs.home_win f = 0 \/ Faceoffs.home_win f = 1)
                   FaceoffStats.sample).
  { unfold FaceoffStats.sample.
    repeat (apply List.Forall_cons; [simpl; auto|]). apply List.Forall_nil. }
  assert (H : FaceoffStats.player_faceoffs 5 FaceoffStats.sample !! (Some 21, None)
              = Some (3, 1)) by (vm_compute; reflexivity).
  split; [exact Hwin|]. split; [exact H|].
  exact (faceoff_wins_bounded 5 FaceoffStats.sample Hwin (Some 21, None) 3 1 H).
Defined.
End FaceoffTheorems.

(** ** Rate statistics *)

Section RateTheorems.
Import RateStats.
Variables (season : Z) (players : list Players.row).
Hypothesis players_unique : List.NoDup (map Players.player_id players).

Lemma toi_cond_key (p : toi_row) (r : SkaterRates.row) :
  toi_cond season p r = true <-> SkaterRates.key r = toi_key season p.
Proof.
  destruct p as [[[i t] gp] pos]. unfold toi_cond, toi_key, SkaterRates.key.
  rewrite !andb_true_iff, !Z.eqb_eq. split.
  - intros [[-> ->] ->]. reflexivity.
  - intros H. inversion H. auto.
Qed.

Lemma toi_set_key (p : toi_row) (r : SkaterRates.row) :
  SkaterRates.key (toi_set p r) = SkaterRates.key r.
Proof. destruct p as [[[i t] gp] pos]. reflexivity. Qed.

Lemma in_no_toi (skater_stats : list SkaterRates.row) (u : toi_row) :
  In u (no_toi season players skater_stats) <->
  exists r p, In r skater_stats /\ lacks_toi season r = true /\
              In p (on_file players r) /\
              u = (SkaterRates.player_id r, SkaterRates.team_id r,
                   SkaterRates.games_played r, Players.position p).
Proof.
  unfold no_toi. rewrite in_flat_map. split.
  - intros (r & Hr & Hu). destruct (lacks_toi season r) eqn:He; [|destruct Hu].
    apply in_map_iff in Hu as (p & <- & Hp). exists r, p. auto.
  - intros (r & p & Hr & He & Hp & ->). exists r. split; [exact Hr|].
    rewrite He. apply in_map_iff. exists p. auto.
Qed.

Lemma lacks_toi_season (r : SkaterRates.row) :
  lacks_toi season r = true -> SkaterRates.season_id r = season.
Proof. unfold lacks_toi. rewrite andb_true_iff, Z.eqb_eq. tauto. Qed.

Lemma no_toi_keys_NoDup (skater_stats : list SkaterRates.row) :
  List.NoDup (map SkaterRates.key skater_stats) ->
  List.NoDup (map (toi_key season) (no_toi season players skater_stats)).
Proof.
  induction skater_stats as [|r l IH]; simpl; intros Hnd; [constructor|].
  inversion Hnd as [|? ? Hr Hnd']; subst.
  change (flat_map _ l) with (no_toi season players l). rewrite map_app.
  assert (Hrest : forall k, In k (map (toi_key season) (no_toi season players l)) ->
                            In k (map SkaterRates.key l)).
  { intros k Hk. apply in_map_iff in Hk as (u & <- & Hu).
    apply in_no_toi in Hu as (r' & p & Hr' & He & _ & ->).
    apply in_map_iff. exists r'. split; [|exact Hr'].
    unfold SkaterRates.key, toi_key. now rewrite (lacks_toi_season r' He). }
  destruct (lacks_toi season r) eqn:He; [|now apply IH].
  destruct (filter_at_most_one Players.player_id (SkaterRates.player_id r) players
              players_unique) as [->|(p & ->)]; simpl; [now apply IH|].
  constructor; [|now apply IH].
  intros Hin. apply Hr. apply Hrest.
  unfold SkaterRates.key. rewrite (lacks_toi_season r He). exact Hin.
Qed.

(** The ice-time loop, row by row. *)
Lemma toi_loop_rows (skater_stats : list SkaterRates.row) :
  List.NoDup (map SkaterRates.key skater_stats) ->
  fold_left
    (fun t '(player_id, team_id, gp, pos) =>
       Sql.update
         (fun r => (SkaterRates.player_id r =? player_id)
                   && (SkaterRates.team_id r =? team_id)
                   && (SkaterRates.season_id r =? season))
         (SkaterRates.set_ice_time (Some (est_toi gp pos))) t)
    (no_toi season players skater_stats) skater_stats =
  map (with_toi season players) skater_stats.
Proof.
  intros Hkeys.
  change (fold_left ?f ?ps ?t) with (Sql.executemany (fun p t => f t p) ps t).
  rewrite (executemany_rows (toi_cond season) toi_set)
    by (intros [[[i t] gp] pos] tbl; reflexivity).
  apply map_ext_in. intros r Hr.
  set (ups := no_toi season players skater_stats).
  assert (Hown : forall u, In u ups -> toi_key season u = SkaterRates.key r ->
                 exists p, lacks_toi season r = true /\ In p (on_file players r) /\
                           u = (SkaterRates.player_id r, SkaterRates.team_id r,
                                SkaterRates.games_played r, Players.position p)).
  { intros u Hu Hk. apply in_no_toi in Hu as (r' & p & Hr' & He & Hp & ->).
    assert (r' = r).
    { eapply NoDup_map_unique; [exact Hkeys|exact Hr'|exact Hr|].
      rewrite <- Hk. unfold SkaterRates.key, toi_key.
      now rewrite (lacks_toi_season r' He). }
    subst r'. eauto. }
  unfold with_toi.
  destruct (lacks_toi season r) eqn:He.
  - unfold on_file in *.
    destruct (filter_at_most_one Players.player_id (SkaterRates.player_id r) players
                players_unique) as [Hnone|(p & Hone)].
    + rewrite Hnone.
      apply (apply_updates_untouched SkaterRates.key (toi_key season)
               (toi_cond season) toi_set toi_cond_key).
      intros Hin. apply in_map_iff in Hin as (u & Hk & Hu).
      destruct (Hown u Hu Hk) as (p & _ & Hp & _). rewrite Hnone in Hp. destruct Hp.
    + rewrite Hone.
      apply (apply_updates_unique SkaterRates.key (toi_key season)
               (toi_cond season) toi_set toi_cond_key toi_set_key ups
               (SkaterRates.player_id r, SkaterRates.team_id r,
                SkaterRates.games_played r, Players.position p)).
      * now apply no_toi_keys_NoDup.
      * apply in_no_toi. exists r, p. unfold on_file. rewrite Hone.
        repeat split; auto. now left.
      * unfold toi_key, SkaterRates.key. now rewrite (lacks_toi_season r He).
  - apply (apply_updates_untouched SkaterRates.key (toi_key season)
             (toi_cond season) toi_set toi_cond_key).
    intros Hin. apply in_map_iff in Hin as (u & Hk & Hu).
    destruct (Hown u Hu Hk) as (p & He' & _). congruence.
Qed.

Lemma with_toi_key (r : SkaterRates.row) :
  SkaterRates.key (with_toi season players r) = SkaterRates.key r.
Proof.
  unfold with_toi. destruct (lacks_toi season r); [|reflexivity].
  destruct (on_file players r); reflexivity.
Qed.

Lemma rate_stats_by_row (skater_stats : list SkaterRates.row)
    (Hkeys : List.NoDup (map SkaterRates.key skater_stats)) :
  calculate_rate_stats season players skater_stats =
  map (fun r => if SkaterRates.season_id r =? season
                then rates (with_toi season players r) else r)
      skater_stats.
Proof.
  unfold calculate_rate_stats. cbv zeta.
  rewrite (toi_loop_rows skater_stats Hkeys).
  unfold Sql.update. rewrite map_map. apply map_ext. intros r.
  assert (Hs : SkaterRates.season_id (with_toi season players r)
               = SkaterRates.season_id r).
  { pose proof (with_toi_key r) as Hk. unfold SkaterRates.key in Hk. congruence. }
  rewrite Hs. destruct (SkaterRates.season_id r =? season) eqn:He; [reflexivity|].
  unfold with_toi, lacks_toi. rewrite He. reflexivity.
Qed.

(** X21: with one skater row per (player, team, season) and one players
    row per player id, [calculate_rate_stats] acts row by row.  A row of
    the season whose ice time is NULL or 0 and whose player is on file
    gets the estimate (20 minutes a game for D, LD and RD, 15 otherwise);
    a recorded ice time is kept.  Then every row of the season gets its
    four per-60 rates from that ice time (0 when it is NULL or not
    positive) and its shooting percentage.  Rows of other seasons are
    left as they were. *)
Theorem calculate_rate_stats_rows (skater_stats : list SkaterRates.row)
    (Hkeys : List.NoDup (map SkaterRates.key skater_stats)) :
  calculate_rate_stats season players skater_stats =
  map (fun r => if SkaterRates.season_id r =? season
                then rates (with_toi season players r) else r)
      skater_stats.
Proof. exact (rate_stats_by_row skater_stats Hkeys). Qed.

Lemma with_toi_rates (r : SkaterRates.row) :
  rates (with_toi season players (rates r)) = rates (with_toi season players r).
Proof.
  unfold with_toi.
  change (lacks_toi season (rates r)) with (lacks_toi season r).
  change (on_file players (rates r)) with (on_file players r).
  destruct (lacks_toi season r); [|reflexivity].
  destruct (on_file players r); reflexivity.
Qed.

Lemma with_toi_idempotent (r : SkaterRates.row) :
  with_toi season players (with_toi season players r) = with_toi season players r.
Proof.
  destruct (lacks_toi season r) eqn:He.
  - destruct (on_file players r) as [|p ps] eqn:Hp.
    + assert (Hr : with_toi season players r = r)
        by (unfold with_toi; now rewrite He, Hp).
      now rewrite !Hr.
    + assert (Hr : with_toi season players r =
                   SkaterRates.set_ice_time
                     (Some (est_toi (SkaterRates.games_played r) (Players.position p))) r)
        by (unfold with_toi; now rewrite He, Hp).
      rewrite Hr. unfold with_toi.
      change (on_file players (SkaterRates.set_ice_time ?v r))
        with (on_file players r).
      rewrite Hp.
      destruct (lacks_toi season (SkaterRates.set_ice_time _ r)); reflexivity.
  - assert (Hr : with_toi season players r = r)
      by (unfold with_toi; now rewrite He).
    now rewrite !Hr.
Qed.

Lemma step_idempotent (r : SkaterRates.row) :
  rates (with_toi season players (rates (with_toi season players r))) =
  rates (with_toi season players r).
Proof. now rewrite with_toi_rates, with_toi_idempotent. Qed.


(** X22: under the same uniqueness conditions, running
    [calculate_rate_stats] for a season a second time changes nothing:
    an estimated ice time is either kept or estimated again with the same
    value, and the rates are recomputed from the same columns. *)
Theorem calculate_rate_stats_idempotent (skater_stats : list SkaterRates.row)
    (Hkeys : List.NoDup (map SkaterRates.key skater_stats)) :
  calculate_rate_stats season players
    (calculate_rate_stats season players skater_stats) =
  calculate_rate_stats season players skater_stats.
Proof.
  set (step := fun r => if SkaterRates.season_id r =? season
                        then rates (with_toi season players r) else r).
  assert (Hstep_key : forall r, SkaterRates.key (step r) = SkaterRates.key r).
  { intros r. unfold step. destruct (SkaterRates.season_id r =? season); [|reflexivity].
    rewrite <- (with_toi_key r). reflexivity. }
  rewrite (rate_stats_by_row skater_stats Hkeys). fold step.
  rewrite rate_stats_by_row.
  - fold step. rewrite map_map. apply map_ext. intros r.
    unfold step at 1. 
    assert (Hs : SkaterRates.season_id (step r) = SkaterRates.season_id r).
    { pose proof (Hstep_key r) as Hk. unfold SkaterRates.key in Hk. congruence. }
    rewrite Hs. unfold step.
    destruct (Z.eqb_spec (SkaterRates.season_id r) season) as [He|He]; [|reflexivity].
    apply step_idempotent.
  - rewrite map_map. erewrite map_ext; [exact Hkeys|]. exact Hstep_key.
Qed.
End RateTheorems.

Lemma calculate_rate_stats_rows_witness :
  List.NoDup (map Players.player_id RateStats.sample_players) /\
  List.NoDup (map SkaterRates.key RateStats.sample) /\
  RateStats.calculate_rate_stats 5 RateStats.sample_players RateStats.sample =
  map (fun r => if SkaterRates.season_id r =? 5
                then RateStats.rates (RateStats.with_toi 5 RateStats.sample_players r)
                else r)
      RateStats.sample.
Proof.
  assert (Hp : List.NoDup (map Players.player_id RateStats.sample_players)).
  { simpl. repeat constructor; simpl; intuition lia. }
  assert (Hk : List.NoDup (map SkaterRates.key RateStats.sample)).
  { simpl. repeat constructor; simpl; intuition discriminate. }
  split; [exact Hp|]. split; [exact Hk|].
  exact (calculate_rate_stats_rows 5 RateStats.sample_players Hp RateStats.sample Hk).
Defined.

Lemma calculate_rate_stats_idempotent_witness :
  List.NoDup (map Players.player_id RateStats.sample_players) /\
  List.NoDup (map SkaterRates.key RateStats.sample) /\
  RateStats.calculate_rate_stats 5 RateStats.sample_players
    (RateStats.calculate_rate_stats 5 RateStats.sample_players RateStats.sample) =
  RateStats.calculate_rate_stats 5 RateStats.sample_players RateStats.sample.
Proof.
  assert (Hp : List.NoDup (map Players.player_id RateStats.sample_players)).
  { simpl. repeat constructor; simpl; intuition lia. }
  assert (Hk : List.NoDup (map SkaterRates.key RateStats.sample)).
  { simpl. repeat constructor; simpl; intuition discriminate. }
  split; [exact Hp|]. split; [exact Hk|].
  exact (calculate_rate_stats_idempotent 5 RateStats.sample_players Hp
           RateStats.sample Hk).
Defined.

(** ** Blocked shots and clutch goals *)

Section CountPass.
Import CountPasses.
Context {E : Type}.
Variables (key : E -> option Z * Z) (sel : E -> bool).
Variable set : Z -> SkaterCounts.row -> SkaterCounts.row.
Variable season : Z.
Hypothesis set_key : forall n r, skater_key (set n r) = skater_key r.

Lemma count_cond_key (p : count_row) (r : SkaterCounts.row) :
  count_cond season p r = true <-> skater_key r = count_key season p.
Proof.
  destruct p as [[who team] n]. unfold count_cond, count_key, skater_key, eq_param.
  destruct who as [w|].
  - rewrite !andb_true_iff, !Z.eqb_eq. split.
    + intros [[-> ->] ->]. reflexivity.
    + intros H. inversion H. auto.
  - simpl. split; discriminate.
Qed.

Lemma count_rows_keys_NoDup (t : list E) :
  List.NoDup
    (map (count_key season)
       (map (fun '((who, team), g) => (who, team, Z.of_nat (length g)))
          (Sql.group_by key t))).
Proof.
  rewrite map_map.
  rewrite (map_ext _ (fun kg => (fun k : option Z * Z => (k.1, k.2, season)) (fst kg)))
    by (intros [[who team] g]; reflexivity).
  rewrite <- (map_map fst (fun k : option Z * Z => (k.1, k.2, season))).
  apply NoDup_map_inj; [|apply group_by_keys_NoDup].
  intros [a b] [c d]. simpl. congruence.
Qed.

(** A grouped count written back by key: a row of the season gets the
    number of selected events under its own player and team when there
    is one, and is left alone otherwise. *)
Lemma count_pass_rows (events : list E) (t : list SkaterCounts.row) :
  fold_left
    (fun t '(who, team, n) =>
       Sql.update
         (fun r => eq_param (SkaterCounts.player_id r) who
                   && (SkaterCounts.team_id r =? team)
                   && (SkaterCounts.season_id r =? season))
         (set n) t)
    (map (fun '((who, team), g) => (who, team, Z.of_nat (length g)))
       (Sql.group_by key (List.filter sel events)))
    t =
  map (fun r =>
         let n := Sql.count
                    (fun e => sel e
                              && bool_decide (key e = (Some (SkaterCounts.player_id r),
                                                       SkaterCounts.team_id r)))
                    events in
         if (SkaterCounts.season_id r =? season) && (n >? 0) then set n r else r)
      t.
Proof.
  change (fold_left ?f ?ps ?t) with (Sql.executemany (fun p t => f t p) ps t).
  rewrite (executemany_rows (count_cond season) (fun p => set (count_value p)))
    by (intros [[who team] n] tbl; reflexivity).
  apply map_ext. intros r. cbv zeta.
  set (rows := map _ (Sql.group_by key (List.filter sel events))).
  set (k := (Some (SkaterCounts.player_id r), SkaterCounts.team_id r)).
  assert (Hin_rows : forall p, In p rows ->
             exists who team, p = (who, team,
               Z.of_nat (length (List.filter (fun e => bool_decide (key e = (who, team)))
                                   (List.filter sel events)))) /\
               In (who, team) (map key (List.filter sel events))).
  { intros p Hp. apply in_map_iff in Hp as ([[who team] g] & <- & Hg).
    apply in_group_by in Hg as [Hk ->]. exists who, team. auto. }
  unfold Sql.count. rewrite <- filter_filter_andb.
  set (g := List.filter (fun e => bool_decide (key e = k)) (List.filter sel events)).
  destruct (Z.eqb_spec (SkaterCounts.season_id r) season) as [Hs|Hs]; cbn [andb].
  - destruct g as [|x g'] eqn:Hg.
    + cbn [length Z.of_nat Z.gtb Z.compare].
      apply (apply_updates_untouched skater_key (count_key season)
               (count_cond season) (fun p => set (count_value p)) count_cond_key).
      intros Hin. apply in_map_iff in Hin as (p & Hk & Hp).
      apply Hin_rows in Hp as (who & team & -> & Hkey).
      unfold count_key, skater_key in Hk. inversion Hk; subst who team.
      apply in_map_iff in Hkey as (e & He & Hin).
      assert (Hx : In e g).
      { unfold g. apply filter_In. split; [exact Hin|].
        now apply bool_decide_eq_true_2. }
      rewrite Hg in Hx. destruct Hx.
    + assert (Hpos : (Z.of_nat (length (x :: g')) >? 0) = true)
        by (apply Z.gtb_lt; simpl length; lia).
      rewrite Hpos.
      apply (apply_updates_unique skater_key (count_key season)
               (count_cond season) (fun p => set (count_value p))
               count_cond_key (fun p => set_key (count_value p)) rows
               (Some (SkaterCounts.player_id r), SkaterCounts.team_id r,
                Z.of_nat (length (x :: g')))).
      * apply count_rows_keys_NoDup.
      * apply in_map_iff. exists (k, x :: g'). split; [reflexivity|].
        apply in_group_by. split; [|now rewrite <- Hg].
        assert (Hx : In x g) by (rewrite Hg; now left).
        apply filter_In in Hx as [Hx Hk]. apply bool_decide_eq_true_1 in Hk.
        rewrite <- Hk. now apply in_map.
      * unfold count_key, skater_key. now rewrite Hs.
  - apply (apply_updates_untouched skater_key (count_key season)
             (count_cond season) (fun p => set (count_value p)) count_cond_key).
    intros Hin. apply in_map_iff in Hin as (p & Hk & Hp).
    destruct p as [[who team] n]. unfold count_key, skater_key in Hk.
    inversion Hk. congruence.
Qed.
End CountPass.

Section CountPassTheorems.
Import CountPasses.

Lemma defensive_stats_by_row (season : Z)
    (blocked_shots : list BlockedShots.row) (skater_stats : list SkaterCounts.row) :
  calculate_defensive_stats season blocked_shots skater_stats =
  map (fun r =>
         let n := blocks_of season (SkaterCounts.player_id r) (SkaterCounts.team_id r)
                    blocked_shots in
         if (SkaterCounts.season_id r =? season) && (n >? 0)
         then SkaterCounts.set_blocks n r else r)
      skater_stats.
Proof.
  unfold calculate_defensive_stats. cbv zeta.
  rewrite (count_pass_rows
             (fun b => (BlockedShots.blocker_id b, BlockedShots.team_id b))
             (fun b => (BlockedShots.season_id b =? season)
                       && bool_decide (BlockedShots.blocker_id b <> None))
             SkaterCounts.set_blocks season)
    by (intros n r; reflexivity).
  apply map_ext. intros r. cbv zeta.
  assert (Hn : Sql.count
                 (fun e => (BlockedShots.season_id e =? season)
                           && bool_decide (BlockedShots.blocker_id e <> None)
                           && bool_decide ((BlockedShots.blocker_id e, BlockedShots.team_id e)
                                           = (Some (SkaterCounts.player_id r),
                                              SkaterCounts.team_id r)))
                 blocked_shots =
               blocks_of season (SkaterCounts.player_id r) (SkaterCounts.team_id r)
                 blocked_shots).
  { unfold blocks_of, Sql.count. do 2 f_equal. apply filter_ext. intros b.
    destruct (BlockedShots.season_id b =? season); cbn [andb]; [|reflexivity].
    destruct (decide (BlockedShots.blocker_id b = Some (SkaterCounts.player_id r)))
      as [Hp|Hp].
    - rewrite (bool_decide_eq_true_2 (BlockedShots.blocker_id b = Some _)) by exact Hp.
      rewrite bool_decide_eq_true_2 by (rewrite Hp; discriminate). cbn [andb].
      destruct (Z.eqb_spec (BlockedShots.team_id b) (SkaterCounts.team_id r)) as [Ht|Ht].
      + apply bool_decide_eq_true_2. now rewrite Hp, Ht.
      + apply bool_decide_eq_false_2. intros [= _ ?]. contradiction.
    - rewrite (bool_decide_eq_false_2 (BlockedShots.blocker_id b = Some _)) by exact Hp.
      cbn [andb]. rewrite andb_comm.
      rewrite bool_decide_eq_false_2; [reflexivity|]. intros [= ? _]. contradiction. }
  rewrite Hn. reflexivity.
Qed.

(** X23: [calculate_defensive_stats] acts row by row on the skater table.
    A row of the season whose player blocked at least one shot of that
    season for the row's team gets the number of those blocked shots as
    [blocks].  Every other row keeps the value it had: the pass never
    resets a count, so a value left by an earlier run stays when the
    blocked shots behind it are gone. *)
Theorem calculate_defensive_stats_rows (season : Z)
    (blocked_shots : list BlockedShots.row) (skater_stats : list SkaterCounts.row) :
  calculate_defensive_stats season blocked_shots skater_stats =
  map (fun r =>
         let n := blocks_of season (SkaterCounts.player_id r) (SkaterCounts.team_id r)
                    blocked_shots in
         if (SkaterCounts.season_id r =? season) && (n >? 0)
         then SkaterCounts.set_blocks n r else r)
      skater_stats.
Proof. apply defensive_stats_by_row. Qed.

Lemma clutch_scoring_by_row (season : Z)
    (goals : list Goals.row) (skater_stats : list SkaterCounts.row) :
  calculate_clutch_scoring season goals skater_stats =
  map (fun r =>
         let n := clutch_of season (SkaterCounts.player_id r) (SkaterCounts.team_id r)
                    goals in
         if (SkaterCounts.season_id r =? season) && (n >? 0)
         then SkaterCounts.set_clutch_goals n r else r)
      skater_stats.
Proof.
  unfold calculate_clutch_scoring. cbv zeta.
  rewrite (count_pass_rows
             (fun g => (Goals.scorer_id g, Goals.team_id g))
             (fun g => (Goals.season_id g =? season) && (Goals.period g >=? 3))
             SkaterCounts.set_clutch_goals season)
    by (intros n r; reflexivity).
  apply map_ext. intros r. cbv zeta.
  assert (Hn : Sql.count
                 (fun e => (Goals.season_id e =? season) && (Goals.period e >=? 3)
                           && bool_decide ((Goals.scorer_id e, Goals.team_id e)
                                           = (Some (SkaterCounts.player_id r),
                                              SkaterCounts.team_id r)))
                 goals =
               clutch_of season (SkaterCounts.player_id r) (SkaterCounts.team_id r) goals).
  { unfold clutch_of, Sql.count. do 2 f_equal. apply filter_ext. intros g.
    destruct ((Goals.season_id g =? season) && (Goals.period g >=? 3));
      cbn [andb]; [|reflexivity].
    destruct (decide (Goals.scorer_id g = Some (SkaterCounts.player_id r))) as [Hp|Hp].
    - rewrite (bool_decide_eq_true_2 (Goals.scorer_id g = Some _)) by exact Hp.
      cbn [andb].
      destruct (Z.eqb_spec (Goals.team_id g) (SkaterCounts.team_id r)) as [Ht|Ht].
      + apply bool_decide_eq_true_2. now rewrite Hp, Ht.
      + apply bool_decide_eq_false_2. intros [= _ ?]. contradiction.
    - rewrite (bool_decide_eq_false_2 (Goals.scorer_id g = Some _)) by exact Hp.
      cbn [andb].
      apply bool_decide_eq_false_2. intros [= ? _]. contradiction. }
  rewrite Hn. reflexivity.
Qed.

(** X24: [calculate_clutch_scoring] acts row by row on the skater table.
    A row of the season whose player scored at least one goal of that
    season in period 3 or later for the row's team gets the number of
    those goals as [clutch_goals]; goals without a scorer are counted for
    no one.  Every other row keeps the value it had. *)
Theorem calculate_clutch_scoring_rows (season : Z)
    (goals : list Goals.row) (skater_stats : list SkaterCounts.row) :
  calculate_clutch_scoring season goals skater_stats =
  map (fun r =>
         let n := clutch_of season (SkaterCounts.player_id r) (SkaterCounts.team_id r)
                    goals in
         if (SkaterCounts.season_id r =? season) && (n >? 0)
         then SkaterCounts.set_clutch_goals n r else r)
      skater_stats.
Proof. apply clutch_scoring_by_row. Qed.

(** X25: the two count passes write different columns and never touch a
    key column, so they can run in either order, for the same or for
    different seasons. *)
Theorem count_passes_commute (s1 s2 : Z) (blocked_shots : list BlockedShots.row)
    (goals : list Goals.row) (skater_stats : list SkaterCounts.row) :
  calculate_clutch_scoring s2 goals
    (calculate_defensive_stats s1 blocked_shots skater_stats) =
  calculate_defensive_stats s1 blocked_shots
    (calculate_clutch_scoring s2 goals skater_stats).
Proof.
  rewrite !defensive_stats_by_row, !clutch_scoring_by_row.
  rewrite !map_map. apply map_ext. intros r. cbv zeta.
  destruct ((SkaterCounts.season_id r =? s1)
            && (blocks_of s1 (SkaterCounts.player_id r) (SkaterCounts.team_id r)
                  blocked_shots >? 0)) eqn:Hb;
    destruct ((SkaterCounts.season_id r =? s2)
              && (clutch_of s2 (SkaterCounts.player_id r) (SkaterCounts.team_id r)
                    goals >? 0)) eqn:Hc;
    cbn [SkaterCounts.set_blocks SkaterCounts.set_clutch_goals
         SkaterCounts.player_id SkaterCounts.team_id SkaterCounts.season_id];
    rewrite ?Hb, ?Hc; reflexivity.
Qed.
End CountPassTheorems.

(** ** The distance helper *)

(** X26: [calculate_distance_from_offensive_zone] is symmetric about
    centre ice (y = 147), but [calculate_xg] does not use it and its zone
    test is not symmetric: the score is no function of shot type, quality
    and that distance.  Two shots 53 units from centre ice, at y = 94 and
    y = 200, fall in different zones. *)
Theorem calculate_xg_not_by_distance :
  (forall d : Z, XG.calculate_distance_from_offensive_zone (147 + d) =
                 XG.calculate_distance_from_offensive_zone (147 - d)) /\
  ~ exists f : option Z -> option Z -> Z -> float,
      forall (shot_type quality x is_goal : option Z) (y : Z),
        XG.calculate_xg shot_type quality x (Some y) is_goal =
        Ok (f shot_type quality (XG.calculate_distance_from_offensive_zone y)).
Proof.
  split.
  - intros d. unfold XG.calculate_distance_from_offensive_zone. cbv zeta. lia.
  - intros [f Hf].
    pose proof (Hf (Some 2) None None None 94) as H1.
    pose proof (Hf (Some 2) None None None 200) as H2.
    change (XG.calculate_distance_from_offensive_zone 94) with 53 in H1.
    change (XG.calculate_distance_from_offensive_zone 200) with 53 in H2.
    rewrite <- H2 in H1.
    assert (Hlow : XG.calculate_xg (Some 2) None None (Some 94) None = Ok 0.04%float)
      by (vm_compute; reflexivity).
    assert (Hhigh : XG.calculate_xg (Some 2) None None (Some 200) None = Ok 0.12%float)
      by (vm_compute; reflexivity).
    rewrite Hlow, Hhigh in H1.
    apply (f_equal (fun r => match r with
                             | Ok v => PrimFloat.ltb v 0.1%float
                             | Raise _ => false
                             end)) in H1.
    vm_compute in H1. discriminate.
Qed.
